(** * neurometric: the EEG windowing and feature-extraction engine of [prep.py]

    A shallow embedding of the silver layer (window slicing, per-channel
    feature rows, spectral entropy, detrended fluctuation analysis) and of the
    gold layer (the two GROUP BY marts) of [src/prep.py], with the properties
    of its specification stated over the embedding.

    Numbers.  Sample counts and indices are Python integers: [Z].  The
    window configuration (lines 199-200) is computed in float64, with the
    primitive binary64 floats and their IEEE rounding.  The [time_sec]
    column (the quotient [sample_idx / 250]) is kept as an exact rational
    [Q].  Signal values are float64 columns: they are embedded as [npfloat],
    the reals extended with the IEEE special values NaN and the two
    infinities; their rounding and signed zeros are not modelled, so that
    what is stated of such a value below (a sign, a range) is stated of the
    exact result.  A CSV column of integer literals only, which pandas reads
    as int64, is outside the model.  Library routines of numpy / scipy /
    DuckDB whose numeric result no property below depends on are operations
    of the interface [NumLib]. *)

From Stdlib Require Import Floats.
From Stdlib Require Import String ZArith QArith Bool Lia.
From Stdlib Require Import List Permutation.
From Stdlib Require Import Reals Lra.
Import ListNotations.

Local Open Scope Z_scope.

(* ===================================================================== *)
(** ** Python exceptions and the error monad *)
(* ===================================================================== *)

Inductive exn : Type :=
| ValueError        (* range() arg 3 must not be zero; zero-size array to
                       reduction; length mismatch; float NaN to integer *)
| OverflowError     (* int too large to convert to float; float infinity
                       to integer *)
| IndexError        (* single positional indexer is out-of-bounds *)
| TypeError         (* polyfit: expected non-empty vector *)
| LinAlgError       (* SVD did not converge in Linear Least Squares *)
| FileNotFoundError
| EmptyDataError    (* pandas: no columns to parse from file *)
| ParserError       (* pandas: error tokenizing data *)
| DuckDBError.      (* duckdb.Error: need a DataFrame with at least one
                       column *)

Inductive exc (A : Type) : Type :=
| Ret (a : A)
| Raise (e : exn).
Arguments Ret {A} a.
Arguments Raise {A} e.

Definition bind {A B : Type} (m : exc A) (k : A -> exc B) : exc B :=
  match m with
  | Ret a => k a
  | Raise e => Raise e
  end.

Declare Scope exc_scope.
Delimit Scope exc_scope with exc.
Notation "x <- m ;; k" := (bind m (fun x => k))
  (at level 61, m at next level, right associativity) : exc_scope.
Notation "' p <- m ;; k" := (bind m (fun x => let p := x in k))
  (at level 61, p pattern, m at next level, right associativity) : exc_scope.

(** [try: body except: handler]: a bare [except] handles every exception. *)
Definition py_try {A : Type} (body : exc A) (handler : exn -> exc A) : exc A :=
  match body with
  | Ret a => Ret a
  | Raise e => handler e
  end.

(** [[f(x) for x in xs]], stopping at the first exception. *)
Fixpoint for_each {A B : Type} (f : A -> exc B) (xs : list A) : exc (list B) :=
  match xs with
  | [] => Ret []
  | x :: xs' => (r <- f x ;; rs <- for_each f xs' ;; Ret (r :: rs))%exc
  end.

(** [for x in xs: acc.extend(body x)], stopping at the first exception. *)
Fixpoint for_extend {A B : Type} (body : A -> exc (list B)) (xs : list A)
  : exc (list B) :=
  match xs with
  | [] => Ret []
  | x :: xs' =>
      (r <- body x ;; rs <- for_extend body xs' ;; Ret (r ++ rs))%exc
  end.

(* ===================================================================== *)
(** ** Python built-ins: [range], [int], slices, [enumerate] *)
(* ===================================================================== *)

(** The iteration of [range] with a positive step: yield [cur] while it is
    below [stop].  [fuel] bounds the number of iterations. *)
Fixpoint range_up (fuel : nat) (cur stop step : Z) : list Z :=
  match fuel with
  | O => []
  | S fuel' =>
      if cur <? stop then cur :: range_up fuel' (cur + step) stop step else []
  end.

Fixpoint range_down (fuel : nat) (cur stop step : Z) : list Z :=
  match fuel with
  | O => []
  | S fuel' =>
      if stop <? cur then cur :: range_down fuel' (cur + step) stop step else []
  end.

(** [range(start, stop, step)]: a zero step raises [ValueError]; for a step
    of at least one, [stop - start] iterations are always enough. *)
Definition py_range (start stop step : Z) : exc (list Z) :=
  if step =? 0 then Raise ValueError
  else if 0 <? step then Ret (range_up (Z.to_nat (stop - start)) start stop step)
  else Ret (range_down (Z.to_nat (start - stop)) start stop step).

(** The number of values of [range(cur, stop, step)] for a positive step. *)
Definition range_count (cur stop step : Z) : Z :=
  if cur <? stop then (stop - cur - 1) / step + 1 else 0.

(** [range(n)] *)
Definition range_n (n : Z) : list Z := range_up (Z.to_nat n) 0 n 1.

(** The float64 an [int] operand of mixed arithmetic is converted to: the
    nearest one, ties to even; an [int] beyond the float64 range raises. *)
Definition float_of_int (z : Z) : exc float :=
  match binary_normalize prec emax z 0 false with
  | S754_infinity _ => Raise OverflowError
  | x => Ret (SF2Prim x)
  end.

(** [int(x)] on a float: truncation toward zero; NaN and the infinities
    raise. *)
Definition py_int (x : float) : exc Z :=
  match Prim2SF x with
  | S754_nan => Raise ValueError
  | S754_infinity _ => Raise OverflowError
  | S754_zero _ => Ret 0
  | S754_finite s m e =>
      let a := Z.shiftl (Z.pos m) e in
      Ret (if s then - a else a)
  end.

(** [l[a:b]] for indices [0 <= a], [0 <= b]: clipped to the length of [l]. *)
Definition py_slice {A : Type} (l : list A) (a b : Z) : list A :=
  firstn (Z.to_nat (b - a)) (skipn (Z.to_nat a) l).

(** [enumerate(l)] counting from [k]. *)
Fixpoint enumerate_from {A : Type} (k : Z) (l : list A) : list (Z * A) :=
  match l with
  | [] => []
  | x :: l' => (k, x) :: enumerate_from (k + 1) l'
  end.

(* ===================================================================== *)
(** ** CONFIG *)
(* ===================================================================== *)

Open Scope string_scope.

Definition EEG_CHANNELS : list string :=
  [ "Fp1"; "Fp2"; "F3"; "F4"; "F7"; "F8";
    "T3"; "T4"; "C3"; "C4"; "T5"; "T6";
    "P3"; "P4"; "O1"; "O2"; "Fz"; "Cz"; "Pz" ].

Definition SAMPLING_RATE : Z := 250.
Definition WINDOW_SIZE : float := 2%float.
Definition WINDOW_OVERLAP : float := 0.5%float.

(** [int(WINDOW_SIZE * SAMPLING_RATE)] *)
Definition window_samples_of (window_size : float) (fs : Z) : exc Z :=
  (fs' <- float_of_int fs ;;
   py_int (PrimFloat.mul window_size fs'))%exc.

(** The float64 product [window_samples * (1 - WINDOW_OVERLAP)]. *)
Definition step_product (ws : Z) (overlap : float) : exc float :=
  (ws' <- float_of_int ws ;;
   Ret (PrimFloat.mul ws' (PrimFloat.sub 1 overlap)))%exc.

(** [int(window_samples * (1 - WINDOW_OVERLAP))]: no clamp is applied. *)
Definition step_samples_of (ws : Z) (overlap : float) : exc Z :=
  (p <- step_product ws overlap ;; py_int p)%exc.

(** The two values with the configured constants (neither computation
    raises: [window_samples_configured], [step_samples_configured]). *)
Definition configured (m : exc Z) : Z :=
  match m with
  | Ret z => z
  | Raise _ => 0
  end.

Definition window_samples : Z :=
  configured (window_samples_of WINDOW_SIZE SAMPLING_RATE).
Definition step_samples : Z :=
  configured (step_samples_of window_samples WINDOW_OVERLAP).

(** The start indices of the windows of a recording of [n_samples] rows:
    [range(0, n_samples - window_samples + 1, step_samples)]. *)
Definition window_starts_of (ws step n_samples : Z) : exc (list Z) :=
  py_range 0 (n_samples - ws + 1) step.

Definition window_starts (n_samples : Z) : exc (list Z) :=
  window_starts_of window_samples step_samples n_samples.

Definition BANDS : list (string * (Q * Q)) :=
  [ ("delta", (1 # 2, 4)); ("theta", (4, 8)); ("alpha", (8, 13));
    ("beta", (13, 30)); ("gamma", (30, 50)) ]%Q.

Close Scope string_scope.

(* ===================================================================== *)
(** ** float64 values *)
(* ===================================================================== *)

(** A float64 with rounding abstracted: a real number or one of the IEEE
    special values.  The zero [Fin 0] stands for both signed zeros. *)
Inductive npfloat : Type :=
| NaN
| PInf
| NInf
| Fin (r : R).

Definition Rltb (a b : R) : bool := if Rlt_dec a b then true else false.
Definition Reqb (a b : R) : bool := if Req_dec_T a b then true else false.

Definition fneg (x : npfloat) : npfloat :=
  match x with
  | NaN => NaN
  | PInf => NInf
  | NInf => PInf
  | Fin a => Fin (- a)
  end.

Definition fadd (x y : npfloat) : npfloat :=
  match x, y with
  | NaN, _ | _, NaN => NaN
  | PInf, NInf | NInf, PInf => NaN
  | PInf, _ | _, PInf => PInf
  | NInf, _ | _, NInf => NInf
  | Fin a, Fin b => Fin (a + b)
  end.

Definition fsub (x y : npfloat) : npfloat := fadd x (fneg y).

(** An infinity times a finite value: invalid at zero, else by sign. *)
Definition inf_times (pos : bool) (a : R) : npfloat :=
  if Reqb a 0 then NaN
  else if Bool.eqb pos (Rltb 0 a) then PInf else NInf.

Definition fmul (x y : npfloat) : npfloat :=
  match x, y with
  | NaN, _ | _, NaN => NaN
  | PInf, PInf | NInf, NInf => PInf
  | PInf, NInf | NInf, PInf => NInf
  | PInf, Fin a | Fin a, PInf => inf_times true a
  | NInf, Fin a | Fin a, NInf => inf_times false a
  | Fin a, Fin b => Fin (a * b)
  end.

(** numpy division: [0/0] and [inf/inf] are NaN (a RuntimeWarning, not an
    exception), [a/0] is an infinity of the sign of [a]. *)
Definition fdiv (x y : npfloat) : npfloat :=
  match x, y with
  | NaN, _ | _, NaN => NaN
  | PInf, PInf | PInf, NInf | NInf, PInf | NInf, NInf => NaN
  | PInf, Fin b => if Rltb b 0 then NInf else PInf
  | NInf, Fin b => if Rltb b 0 then PInf else NInf
  | Fin _, PInf | Fin _, NInf => Fin 0
  | Fin a, Fin b =>
      if Reqb b 0 then
        (if Reqb a 0 then NaN else if Rltb 0 a then PInf else NInf)
      else Fin (a / b)
  end.

(** [x < y]; every comparison with NaN is false. *)
Definition fltb (x y : npfloat) : bool :=
  match x, y with
  | NaN, _ | _, NaN => false
  | _, NInf => false
  | NInf, _ => true
  | PInf, _ => false
  | Fin _, PInf => true
  | Fin a, Fin b => Rltb a b
  end.

Definition feqb (x y : npfloat) : bool :=
  match x, y with
  | PInf, PInf | NInf, NInf => true
  | Fin a, Fin b => Reqb a b
  | _, _ => false
  end.

Definition fleb (x y : npfloat) : bool := fltb x y || feqb x y.

Definition log_base (b : R) (x : npfloat) : npfloat :=
  match x with
  | NaN | NInf => NaN
  | PInf => PInf
  | Fin a =>
      if Rltb 0 a then Fin (ln a / ln b)
      else if Reqb a 0 then NInf else NaN
  end.

Definition np_log2 : npfloat -> npfloat := log_base 2.
Definition np_log10 : npfloat -> npfloat := log_base 10.

Definition np_sqrt (x : npfloat) : npfloat :=
  match x with
  | NaN | NInf => NaN
  | PInf => PInf
  | Fin a => if Rltb a 0 then NaN else Fin (sqrt a)
  end.

Definition of_int (z : Z) : npfloat := Fin (IZR z).
Definition of_Q (q : Q) : npfloat := Fin (IZR (Qnum q) / IZR (Z.pos (Qden q))).

(** [np.sum]: the empty sum is 0. *)
Definition np_sum (l : list npfloat) : npfloat := fold_left fadd l (Fin 0).

Definition np_mean (l : list npfloat) : npfloat :=
  fdiv (np_sum l) (of_int (Z.of_nat (length l))).

(** [np.var]: population variance. *)
Definition np_var (l : list npfloat) : npfloat :=
  let m := np_mean l in
  np_mean (map (fun x => fmul (fsub x m) (fsub x m)) l).

Fixpoint cumsum_from (acc : npfloat) (l : list npfloat) : list npfloat :=
  match l with
  | [] => []
  | x :: l' => fadd acc x :: cumsum_from (fadd acc x) l'
  end.

Definition np_cumsum (l : list npfloat) : list npfloat := cumsum_from (Fin 0) l.

(** The minimum and the maximum of two values: NaN propagates. *)
Definition fmin (x y : npfloat) : npfloat :=
  match x, y with
  | NaN, _ | _, NaN => NaN
  | _, _ => if fltb y x then y else x
  end.

Definition fmax (x y : npfloat) : npfloat :=
  match x, y with
  | NaN, _ | _, NaN => NaN
  | _, _ => if fltb x y then y else x
  end.

(** [np.min] / [np.max]: an empty array raises [ValueError] (zero-size
    array to reduction operation which has no identity). *)
Definition np_min (l : list npfloat) : exc npfloat :=
  match l with
  | [] => Raise ValueError
  | x :: l' => Ret (fold_left fmin l' x)
  end.

Definition np_max (l : list npfloat) : exc npfloat :=
  match l with
  | [] => Raise ValueError
  | x :: l' => Ret (fold_left fmax l' x)
  end.

(** [np.arange(n)] as floats. *)
Definition np_arange (n : nat) : list npfloat :=
  map (fun i => of_int (Z.of_nat i)) (seq 0 n).

(** [np.trapz(y, x)] *)
Fixpoint np_trapz (y x : list npfloat) : npfloat :=
  match y, x with
  | y0 :: ((y1 :: _) as y'), x0 :: ((x1 :: _) as x') =>
      fadd (fdiv (fmul (fsub x1 x0) (fadd y1 y0)) (Fin 2)) (np_trapz y' x')
  | _, _ => Fin 0
  end.

(** [np.polyval((slope, intercept), x)] *)
Definition np_polyval1 (fit : npfloat * npfloat) (x : list npfloat)
  : list npfloat :=
  map (fun xi => fadd (fmul (fst fit) xi) (snd fit)) x.

(** Routines of scipy, numpy.linalg and DuckDB that are taken as given.
    [sp_welch data fs nperseg] is [signal.welch(data, fs, nperseg=nperseg)],
    returning (freqs, psd); the pipeline calls it on windows of at least 10
    samples.  [np_polyfit1 x y] is [np.polyfit(x, y, 1)], returning
    (slope, intercept); it is the one routine of the scaling-exponent
    computation that raises (on an empty vector, or when the least-squares
    solver does not converge).  [sql_avg] and [sql_stddev] are the
    aggregates AVG and STDDEV of DuckDB over a column of the registered
    feature table, in which a NaN cell is NULL; their result [None] is
    NULL. *)
Class NumLib : Type := {
  sp_welch : list npfloat -> Z -> Z -> list npfloat * list npfloat;
  np_polyfit1 : list npfloat -> list npfloat -> exc (npfloat * npfloat);
  sp_skew : list npfloat -> npfloat;
  sp_kurtosis : list npfloat -> npfloat;
  sql_avg : list npfloat -> option npfloat;
  sql_stddev : list npfloat -> option npfloat
}.

(* ===================================================================== *)
(** ** SILVER LAYER: feature extractors *)
(* ===================================================================== *)

(** Boolean-mask indexing [a[mask]]. *)
Fixpoint mask {A : Type} (a : list A) (m : list bool) : list A :=
  match a, m with
  | x :: a', b :: m' => if b then x :: mask a' m' else mask a' m'
  | _, _ => []
  end.

Definition band_of (name : string) : Q * Q :=
  match find (fun b => String.eqb (fst b) name) BANDS with
  | Some b => snd b
  | None => (0, 0)%Q
  end.

(** [np.linspace(start, stop, num)] with the end point included: the last
    element is set to [stop] itself. *)
Definition np_linspace (start stop : R) (num : nat) : list R :=
  let step := ((stop - start) / INR (num - 1))%R in
  map (fun i => if (i =? num - 1)%nat then stop
                else (INR i * step + start)%R)
      (seq 0 num).

(** [np.logspace(start, stop, num)]: [10 ** linspace]. *)
Definition np_logspace (start stop : R) (num : nat) : list R :=
  map (fun e => Rpower 10 e) (np_linspace start stop num).

(** [.astype(int)] on a finite float: truncation toward zero. *)
Definition astype_int (r : R) : Z :=
  if Rle_dec 0 r then Int_part r else - Int_part (- r).

Definition log10R (x : R) : R := (ln x / ln 10)%R.

(** [np.logspace(1, np.log10(N//4), 8).astype(int)], with the powers and the
    logarithm taken exactly.  In float64 [10 ** log10(N//4)] can fall just
    below [N // 4], so that the last scale of the code is [N // 4] or
    [N // 4 - 1] (124, not 125, at [N = 500]); what is proved of the scales
    below is their number, the first scale, their bounds and their order,
    which hold of both. *)
Definition dfa_scales (N : Z) : list Z :=
  map astype_int (np_logspace 1 (log10R (IZR (N / 4))) 8).

(** [N // scale] for a numpy integer [scale]: a zero divisor gives 0 (with a
    warning), not an exception. *)
Definition np_floordiv (a b : Z) : Z := if b =? 0 then 0 else a / b.

(** The segments of the profile [y] used at one scale:
    [y[i*scale:(i+1)*scale]] for [i] in [range(segments)], those shorter
    than 2 skipped. *)
Definition dfa_segments {A : Type} (y : list A) (scale segments : Z)
  : list (list A) :=
  filter (fun segment => negb (Z.of_nat (length segment) <? 2))
         (map (fun i => py_slice y (i * scale) ((i + 1) * scale))
              (range_n segments)).

Section Extractors.
Context {numlib : NumLib}.
Local Open Scope exc_scope.

(** Bandpower using Welch's method. *)
Definition compute_bandpower (data : list npfloat) (fs : Z) (band : Q * Q)
  : npfloat :=
  let '(freqs, psd) :=
    sp_welch data fs (Z.min 256 (Z.of_nat (length data))) in
  let idx_band :=
    map (fun f => fleb (of_Q (fst band)) f && fleb f (of_Q (snd band))) freqs in
  np_trapz (mask psd idx_band) (mask freqs idx_band).

(** Lines 118-120: normalise, keep the positive entries, Shannon entropy. *)
Definition spectral_entropy_of_psd (psd : list npfloat) : npfloat :=
  let total := np_sum psd in
  let psd_norm := map (fun p => fdiv p total) psd in
  let psd_norm := filter (fun p => fltb (Fin 0) p) psd_norm in
  fneg (np_sum (map (fun p => fmul p (np_log2 p)) psd_norm)).

Definition compute_spectral_entropy (data : list npfloat) (fs : Z) : npfloat :=
  let '(freqs, psd) :=
    sp_welch data fs (Z.min 256 (Z.of_nat (length data))) in
  spectral_entropy_of_psd psd.

(** Lines 146-149: the RMS of one segment after removing its linear trend. *)
Definition detrended_rms (segment : list npfloat) : exc npfloat :=
  let x := np_arange (length segment) in
  fit <- np_polyfit1 x segment ;;
  let trend := np_polyval1 fit x in
  Ret (np_sqrt (np_mean (map (fun st => let d := fsub (fst st) (snd st) in
                                         fmul d d)
                             (combine segment trend)))).

(** One iteration of the loop over scales: what it appends to [flucts]. *)
Definition scale_fluct (y : list npfloat) (N scale : Z) : exc (list npfloat) :=
  let segments := np_floordiv N scale in
  if segments <? 1 then Ret []
  else
    F <- for_each detrended_rms (dfa_segments y scale segments) ;;
    match F with
    | [] => Ret []
    | _ :: _ => Ret [np_mean F]
    end.

Definition dfa_flucts (y : list npfloat) (N : Z) (scales : list Z)
  : exc (list npfloat) :=
  for_extend (scale_fluct y N) scales.

(** The body of the [try] of [compute_dfa]. *)
Definition compute_dfa_body (data : list npfloat) : exc npfloat :=
  let N := Z.of_nat (length data) in
  if N <? 16 then Ret (Fin 0)
  else
    let y := np_cumsum (map (fun x => fsub x (np_mean data)) data) in
    let scales := dfa_scales N in
    flucts <- dfa_flucts y N scales ;;
    if Z.of_nat (length flucts) <? 2 then Ret (Fin 0)
    else
      let log_scales :=
        map (fun s => np_log10 (of_int s)) (firstn (length flucts) scales) in
      let log_flucts := map np_log10 flucts in
      fit <- np_polyfit1 log_scales log_flucts ;;
      Ret (fst fit).

(** Detrended Fluctuation Analysis (simplified). *)
Definition compute_dfa (data : list npfloat) : exc npfloat :=
  py_try (compute_dfa_body data) (fun _ => Ret (Fin 0)).

Record Features : Type := {
  mean_val : npfloat;
  var_val : npfloat;
  min_val : npfloat;
  max_val : npfloat;
  skewness : npfloat;
  kurtosis : npfloat;
  energy : npfloat;
  delta_power : npfloat;
  theta_power : npfloat;
  alpha_power : npfloat;
  beta_power : npfloat;
  gamma_power : npfloat;
  spectral_entropy : npfloat;
  dfa_alpha : npfloat
}.

(** All features of a single window of one channel, a float64 array.  The
    [channel] entry of the dictionary is the [channel] field of
    [FeatureRow] below.  [np.min] is the first call that raises on an empty
    window. *)
Definition extract_window_features (window_data : list npfloat) (fs : Z)
  : exc Features :=
  let power name := compute_bandpower window_data fs (band_of name) in
  lo <- np_min window_data ;;
  hi <- np_max window_data ;;
  dfa <- compute_dfa window_data ;;
  Ret {| mean_val := np_mean window_data;
         var_val := np_var window_data;
         min_val := lo;
         max_val := hi;
         skewness := sp_skew window_data;
         kurtosis := sp_kurtosis window_data;
         energy := np_sum (map (fun x => fmul x x) window_data);
         delta_power := power "delta"%string;
         theta_power := power "theta"%string;
         alpha_power := power "alpha"%string;
         beta_power := power "beta"%string;
         gamma_power := power "gamma"%string;
         spectral_entropy := compute_spectral_entropy window_data fs;
         dfa_alpha := dfa |}.

End Extractors.

(* ===================================================================== *)
(** ** BRONZE LAYER: the raw table *)
(* ===================================================================== *)

(** One row of [bronze_eeg]: the channel cells of one sample, with the three
    columns the loader adds. *)
Record RawRow : Type := {
  raw_cells : list (string * npfloat);
  raw_subject : string;
  raw_sample_idx : Z;
  raw_time_sec : Q
}.

(** The table: its channel columns (the three added columns are fields of
    every row) and its rows in insertion order. *)
Record DataFrame : Type := {
  columns : list string;
  rows : list RawRow
}.

(** A CSV file of decimal samples: the stem of its path and the fields of
    its non-blank lines. *)
Record CsvFile : Type := {
  stem : string;
  lines : list (list npfloat)
}.

(** [df.shape[1]] of the frame read from a file: the number of fields of its
    first line. *)
Definition n_cols (f : CsvFile) : nat := length (hd [] (lines f)).

(** [pd.read_csv(path, header=None)]: a file without lines raises
    [EmptyDataError], and a line with more fields than the first raises
    [ParserError]; a line with fewer fields is padded with NaN (the cells
    missing from its row, see [cell]). *)
Definition read_csv (f : CsvFile) : exc (list (list npfloat)) :=
  match lines f with
  | [] => Raise EmptyDataError
  | _ :: _ =>
      if existsb (fun l => (n_cols f <? length l)%nat) (lines f)
      then Raise ParserError
      else Ret (lines f)
  end.

(** Lines 78-85 for one file: [sample_idx = np.arange(len(df))] and
    [time_sec = sample_idx / SAMPLING_RATE].  Naming more columns than
    [EEG_CHANNELS] has is a length mismatch. *)
Definition read_subject (f : CsvFile) : exc (list RawRow) :=
  (df <- read_csv f ;;
   if (length EEG_CHANNELS <? n_cols f)%nat then Raise ValueError
   else
     Ret (map (fun il =>
                 {| raw_cells := combine (firstn (n_cols f) EEG_CHANNELS) (snd il);
                    raw_subject := stem f;
                    raw_sample_idx := fst il;
                    raw_time_sec := inject_Z (fst il) / inject_Z SAMPLING_RATE |})
              (enumerate_from 0 df)))%exc.

(** The columns of [pd.concat]: those of the first frame, then the new ones
    of each next frame. *)
Definition union_columns (acc new : list string) : list string :=
  acc ++ filter (fun c => negb (existsb (String.eqb c) acc)) new.

(** [load_raw_eeg_data] up to the registration of [bronze_eeg];
    [files] is [sorted(DATASET_DIR.glob("s*.csv"))]. *)
Definition load_raw_eeg_data (files : list CsvFile) : exc DataFrame :=
  let csv_files := firstn 5 files in
  match csv_files with
  | [] => Raise FileNotFoundError
  | first :: _ =>
      (first_df <- read_csv first ;;
       all_data <- for_each read_subject csv_files ;;
       Ret {| columns :=
                fold_left union_columns
                  (map (fun f => firstn (n_cols f) EEG_CHANNELS) csv_files) [];
              rows := concat all_data |})%exc
  end.

(** The cell of a row in a column; a cell missing after [pd.concat] is NaN. *)
Definition cell (r : RawRow) (c : string) : npfloat :=
  match find (fun kv => String.eqb (fst kv) c) (raw_cells r) with
  | Some kv => snd kv
  | None => NaN
  end.

(** The [time_sec] column of a list of rows counts sample periods from zero:
    what [np.arange(len(df)) / SAMPLING_RATE] gives the rows of one file. *)
Definition timed_from_zero (l : list RawRow) : Prop :=
  forall i r, nth_error l i = Some r ->
    raw_time_sec r = (inject_Z (Z.of_nat i) / inject_Z SAMPLING_RATE)%Q.

(* ===================================================================== *)
(** ** SILVER LAYER: windowing *)
(* ===================================================================== *)

Record FeatureRow : Type := {
  channel : string;
  features : Features;
  subject : string;
  window_idx : Z;
  window_start : Q;
  window_end : Q
}.

(** [Series.unique()]: the distinct values in order of first appearance. *)
Fixpoint unique_from (seen l : list string) : list string :=
  match l with
  | [] => []
  | x :: l' =>
      if existsb (String.eqb x) seen then unique_from seen l'
      else x :: unique_from (x :: seen) l'
  end.

Definition unique (l : list string) : list string := unique_from [] l.

(** [.iloc[0]] and [.iloc[-1]] *)
Definition iloc_first {A : Type} (l : list A) : exc A :=
  match l with
  | [] => Raise IndexError
  | x :: _ => Ret x
  end.

Definition iloc_last {A : Type} (l : list A) : exc A :=
  match rev l with
  | [] => Raise IndexError
  | x :: _ => Ret x
  end.

Section Silver.
Context {numlib : NumLib}.
Local Open Scope exc_scope.

(** Lines 220-235: the body of the loop over [EEG_CHANNELS]. *)
Definition channel_rows (df_columns : list string) (subj : string)
    (window_count : Z) (w_start w_end : Q) (window_slice : list RawRow)
    (ch : string) : exc (list FeatureRow) :=
  if negb (existsb (String.eqb ch) df_columns) then Ret []
  else
    let channel_data := map (fun r => cell r ch) window_slice in
    if Z.of_nat (length channel_data) <? 10 then Ret []
    else
      fs <- extract_window_features channel_data SAMPLING_RATE ;;
      Ret [ {| channel := ch;
               features := fs;
               subject := subj;
               window_idx := window_count;
               window_start := w_start;
               window_end := w_end |} ].

(** Lines 213-237: one window. *)
Definition window_rows (ws : Z) (df_columns : list string) (subj : string)
    (subject_data : list RawRow) (window_count start_idx : Z)
  : exc (list FeatureRow) :=
  let end_idx := start_idx + ws in
  let window_slice := py_slice subject_data start_idx end_idx in
  w_start <- iloc_first (map raw_time_sec window_slice) ;;
  w_end <- iloc_last (map raw_time_sec window_slice) ;;
  for_extend (channel_rows df_columns subj window_count w_start w_end
                           window_slice)
             EEG_CHANNELS.

Definition subject_data_of (raw_df : DataFrame) (subj : string) : list RawRow :=
  filter (fun r => String.eqb (raw_subject r) subj) (rows raw_df).

(** Lines 205-237: one subject; [window_count] is the position of the window
    in the enumeration. *)
Definition subject_rows (ws step : Z) (raw_df : DataFrame) (subj : string)
  : exc (list FeatureRow) :=
  let subject_data := subject_data_of raw_df subj in
  let n_samples := Z.of_nat (length subject_data) in
  starts <- window_starts_of ws step n_samples ;;
  for_extend (fun ks => window_rows ws (columns raw_df) subj subject_data
                                    (fst ks) (snd ks))
             (enumerate_from 0 starts).

(** Lines 202-237: the loop over the subjects. *)
Definition all_features_of (ws step : Z) (raw_df : DataFrame)
  : exc (list FeatureRow) :=
  for_extend (subject_rows ws step raw_df)
             (unique (map raw_subject (rows raw_df))).

(** Lines 241-248: [pd.DataFrame(all_features)] has no column when no
    feature row was produced, and DuckDB refuses to register it. *)
Definition register_features (all_features : list FeatureRow)
  : exc (list FeatureRow) :=
  match all_features with
  | [] => Raise DuckDBError
  | _ :: _ => Ret all_features
  end.

Definition create_silver_features_of (ws step : Z) (raw_df : DataFrame)
  : exc (list FeatureRow) :=
  all_features <- all_features_of ws step raw_df ;;
  register_features all_features.

Definition create_silver_features (raw_df : DataFrame)
  : exc (list FeatureRow) :=
  ws <- window_samples_of WINDOW_SIZE SAMPLING_RATE ;;
  step <- step_samples_of ws WINDOW_OVERLAP ;;
  create_silver_features_of ws step raw_df.

End Silver.

(* ===================================================================== *)
(** ** GOLD LAYER: the two marts *)
(* ===================================================================== *)

Record WorkloadStats : Type := {
  ws_channel : string;
  ws_avg_mean : option npfloat;
  ws_avg_variance : option npfloat;
  ws_avg_alpha : option npfloat;
  ws_avg_beta : option npfloat;
  ws_avg_theta : option npfloat;
  ws_avg_delta : option npfloat;
  ws_avg_gamma : option npfloat;
  ws_avg_spectral_entropy : option npfloat;
  ws_avg_dfa : option npfloat;
  ws_std_alpha : option npfloat;
  ws_std_beta : option npfloat;
  ws_n_windows : Z
}.

Record SubjectStats : Type := {
  ss_subject : string;
  ss_n_windows : Z;
  ss_avg_alpha : option npfloat;
  ss_avg_beta : option npfloat;
  ss_avg_theta : option npfloat;
  ss_avg_dfa : option npfloat;
  ss_avg_entropy : option npfloat
}.

(** ORDER BY: insertion of each row into the sorted rest. *)
Fixpoint insert_by {A : Type} (leb : A -> A -> bool) (a : A) (l : list A)
  : list A :=
  match l with
  | [] => [a]
  | b :: l' => if leb a b then a :: l else b :: insert_by leb a l'
  end.

Fixpoint sort_by {A : Type} (leb : A -> A -> bool) (l : list A) : list A :=
  match l with
  | [] => []
  | a :: l' => insert_by leb a (sort_by leb l')
  end.

(** The order of DOUBLE values in DuckDB: NaN is the greatest value. *)
Definition sql_leb (x y : npfloat) : bool :=
  match x, y with
  | _, NaN => true
  | NaN, _ => false
  | _, _ => fleb x y
  end.

(** [ORDER BY ... DESC]: whether a row of value [x] may precede one of value
    [y].  The greater value comes first and NULL comes last. *)
Definition sql_desc (x y : option npfloat) : bool :=
  match x, y with
  | _, None => true
  | None, Some _ => false
  | Some a, Some b => sql_leb b a
  end.

(** [COUNT(DISTINCT window_idx)] *)
Definition count_distinct (l : list Z) : Z :=
  Z.of_nat (length (nodup Z.eq_dec l)).

Section Gold.
Context {numlib : NumLib}.

(** One group of [GROUP BY channel]. *)
Definition workload_stats_of (silver : list FeatureRow) (c : string)
  : WorkloadStats :=
  let g := filter (fun r => String.eqb (channel r) c) silver in
  let col f := map (fun r => f (features r)) g in
  {| ws_channel := c;
     ws_avg_mean := sql_avg (col mean_val);
     ws_avg_variance := sql_avg (col var_val);
     ws_avg_alpha := sql_avg (col alpha_power);
     ws_avg_beta := sql_avg (col beta_power);
     ws_avg_theta := sql_avg (col theta_power);
     ws_avg_delta := sql_avg (col delta_power);
     ws_avg_gamma := sql_avg (col gamma_power);
     ws_avg_spectral_entropy := sql_avg (col spectral_entropy);
     ws_avg_dfa := sql_avg (col dfa_alpha);
     ws_std_alpha := sql_stddev (col alpha_power);
     ws_std_beta := sql_stddev (col beta_power);
     ws_n_windows := Z.of_nat (length g) |}.

(** [gold_workload_stats]: GROUP BY channel ORDER BY avg_beta DESC. *)
Definition gold_workload_stats (silver : list FeatureRow) : list WorkloadStats :=
  sort_by (fun a b => sql_desc (ws_avg_beta a) (ws_avg_beta b))
          (map (workload_stats_of silver) (unique (map channel silver))).

(** One group of [GROUP BY subject]. *)
Definition subject_stats_of (silver : list FeatureRow) (s : string)
  : SubjectStats :=
  let g := filter (fun r => String.eqb (subject r) s) silver in
  let col f := map (fun r => f (features r)) g in
  {| ss_subject := s;
     ss_n_windows := count_distinct (map window_idx g);
     ss_avg_alpha := sql_avg (col alpha_power);
     ss_avg_beta := sql_avg (col beta_power);
     ss_avg_theta := sql_avg (col theta_power);
     ss_avg_dfa := sql_avg (col dfa_alpha);
     ss_avg_entropy := sql_avg (col spectral_entropy) |}.

(** [gold_subject_stats]: GROUP BY subject ORDER BY subject. *)
Definition gold_subject_stats (silver : list FeatureRow) : list SubjectStats :=
  sort_by (fun a b => String.leb (ss_subject a) (ss_subject b))
          (map (subject_stats_of silver) (unique (map subject silver))).

End Gold.

(** A mart has exactly one row for each key value of its input. *)
Definition one_row_per_key {A : Type} (key : A -> string)
    (input_keys : list string) (mart : list A) : Prop :=
  NoDup (map key mart) /\
  forall k, In k input_keys <-> In k (map key mart).

(* ===================================================================== *)
(** ** A small instance of the interface and example inputs *)
(* ===================================================================== *)

(** Closed-form least squares of degree one, raising on an empty vector and
    when the slope is not finite. *)
Definition toy_polyfit1 (x y : list npfloat) : exc (npfloat * npfloat) :=
  match x with
  | [] => Raise TypeError
  | _ :: _ =>
      let n := of_int (Z.of_nat (length x)) in
      let sx := np_sum x in
      let sy := np_sum y in
      let sxx := np_sum (map (fun a => fmul a a) x) in
      let sxy := np_sum (map (fun ab => fmul (fst ab) (snd ab)) (combine x y)) in
      let slope :=
        fdiv (fsub (fmul n sxy) (fmul sx sy)) (fsub (fmul n sxx) (fmul sx sx)) in
      match slope with
      | Fin _ => Ret (slope, fdiv (fsub sy (fmul slope sx)) n)
      | _ => Raise LinAlgError
      end
  end.

(** Elementary stand-ins for the library routines, used where a statement
    needs some instance of [NumLib]: the spectrum is the squared signal, the
    moments are zero, AVG is the mean of the cells that are not NaN and
    STDDEV is NULL. *)
Definition toy_numlib : NumLib := {|
  sp_welch := fun data _ _ =>
    (np_arange (length data), map (fun x => fmul x x) data);
  np_polyfit1 := toy_polyfit1;
  sp_skew := fun _ => Fin 0;
  sp_kurtosis := fun _ => Fin 0;
  sql_avg := fun l =>
    match filter (fun x => match x with NaN => false | _ => true end) l with
    | [] => None
    | _ :: _ as values => Some (np_mean values)
    end;
  sql_stddev := fun _ => None
|}.

(** Two recordings of two channels: 750 samples and 3 samples. *)
Definition example_files : list CsvFile :=
  [ {| stem := "s00"; lines := repeat [Fin 1; Fin 0] 750 |};
    {| stem := "s01"; lines := repeat [Fin 0; Fin 1] 3 |} ].

(** A single recording of 100 samples, shorter than a window. *)
Definition short_files : list CsvFile :=
  [ {| stem := "s00"; lines := repeat [Fin 1; Fin 0] 100 |} ].

Definition zero_features : Features :=
  {| mean_val := Fin 0; var_val := Fin 0; min_val := Fin 0; max_val := Fin 0;
     skewness := Fin 0; kurtosis := Fin 0; energy := Fin 0;
     delta_power := Fin 0; theta_power := Fin 0; alpha_power := Fin 0;
     beta_power := Fin 0; gamma_power := Fin 0; spectral_entropy := Fin 0;
     dfa_alpha := Fin 0 |}.

(** The rows of one window of subject s00 on two channels. *)
Definition one_window_two_channels : list FeatureRow :=
  [ {| channel := "Fp1"; features := zero_features; subject := "s00";
       window_idx := 0; window_start := 0; window_end := 499 # 250 |};
    {| channel := "Fp2"; features := zero_features; subject := "s00";
       window_idx := 0; window_start := 0; window_end := 499 # 250 |} ].

(** A profile of 25 samples. *)
Definition profile_25 : list npfloat := map of_int (range_n 25).

(** A table of one subject with 750 samples on two channels. *)
Definition example_table : DataFrame :=
  {| columns := ["Fp1"; "Fp2"]%string;
     rows := map (fun i => {| raw_cells := [("Fp1", Fin 1); ("Fp2", Fin 0)]%string;
                              raw_subject := "s00"%string;
                              raw_sample_idx := i;
                              raw_time_sec := inject_Z i / inject_Z SAMPLING_RATE |})
                 (range_n 750) |}.


(* ===================================================================== *)
(** * Properties *)
(* ===================================================================== *)

(** ** The error monad *)

Lemma bind_Ret_inv {A B : Type} (m : exc A) (k : A -> exc B) (b : B) :
  bind m k = Ret b -> exists a, m = Ret a /\ k a = Ret b.
Proof.
  destruct m as [a | e]; simpl; intros Hk.
  - exists a; split; [reflexivity | exact Hk].
  - discriminate Hk.
Qed.

Lemma for_extend_total {A B : Type} (body : A -> exc (list B)) (xs : list A) :
  (forall x, In x xs -> exists r, body x = Ret r) ->
  exists rs, for_extend body xs = Ret rs.
Proof.
  induction xs as [| x xs IH]; intros Hbody; simpl.
  - exists []; reflexivity.
  - destruct (Hbody x (or_introl eq_refl)) as [r Hr].
    destruct IH as [rs Hrs].
    + intros y Hy; apply Hbody; right; exact Hy.
    + rewrite Hr, Hrs; simpl. exists (r ++ rs); reflexivity.
Qed.

Lemma for_extend_In {A B : Type} (body : A -> exc (list B)) (xs : list A)
    (rs : list B) (b : B) :
  for_extend body xs = Ret rs ->
  (In b rs <-> exists x r, In x xs /\ body x = Ret r /\ In b r).
Proof.
  revert rs; induction xs as [| x xs IH]; simpl; intros rs Hrs.
  - injection Hrs as <-. split; [intros [] | intros (x & r & [] & _)].
  - apply bind_Ret_inv in Hrs as (r & Hr & Hrs).
    apply bind_Ret_inv in Hrs as (rs' & Hrs' & Hrs).
    injection Hrs as <-. rewrite in_app_iff, (IH rs' Hrs'). split.
    + intros [Hb | (y & ry & Hy & Hry & Hb)].
      * exists x, r; auto.
      * exists y, ry; auto.
    + intros (y & ry & [<- | Hy] & Hry & Hb).
      * left. rewrite Hr in Hry. injection Hry as <-. exact Hb.
      * right. exists y, ry; auto.
Qed.

Lemma for_extend_length {A B : Type} (body : A -> exc (list B)) (xs : list A)
    (out : list B) (c : nat) :
  (forall x r, In x xs -> body x = Ret r -> length r = c) ->
  for_extend body xs = Ret out ->
  length out = (length xs * c)%nat.
Proof.
  revert out; induction xs as [| x xs IH]; simpl; intros out Hc Hout.
  - injection Hout as <-. reflexivity.
  - apply bind_Ret_inv in Hout as (r & Hr & Hout).
    apply bind_Ret_inv in Hout as (rs & Hrs & Hout).
    injection Hout as <-. rewrite length_app.
    rewrite (Hc x r (or_introl eq_refl) Hr).
    rewrite (IH rs); [reflexivity | | exact Hrs].
    intros y ry Hy. apply Hc. right; exact Hy.
Qed.

(** ** [range] *)

Lemma range_count_step (cur stop step : Z) :
  0 < step -> cur < stop ->
  range_count cur stop step = 1 + range_count (cur + step) stop step.
Proof.
  intros Hstep Hlt. unfold range_count.
  destruct (Z.ltb_spec cur stop) as [_ | Hge]; [| lia].
  destruct (Z.ltb_spec (cur + step) stop) as [Hnext | Hlast].
  - replace (stop - cur - 1) with (stop - (cur + step) - 1 + 1 * step) by ring.
    rewrite Z.div_add by lia. ring.
  - rewrite Z.div_small by lia. reflexivity.
Qed.

Lemma range_up_length (fuel : nat) (cur stop step : Z) :
  0 < step -> stop - cur <= Z.of_nat fuel ->
  Z.of_nat (length (range_up fuel cur stop step)) = range_count cur stop step.
Proof.
  intros Hstep. revert cur.
  induction fuel as [| fuel IH]; intros cur Hfuel.
  - simpl. unfold range_count.
    destruct (Z.ltb_spec cur stop); [lia | reflexivity].
  - cbn [range_up]. destruct (Z.ltb_spec cur stop) as [Hlt | Hge].
    + cbn [length]. rewrite Nat2Z.inj_succ, IH by lia.
      rewrite (range_count_step cur) by assumption. ring.
    + unfold range_count. destruct (Z.ltb_spec cur stop); [lia | reflexivity].
Qed.

Lemma range_up_bounds (fuel : nat) (cur stop step s : Z) :
  0 < step -> In s (range_up fuel cur stop step) -> cur <= s < stop.
Proof.
  intros Hstep. revert cur.
  induction fuel as [| fuel IH]; intros cur; cbn [range_up].
  - intros [].
  - destruct (Z.ltb_spec cur stop) as [Hlt | Hge]; [| intros []].
    intros [<- | Hin]; [lia |]. apply IH in Hin. lia.
Qed.

Lemma py_range_positive (start stop step : Z) :
  0 < step ->
  exists l, py_range start stop step = Ret l /\
            Z.of_nat (length l) = range_count start stop step /\
            forall s, In s l -> start <= s < stop.
Proof.
  intros Hstep. unfold py_range.
  destruct (Z.eqb_spec step 0) as [-> | _]; [lia |].
  destruct (Z.ltb_spec 0 step) as [_ | Hle]; [| lia].
  eexists; split; [reflexivity | split].
  - apply range_up_length; lia.
  - intros s; apply range_up_bounds; exact Hstep.
Qed.

Lemma range_up_unit (fuel : nat) (cur : Z) :
  range_up fuel cur (cur + Z.of_nat fuel) 1 =
  map (fun i => cur + Z.of_nat i) (seq 0 fuel).
Proof.
  revert cur; induction fuel as [| fuel IH]; intros cur; [reflexivity |].
  cbn [range_up]. destruct (Z.ltb_spec cur (cur + Z.of_nat (S fuel))); [| lia].
  cbn [seq map]. rewrite Z.add_0_r. f_equal.
  replace (cur + Z.of_nat (S fuel)) with (cur + 1 + Z.of_nat fuel) by lia.
  rewrite IH, <- seq_shift, map_map. apply map_ext. intros i. lia.
Qed.

Lemma range_n_seq (n : Z) :
  range_n n = map Z.of_nat (seq 0 (Z.to_nat n)).
Proof.
  unfold range_n. destruct (Z.le_gt_cases 0 n) as [Hn | Hn].
  - rewrite <- (Z2Nat.id n) at 2 by exact Hn.
    exact (range_up_unit (Z.to_nat n) 0).
  - replace (Z.to_nat n) with O by lia. reflexivity.
Qed.

Lemma range_count_nonneg (cur stop step : Z) :
  0 < step -> 0 <= range_count cur stop step.
Proof.
  intros Hstep. unfold range_count.
  destruct (Z.ltb_spec cur stop); [| lia].
  assert (0 <= (stop - cur - 1) / step) by (apply Z.div_pos; lia). lia.
Qed.

Lemma range_up_values (fuel : nat) (cur stop step : Z) :
  0 < step -> stop - cur <= Z.of_nat fuel ->
  range_up fuel cur stop step =
  map (fun k => cur + k * step) (range_n (range_count cur stop step)).
Proof.
  intros Hstep. revert cur.
  induction fuel as [| fuel IH]; intros cur Hfuel.
  - simpl. unfold range_count.
    destruct (Z.ltb_spec cur stop); [lia | reflexivity].
  - cbn [range_up]. destruct (Z.ltb_spec cur stop) as [Hlt | Hge].
    + rewrite IH by lia. rewrite (range_count_step cur) by assumption.
      pose proof (range_count_nonneg (cur + step) stop step Hstep) as Hc.
      rewrite !range_n_seq.
      replace (Z.to_nat (1 + range_count (cur + step) stop step))
        with (S (Z.to_nat (range_count (cur + step) stop step))) by lia.
      cbn [seq map]. f_equal; [lia |].
      rewrite <- seq_shift, !map_map. apply map_ext. intros i. lia.
    + unfold range_count. destruct (Z.ltb_spec cur stop); [lia | reflexivity].
Qed.

Lemma range_n_In (n k : Z) : In k (range_n n) <-> 0 <= k < n.
Proof.
  rewrite range_n_seq, in_map_iff. split.
  - intros (i & <- & Hi). apply in_seq in Hi. lia.
  - intros Hk. exists (Z.to_nat k). split; [lia |]. apply in_seq. lia.
Qed.

Lemma range_n_NoDup (n : Z) : NoDup (range_n n).
Proof.
  rewrite range_n_seq.
  induction (seq_NoDup (Z.to_nat n) 0) as [| x l Hx Hl IH]; simpl;
    constructor; [| exact IH].
  rewrite in_map_iff. intros (y & Hy & Hin).
  apply Nat2Z.inj in Hy. subst y. contradiction.
Qed.

(** ** CONFIG *)

Lemma window_samples_configured :
  window_samples_of WINDOW_SIZE SAMPLING_RATE = Ret 500.
Proof. vm_compute. reflexivity. Qed.

Lemma step_samples_configured : step_samples_of 500 WINDOW_OVERLAP = Ret 250.
Proof. vm_compute. reflexivity. Qed.

Lemma window_samples_value : window_samples = 500.
Proof. vm_compute. reflexivity. Qed.

Lemma step_samples_value : step_samples = 250.
Proof. vm_compute. reflexivity. Qed.

(** The number of binary digits of a mantissa brackets it between two powers
    of two. *)
Lemma digits2_bounds (m : positive) :
  2 ^ (Z.pos (digits2_pos m) - 1) <= Z.pos m < 2 ^ Z.pos (digits2_pos m).
Proof.
  induction m as [m IH | m IH |]; cbn [digits2_pos].
  - rewrite Pos2Z.inj_succ.
    replace (Z.succ (Z.pos (digits2_pos m)) - 1)
      with (Z.succ (Z.pos (digits2_pos m) - 1)) by lia.
    rewrite !Z.pow_succ_r by lia. lia.
  - rewrite Pos2Z.inj_succ.
    replace (Z.succ (Z.pos (digits2_pos m)) - 1)
      with (Z.succ (Z.pos (digits2_pos m) - 1)) by lia.
    rewrite !Z.pow_succ_r by lia. lia.
  - simpl. lia.
Qed.

(** The mantissa of a binary64 value has 53 digits, or fewer at the least
    exponent. *)
Lemma valid_binary_digits (s : bool) (m : positive) (e : Z) :
  valid_binary (S754_finite s m e) = true ->
  Z.max (Z.pos (digits2_pos m) + e - 53) (-1074) = e.
Proof.
  cbn [SpecFloat.valid_binary]. unfold bounded, canonical_mantissa, fexp.
  intros H. apply andb_prop in H as [H _]. apply Z.eqb_eq in H. exact H.
Qed.

(** [int] of a finite float that compares at least 1 is at least 1. *)
Lemma py_int_ge_1 (x : float) :
  PrimFloat.leb 1 x = true -> PrimFloat.ltb x infinity = true ->
  exists z, py_int x = Ret z /\ 1 <= z.
Proof.
  rewrite leb_spec, ltb_spec. unfold py_int.
  pose proof (Prim2SF_valid x) as Hvalid.
  change (Prim2SF 1) with (S754_finite false 4503599627370496 (-52)).
  change (Prim2SF infinity) with (S754_infinity false).
  destruct (Prim2SF x) as [s | s | | s m e]; try discriminate.
  - destruct s; discriminate.
  - destruct s; [discriminate |]. intros Hle _.
    unfold SFleb, SFcompare in Hle.
    exists (Z.shiftl (Z.pos m) e). split; [reflexivity |].
    pose proof (digits2_bounds m) as Hd.
    apply valid_binary_digits in Hvalid.
    revert Hle.
    destruct (Z.compare_spec (-52) e) as [Heq | Hlt | Hgt]; intros Hle.
    + assert (Hc : (4503599627370496 ?= m)%positive <> Gt).
      { unfold Pos.compare.
        destruct (Pos.compare_cont Eq 4503599627370496 m);
          [discriminate | discriminate | discriminate Hle]. }
      apply Pos.compare_le_iff in Hc.
      subst e. rewrite Z.shiftl_div_pow2 by lia.
      apply Z.div_le_lower_bound; [reflexivity | exact Hc].
    + destruct (Z.leb_spec 0 e) as [He | He].
      * rewrite Z.shiftl_mul_pow2 by lia.
        assert (0 < 2 ^ e) by (apply Z.pow_pos_nonneg; lia). nia.
      * assert (Hdig : Z.pos (digits2_pos m) = 53) by lia.
        rewrite Hdig in Hd.
        rewrite Z.shiftl_div_pow2 by lia.
        apply Z.div_le_lower_bound; [apply Z.pow_pos_nonneg; lia |].
        rewrite Z.mul_1_r.
        apply Z.le_trans with (2 ^ 52); [| apply Hd].
        apply Z.pow_le_mono_r; lia.
    + discriminate Hle.
Qed.

(** [int] of a float that compares below 1 and not below 0 is 0. *)
Lemma py_int_lt_1 (x : float) :
  PrimFloat.leb 0 x = true -> PrimFloat.ltb x 1 = true -> py_int x = Ret 0.
Proof.
  rewrite leb_spec, ltb_spec. unfold py_int.
  pose proof (Prim2SF_valid x) as Hvalid.
  change (Prim2SF 1) with (S754_finite false 4503599627370496 (-52)).
  change (Prim2SF 0) with (S754_zero false).
  destruct (Prim2SF x) as [s | s | | s m e]; try discriminate.
  - reflexivity.
  - destruct s; discriminate.
  - destruct s; [discriminate |]. intros _.
    unfold SFltb, SFcompare.
    pose proof (digits2_bounds m) as Hd.
    apply valid_binary_digits in Hvalid.
    cbv zeta.
    destruct (Z.compare_spec e (-52)) as [Heq | Hlt' | Hgt]; intros Hlt.
    + assert (Hc : (m ?= 4503599627370496)%positive = Lt).
      { unfold Pos.compare.
        destruct (Pos.compare_cont Eq m 4503599627370496);
          [discriminate Hlt | reflexivity | discriminate Hlt]. }
      subst e. f_equal. rewrite Z.shiftl_div_pow2 by lia.
      apply Z.div_small. split; [lia |].
      change (2 ^ (- (-52))) with 4503599627370496. exact Hc.
    + f_equal. rewrite Z.shiftl_div_pow2 by lia.
      apply Z.div_small. split; [lia |].
      apply Z.lt_le_trans with (2 ^ Z.pos (digits2_pos m)); [apply Hd |].
      apply Z.pow_le_mono_r; lia.
    + discriminate Hlt.
Qed.

Lemma window_starts_of_count (ws step n : Z) :
  0 < step ->
  exists starts,
    window_starts_of ws step n = Ret starts /\
    Z.of_nat (length starts) = (if ws <=? n then (n - ws) / step + 1 else 0) /\
    forall s, In s starts -> 0 <= s /\ s + ws <= n.
Proof.
  intros Hstep. unfold window_starts_of.
  destruct (py_range_positive 0 (n - ws + 1) step Hstep) as (l & Hl & Hlen & Hin).
  exists l; split; [exact Hl | split].
  - rewrite Hlen. unfold range_count.
    destruct (Z.ltb_spec 0 (n - ws + 1)), (Z.leb_spec ws n); try lia.
    f_equal. f_equal. ring.
  - intros s Hs. apply Hin in Hs. lia.
Qed.

Lemma window_starts_of_values (ws step n : Z) :
  0 < step ->
  window_starts_of ws step n =
  Ret (map (fun k => k * step)
           (range_n (if ws <=? n then (n - ws) / step + 1 else 0))).
Proof.
  intros Hstep. unfold window_starts_of, py_range.
  destruct (Z.eqb_spec step 0) as [-> | _]; [lia |].
  destruct (Z.ltb_spec 0 step) as [_ | Hle]; [| lia].
  rewrite range_up_values by lia. f_equal.
  replace (range_count 0 (n - ws + 1) step)
    with (if ws <=? n then (n - ws) / step + 1 else 0).
  - apply map_ext. intros k. lia.
  - unfold range_count.
    destruct (Z.ltb_spec 0 (n - ws + 1)), (Z.leb_spec ws n); try lia.
    f_equal. f_equal. ring.
Qed.

Lemma window_count_bounds (ws step n k : Z) :
  0 < step ->
  0 <= k < (if ws <=? n then (n - ws) / step + 1 else 0) ->
  0 <= k * step /\ k * step + ws <= n.
Proof.
  intros Hstep Hk. destruct (Z.leb_spec ws n) as [Hle | Hgt]; [| lia].
  pose proof (Z.mul_div_le (n - ws) step Hstep) as Hlow.
  split; nia.
Qed.

(** ** Slices and positions *)

Lemma py_slice_length {A : Type} (l : list A) (a b : Z) :
  0 <= a -> a <= b -> b <= Z.of_nat (length l) ->
  Z.of_nat (length (py_slice l a b)) = b - a.
Proof.
  intros Ha Hab Hb. unfold py_slice.
  rewrite length_firstn, length_skipn. lia.
Qed.

Lemma py_slice_nth_error {A : Type} (l : list A) (a b : Z) (i : nat) :
  0 <= a -> (Z.of_nat i < b - a) ->
  nth_error (py_slice l a b) i = nth_error l (Z.to_nat a + i).
Proof.
  intros Ha Hi. unfold py_slice.
  rewrite nth_error_firstn.
  destruct (Nat.ltb_spec i (Z.to_nat (b - a))) as [_ | Hge]; [| lia].
  apply nth_error_skipn.
Qed.

Lemma iloc_first_nth_error {A : Type} (l : list A) (x : A) :
  iloc_first l = Ret x <-> nth_error l 0 = Some x.
Proof.
  destruct l as [| y l]; simpl; split; intros H; try discriminate H;
    injection H as <-; reflexivity.
Qed.

Lemma iloc_last_nth_error {A : Type} (l : list A) (x : A) :
  iloc_last l = Ret x <-> nth_error l (length l - 1) = Some x /\ l <> [].
Proof.
  unfold iloc_last. destruct l as [| y l] using rev_ind.
  - simpl. split; [discriminate | intros [_ H]; contradiction].
  - rewrite rev_app_distr, length_app. simpl.
    replace (length l + 1 - 1)%nat with (length l) by lia.
    rewrite nth_error_app2, Nat.sub_diag by lia. simpl. split.
    + intros H; injection H as <-. split; [reflexivity |].
      intros Habs; apply app_eq_nil in Habs as [_ Habs]; discriminate Habs.
    + intros [H _]; injection H as <-; reflexivity.
Qed.

Lemma enumerate_from_In {A : Type} (l : list A) (k i : Z) (x : A) :
  In (i, x) (enumerate_from k l) <->
  k <= i /\ nth_error l (Z.to_nat (i - k)) = Some x.
Proof.
  revert k; induction l as [| y l IH]; intros k; simpl.
  - split; [intros [] | intros [_ H]].
    destruct (Z.to_nat (i - k)); discriminate H.
  - rewrite IH. split.
    + intros [H | [Hk Hn]].
      * injection H as <- <-. rewrite Z.sub_diag. split; [lia | reflexivity].
      * split; [lia |].
        replace (Z.to_nat (i - k)) with (S (Z.to_nat (i - (k + 1)))) by lia.
        exact Hn.
    + intros [Hk Hn]. destruct (Z.eq_dec i k) as [-> | Hne].
      * left. rewrite Z.sub_diag in Hn. simpl in Hn. injection Hn as <-.
        reflexivity.
      * right. split; [lia |].
        replace (Z.to_nat (i - k)) with (S (Z.to_nat (i - (k + 1)))) in Hn by lia.
        exact Hn.
Qed.

Lemma enumerate_from_functional {A : Type} (l : list A) (k i : Z) (x y : A) :
  In (i, x) (enumerate_from k l) -> In (i, y) (enumerate_from k l) -> x = y.
Proof.
  rewrite !enumerate_from_In. intros [_ Hx] [_ Hy].
  rewrite Hx in Hy. injection Hy as <-. reflexivity.
Qed.

Lemma enumerate_from_snd {A : Type} (l : list A) (k i : Z) (x : A) :
  In (i, x) (enumerate_from k l) -> In x l.
Proof.
  rewrite enumerate_from_In. intros [_ H]. eapply nth_error_In; exact H.
Qed.

Lemma enumerate_from_length {A : Type} (l : list A) (k : Z) :
  length (enumerate_from k l) = length l.
Proof.
  revert k; induction l as [| x l IH]; intros k; simpl;
    [reflexivity | rewrite IH; reflexivity].
Qed.

(** The index and the start of a window determine each other. *)
Lemma enumerate_starts_In (step count i s : Z) :
  In (i, s) (enumerate_from 0 (map (fun k => k * step) (range_n count))) ->
  0 <= i < count /\ s = i * step.
Proof.
  intros H. apply enumerate_from_In in H as [Hi Hnth].
  rewrite Z.sub_0_r, range_n_seq, map_map, nth_error_map in Hnth.
  destruct (nth_error (seq 0 (Z.to_nat count)) (Z.to_nat i)) as [j |] eqn:Hj;
    [| discriminate Hnth].
  simpl in Hnth. injection Hnth as <-.
  assert (Hlt : (Z.to_nat i < Z.to_nat count)%nat).
  { rewrite <- (length_seq (Z.to_nat count) 0).
    apply nth_error_Some. congruence. }
  rewrite nth_error_seq in Hj.
  destruct (Nat.ltb_spec (Z.to_nat i) (Z.to_nat count)); [| lia].
  injection Hj as <-. split; [lia |]. f_equal. lia.
Qed.

Lemma enumerate_starts_complete (step count i : Z) :
  0 <= i < count ->
  In (i, i * step)
     (enumerate_from 0 (map (fun k => k * step) (range_n count))).
Proof.
  intros Hi. apply enumerate_from_In. split; [lia |].
  rewrite Z.sub_0_r, range_n_seq, map_map, nth_error_map, nth_error_seq.
  destruct (Nat.ltb_spec (Z.to_nat i) (Z.to_nat count)); [| lia].
  simpl. do 2 f_equal. lia.
Qed.

(** ** The scaling-exponent computation never raises *)

Section ExtractorFacts.
Context {numlib : NumLib}.

Lemma compute_dfa_returns (data : list npfloat) :
  exists alpha, compute_dfa data = Ret alpha.
Proof.
  unfold compute_dfa, py_try.
  destruct (compute_dfa_body data) as [alpha | e]; eexists; reflexivity.
Qed.

Lemma extract_window_features_returns (window_data : list npfloat) (fs : Z) :
  window_data <> [] ->
  exists f, extract_window_features window_data fs = Ret f.
Proof.
  intros Hne. unfold extract_window_features.
  destruct (compute_dfa_returns window_data) as [alpha ->].
  destruct window_data as [| x window_data]; [contradiction |].
  cbn [np_min np_max bind]. eexists; reflexivity.
Qed.

End ExtractorFacts.

(** ** The silver loops *)

Lemma existsb_eqb_In (x : string) (l : list string) :
  existsb (String.eqb x) l = true <-> In x l.
Proof.
  rewrite existsb_exists. split.
  - intros (y & Hy & Heq). apply String.eqb_eq in Heq. subst y. exact Hy.
  - intros H. exists x. split; [exact H | apply String.eqb_refl].
Qed.

Lemma EEG_CHANNELS_NoDup : NoDup EEG_CHANNELS.
Proof.
  unfold EEG_CHANNELS.
  repeat (constructor; [simpl; intuition discriminate |]).
  constructor.
Qed.

Lemma filter_none {A : Type} (p : A -> bool) (l : list A) :
  (forall x, In x l -> p x = false) -> filter p l = [].
Proof.
  induction l as [| x l IH]; intros H; simpl; [reflexivity |].
  rewrite (H x (or_introl eq_refl)). apply IH.
  intros y Hy; apply H; right; exact Hy.
Qed.

Lemma filter_all {A : Type} (p : A -> bool) (l : list A) :
  (forall x, In x l -> p x = true) -> filter p l = l.
Proof.
  induction l as [| x l IH]; intros H; simpl; [reflexivity |].
  rewrite (H x (or_introl eq_refl)). f_equal. apply IH.
  intros y Hy; apply H; right; exact Hy.
Qed.

(** In a loop over distinct keys whose body only emits rows of its own key,
    the rows of one key are exactly what its iteration emitted. *)
Lemma for_extend_rows_of_key {B : Type} (key : B -> string)
    (body : string -> exc (list B)) (xs : list string) (out rs : list B)
    (x : string) :
  (forall y o b, body y = Ret o -> In b o -> key b = y) ->
  NoDup xs -> In x xs ->
  for_extend body xs = Ret out -> body x = Ret rs ->
  filter (fun b => String.eqb (key b) x) out = rs.
Proof.
  intros Hkey. revert out.
  induction xs as [| y xs IH]; intros out Hnd Hin Hout Hrs; [destruct Hin |].
  simpl in Hout.
  apply bind_Ret_inv in Hout as (o & Ho & Hout).
  apply bind_Ret_inv in Hout as (out' & Hout' & Hout).
  injection Hout as <-. rewrite filter_app.
  inversion Hnd as [| ? ? Hnotin Hnd']; subst.
  destruct (string_dec y x) as [-> | Hne].
  - rewrite Ho in Hrs. injection Hrs as <-.
    rewrite filter_all, filter_none; [apply app_nil_r | |].
    + intros b Hb. apply String.eqb_neq. intros Heq.
      apply (for_extend_In _ _ _ b Hout') in Hb as (z & oz & Hz & Hoz & Hb).
      rewrite (Hkey z oz b Hoz Hb) in Heq. subst z. contradiction.
    + intros b Hb. apply String.eqb_eq. eapply Hkey; eassumption.
  - destruct Hin as [Heq | Hin]; [contradiction |].
    rewrite filter_none; [apply IH; assumption |].
    intros b Hb. apply String.eqb_neq.
    rewrite (Hkey y o b Ho Hb). exact Hne.
Qed.

Lemma unique_from_In (seen l : list string) (x : string) :
  In x (unique_from seen l) -> In x l.
Proof.
  revert seen; induction l as [| y l IH]; intros seen; simpl; [intros [] |].
  destruct (existsb (String.eqb y) seen).
  - intros H; right; exact (IH _ H).
  - intros [-> | H]; [left; reflexivity | right; exact (IH _ H)].
Qed.

Lemma unique_from_spec (seen l : list string) (x : string) :
  In x (unique_from seen l) <-> In x l /\ ~ In x seen.
Proof.
  revert seen; induction l as [| y l IH]; intros seen; simpl.
  - tauto.
  - destruct (existsb (String.eqb y) seen) eqn:Hy.
    + apply existsb_eqb_In in Hy. rewrite IH. split.
      * intros [H1 H2]. tauto.
      * intros [[-> | H1] H2]; [contradiction | tauto].
    + assert (Hn : ~ In y seen).
      { intros H. apply existsb_eqb_In in H. congruence. }
      simpl. rewrite IH. simpl. split.
      * intros [-> | [H1 H2]]; [tauto |]. split; [tauto |].
        intros H; apply H2; right; exact H.
      * intros [[-> | H1] H2]; [tauto |].
        destruct (string_dec y x) as [-> | Hne]; [tauto |].
        right. split; [exact H1 |]. intros [H | H]; contradiction.
Qed.

Lemma unique_from_NoDup (seen l : list string) : NoDup (unique_from seen l).
Proof.
  revert seen; induction l as [| y l IH]; intros seen; simpl.
  - constructor.
  - destruct (existsb (String.eqb y) seen); [apply IH |].
    constructor; [| apply IH].
    rewrite unique_from_spec. intros [_ H]. apply H. left; reflexivity.
Qed.

Section SilverFacts.
Context {numlib : NumLib}.

Lemma channel_rows_cases (cols : list string) (subj : string) (k : Z)
    (w0 w1 : Q) (slice : list RawRow) (ch : string) :
  let channel_data := map (fun r => cell r ch) slice in
  ((existsb (String.eqb ch) cols = false \/
    Z.of_nat (length channel_data) < 10) /\
   channel_rows cols subj k w0 w1 slice ch = Ret [])
  \/
  (existsb (String.eqb ch) cols = true /\
   10 <= Z.of_nat (length channel_data) /\
   exists fs,
     extract_window_features channel_data SAMPLING_RATE = Ret fs /\
     channel_rows cols subj k w0 w1 slice ch =
       Ret [ {| channel := ch; features := fs; subject := subj;
                window_idx := k; window_start := w0; window_end := w1 |} ]).
Proof.
  intros channel_data. unfold channel_rows. fold channel_data.
  destruct (existsb (String.eqb ch) cols); simpl.
  - destruct (Z.ltb_spec (Z.of_nat (length channel_data)) 10) as [Hlt | Hge].
    + left; auto.
    + right. split; [reflexivity | split; [exact Hge |]].
      destruct (extract_window_features_returns channel_data SAMPLING_RATE)
        as [fs Hfs].
      { intros Hnil. rewrite Hnil in Hge. simpl in Hge. lia. }
      exists fs. rewrite Hfs. split; reflexivity.
  - left; auto.
Qed.

Lemma channel_rows_keys (cols : list string) (subj : string) (k : Z)
    (w0 w1 : Q) (slice : list RawRow) (ch : string) (out : list FeatureRow)
    (r : FeatureRow) :
  channel_rows cols subj k w0 w1 slice ch = Ret out -> In r out ->
  channel r = ch /\ subject r = subj /\ window_idx r = k /\
  window_start r = w0 /\ window_end r = w1.
Proof.
  intros Hout Hr.
  destruct (channel_rows_cases cols subj k w0 w1 slice ch)
    as [[_ Hnil] | (_ & _ & fs & _ & Hone)].
  - rewrite Hnil in Hout. injection Hout as <-. destruct Hr.
  - rewrite Hone in Hout. injection Hout as <-.
    destruct Hr as [<- | []]. simpl. auto.
Qed.

Lemma channel_loop_returns (cols : list string) (subj : string) (k : Z)
    (w0 w1 : Q) (slice : list RawRow) (chs : list string) :
  exists out, for_extend (channel_rows cols subj k w0 w1 slice) chs = Ret out.
Proof.
  apply for_extend_total. intros ch _.
  destruct (channel_rows_cases cols subj k w0 w1 slice ch)
    as [[_ H] | (_ & _ & fs & _ & H)]; rewrite H; eexists; reflexivity.
Qed.

(** A window that lies inside the recording yields its rows, each carrying
    the time of the first and of the last sample of the window. *)
Lemma window_rows_spec (ws : Z) (cols : list string) (subj : string)
    (subject_data : list RawRow) (k start_idx : Z) :
  1 <= ws -> 0 <= start_idx ->
  start_idx + ws <= Z.of_nat (length subject_data) ->
  exists out,
    window_rows ws cols subj subject_data k start_idx = Ret out /\
    forall r, In r out ->
      subject r = subj /\ window_idx r = k /\
      nth_error (map raw_time_sec subject_data) (Z.to_nat start_idx)
        = Some (window_start r) /\
      nth_error (map raw_time_sec subject_data) (Z.to_nat (start_idx + ws - 1))
        = Some (window_end r).
Proof.
  intros Hws Hstart Hend. unfold window_rows.
  set (slice := py_slice subject_data start_idx (start_idx + ws)).
  assert (Hlen : Z.of_nat (length slice) = ws).
  { unfold slice. rewrite py_slice_length by lia. ring. }
  assert (Hnth : forall i, (Z.of_nat i < ws) ->
            nth_error (map raw_time_sec slice) i =
            nth_error (map raw_time_sec subject_data) (Z.to_nat start_idx + i)).
  { intros i Hi. rewrite !nth_error_map. unfold slice.
    rewrite py_slice_nth_error by lia. reflexivity. }
  destruct (nth_error (map raw_time_sec slice) 0) as [w0 |] eqn:H0.
  2:{ apply nth_error_None in H0. rewrite length_map in H0. lia. }
  destruct (nth_error (map raw_time_sec slice) (length slice - 1))
    as [w1 |] eqn:H1.
  2:{ apply nth_error_None in H1. rewrite length_map in H1. lia. }
  assert (Hfirst : iloc_first (map raw_time_sec slice) = Ret w0)
    by (apply iloc_first_nth_error; exact H0).
  assert (Hlast : iloc_last (map raw_time_sec slice) = Ret w1).
  { apply iloc_last_nth_error. rewrite length_map. split; [exact H1 |].
    intros Habs. rewrite Habs in H0. discriminate H0. }
  rewrite Hfirst, Hlast. simpl.
  destruct (channel_loop_returns cols subj k w0 w1 slice EEG_CHANNELS)
    as [out Hout].
  exists out; split; [exact Hout |].
  intros r Hr.
  apply (for_extend_In _ _ _ r Hout) in Hr as (ch & rs & _ & Hrs & Hr).
  destruct (channel_rows_keys _ _ _ _ _ _ _ _ _ Hrs Hr)
    as (_ & -> & -> & -> & ->).
  split; [reflexivity | split; [reflexivity | split]].
  - rewrite <- H0, Hnth by lia. f_equal. lia.
  - rewrite <- H1, Hnth by lia. f_equal. lia.
Qed.

Lemma subject_rows_spec (ws step : Z) (raw_df : DataFrame) (subj : string) :
  1 <= ws -> 0 < step ->
  let subject_data := subject_data_of raw_df subj in
  exists starts out,
    window_starts_of ws step (Z.of_nat (length subject_data)) = Ret starts /\
    subject_rows ws step raw_df subj = Ret out /\
    forall r, In r out ->
      subject r = subj /\
      exists start_idx,
        In (window_idx r, start_idx) (enumerate_from 0 starts) /\
        0 <= start_idx /\
        nth_error (map raw_time_sec subject_data) (Z.to_nat start_idx)
          = Some (window_start r) /\
        nth_error (map raw_time_sec subject_data)
                  (Z.to_nat (start_idx + ws - 1))
          = Some (window_end r).
Proof.
  intros Hws Hstep subject_data. unfold subject_rows. fold subject_data.
  destruct (window_starts_of_count ws step
              (Z.of_nat (length subject_data)) Hstep)
    as (starts & Hstarts & _ & Hin).
  rewrite Hstarts. simpl.
  set (body := fun ks : Z * Z =>
         window_rows ws (columns raw_df) subj subject_data (fst ks) (snd ks)).
  assert (Hbody : forall ks, In ks (enumerate_from 0 starts) ->
            exists out, body ks = Ret out /\
              forall r, In r out ->
                subject r = subj /\ window_idx r = fst ks /\
                nth_error (map raw_time_sec subject_data) (Z.to_nat (snd ks))
                  = Some (window_start r) /\
                nth_error (map raw_time_sec subject_data)
                          (Z.to_nat (snd ks + ws - 1))
                  = Some (window_end r)).
  { intros [k s] Hks. apply enumerate_from_snd in Hks.
    destruct (Hin s Hks) as [H0 H1].
    apply window_rows_spec; assumption. }
  destruct (for_extend_total body (enumerate_from 0 starts)) as [out Hout].
  { intros ks Hks. destruct (Hbody ks Hks) as (o & Ho & _). exists o; exact Ho. }
  exists starts, out. split; [reflexivity | split; [exact Hout |]].
  intros r Hr.
  apply (for_extend_In _ _ _ r Hout) in Hr as ([k s] & rs & Hks & Hrs & Hr).
  destruct (Hbody (k, s) Hks) as (o & Ho & Hspec).
  rewrite Ho in Hrs. injection Hrs as <-.
  destruct (Hspec r Hr) as (Hsub & Hidx & Hw0 & Hw1). simpl in *.
  split; [exact Hsub |]. exists s. subst k.
  split; [exact Hks | split; [| split; assumption]].
  apply enumerate_from_snd in Hks. apply Hin in Hks. lia.
Qed.

(** The channels of the table among [EEG_CHANNELS]. *)
Lemma channel_loop_length (cols : list string) (subj : string) (k : Z)
    (w0 w1 : Q) (slice : list RawRow) (chs : list string)
    (out : list FeatureRow) :
  10 <= Z.of_nat (length slice) ->
  for_extend (channel_rows cols subj k w0 w1 slice) chs = Ret out ->
  length out = length (filter (fun c => existsb (String.eqb c) cols) chs).
Proof.
  intros Hlen. revert out.
  induction chs as [| ch chs IH]; simpl; intros out Hout.
  - injection Hout as <-. reflexivity.
  - apply bind_Ret_inv in Hout as (r & Hr & Hout).
    apply bind_Ret_inv in Hout as (rs & Hrs & Hout).
    injection Hout as <-. rewrite length_app, (IH rs Hrs).
    destruct (channel_rows_cases cols subj k w0 w1 slice ch)
      as [[Hskip Hnil] | (Hin & _ & fs & _ & Hone)].
    + rewrite Hnil in Hr. injection Hr as <-.
      destruct Hskip as [Hout | Hshort].
      * rewrite Hout. reflexivity.
      * rewrite length_map in Hshort. lia.
    + rewrite Hone in Hr. injection Hr as <-. rewrite Hin. reflexivity.
Qed.

Lemma channel_loop_channels (cols : list string) (subj : string) (k : Z)
    (w0 w1 : Q) (slice : list RawRow) (chs : list string)
    (out : list FeatureRow) (r : FeatureRow) :
  for_extend (channel_rows cols subj k w0 w1 slice) chs = Ret out ->
  In r out ->
  In (channel r) chs /\ In (channel r) cols /\ subject r = subj /\
  window_idx r = k /\ 10 <= Z.of_nat (length slice).
Proof.
  intros Hout Hr.
  apply (for_extend_In _ _ _ r Hout) in Hr as (ch & rs & Hch & Hrs & Hr).
  destruct (channel_rows_keys _ _ _ _ _ _ _ _ _ Hrs Hr)
    as (Hc & Hs & Hk & _ & _).
  destruct (channel_rows_cases cols subj k w0 w1 slice ch)
    as [[_ Hnil] | (Hin & Hge & _)].
  - rewrite Hnil in Hrs. injection Hrs as <-. destruct Hr.
  - rewrite length_map in Hge.
    apply existsb_eqb_In in Hin. rewrite Hc. auto.
Qed.

(** What one window contributes: one row per channel of the table. *)
Lemma window_rows_shape (ws : Z) (cols : list string) (subj : string)
    (subject_data : list RawRow) (k start_idx : Z) (out : list FeatureRow) :
  0 <= start_idx ->
  start_idx + ws <= Z.of_nat (length subject_data) ->
  window_rows ws cols subj subject_data k start_idx = Ret out ->
  (10 <= ws ->
   length out = length (filter (fun c => existsb (String.eqb c) cols)
                               EEG_CHANNELS)) /\
  (forall r, In r out ->
     In (channel r) EEG_CHANNELS /\ In (channel r) cols /\
     subject r = subj /\ window_idx r = k /\ 10 <= ws).
Proof.
  intros Hstart Hend Hout. unfold window_rows in Hout.
  apply bind_Ret_inv in Hout as (w0 & Hw0 & Hout).
  apply bind_Ret_inv in Hout as (w1 & Hw1 & Hout).
  assert (Hlen : 0 <= ws ->
            Z.of_nat (length (py_slice subject_data start_idx
                                        (start_idx + ws))) = ws).
  { intros H. rewrite py_slice_length by lia. ring. }
  split.
  - intros Hws.
    assert (H10 : 10 <= Z.of_nat (length (py_slice subject_data start_idx
                                                   (start_idx + ws))))
      by (rewrite Hlen; lia).
    exact (channel_loop_length _ _ _ _ _ _ _ _ H10 Hout).
  - intros r Hr.
    destruct (channel_loop_channels _ _ _ _ _ _ _ _ _ Hout Hr)
      as (H1 & H2 & H3 & H4 & H5).
    repeat (split; [assumption |]).
    destruct (Z.le_gt_cases 0 ws) as [Hnn | Hneg]; [rewrite <- Hlen; lia |].
    unfold py_slice in H5.
    replace (Z.to_nat (start_idx + ws - start_idx)) with O in H5 by lia.
    simpl in H5. lia.
Qed.

(** The rows of one subject: [count] windows of one row per channel of the
    table, the [k]-th window starting at sample [k * step]. *)
Lemma subject_rows_shape (ws step : Z) (raw_df : DataFrame) (subj : string)
    (out : list FeatureRow) :
  0 < step ->
  subject_rows ws step raw_df subj = Ret out ->
  let subject_data := subject_data_of raw_df subj in
  let N := Z.of_nat (length subject_data) in
  let count := if ws <=? N then (N - ws) / step + 1 else 0 in
  (10 <= ws ->
   Z.of_nat (length out) =
   count * Z.of_nat (length (filter (fun c => existsb (String.eqb c)
                                                      (columns raw_df))
                                    EEG_CHANNELS))) /\
  (forall r, In r out ->
     In (channel r) EEG_CHANNELS /\ In (channel r) (columns raw_df) /\
     subject r = subj /\ 0 <= window_idx r < count /\ 10 <= ws) /\
  (10 <= ws ->
   (exists c, In c EEG_CHANNELS /\ In c (columns raw_df)) ->
   forall k, 0 <= k < count -> exists r, In r out /\ window_idx r = k).
Proof.
  intros Hstep Hout subject_data N count.
  unfold subject_rows in Hout. fold subject_data N in Hout.
  rewrite (window_starts_of_values ws step N Hstep) in Hout.
  fold count in Hout. cbn [bind] in Hout.
  set (starts := map (fun k => k * step) (range_n count)) in Hout.
  assert (Hcount : 0 <= count).
  { unfold count. destruct (Z.leb_spec ws N); [| lia].
    assert (0 <= (N - ws) / step) by (apply Z.div_pos; lia). lia. }
  assert (Hks : forall ks, In ks (enumerate_from 0 starts) ->
            0 <= fst ks < count /\ 0 <= snd ks /\ snd ks + ws <= N).
  { intros [i s] Hin. apply enumerate_starts_In in Hin as [Hi ->].
    cbn [fst snd]. split; [exact Hi |].
    apply (window_count_bounds ws step N i Hstep Hi). }
  split; [| split].
  - intros Hws.
    assert (Hbody : forall ks r, In ks (enumerate_from 0 starts) ->
              window_rows ws (columns raw_df) subj subject_data
                          (fst ks) (snd ks) = Ret r ->
              length r =
              length (filter (fun c => existsb (String.eqb c)
                                                (columns raw_df))
                             EEG_CHANNELS)).
    { intros ks r Hin Hr. destruct (Hks ks Hin) as (_ & H0 & H1).
      apply (window_rows_shape _ _ _ _ _ _ _ H0 H1 Hr). exact Hws. }
    rewrite (for_extend_length _ _ _ _ Hbody Hout).
    rewrite enumerate_from_length. unfold starts.
    rewrite length_map, range_n_seq, length_map, length_seq. lia.
  - intros r Hr.
    apply (for_extend_In _ _ _ r Hout) in Hr as (ks & o & Hin & Ho & Hr).
    destruct (Hks ks Hin) as (Hi & H0 & H1).
    destruct (proj2 (window_rows_shape _ _ _ _ _ _ _ H0 H1 Ho) r Hr)
      as (Hc1 & Hc2 & Hs & Hk & Hws).
    rewrite Hk. auto.
  - intros Hws (c & Hc1 & Hc2) k Hk.
    pose proof (enumerate_starts_complete step count k Hk) as Hin.
    fold starts in Hin.
    destruct (Hks _ Hin) as (_ & H0 & H1). cbn [fst snd] in H0, H1.
    destruct (window_rows_spec ws (columns raw_df) subj subject_data k
                (k * step) ltac:(lia) H0 H1) as (o & Ho & Hspec).
    assert (Hlen : length o <> 0%nat).
    { rewrite (proj1 (window_rows_shape _ _ _ _ _ _ _ H0 H1 Ho) Hws).
      intros Hnil. apply length_zero_iff_nil in Hnil.
      assert (Hin' : In c (filter (fun c => existsb (String.eqb c)
                                                    (columns raw_df))
                                  EEG_CHANNELS)).
      { apply filter_In. split; [exact Hc1 |].
        apply existsb_eqb_In; exact Hc2. }
      rewrite Hnil in Hin'. destruct Hin'. }
    destruct o as [| r o]; [contradiction |].
    exists r. split.
    + apply (for_extend_In _ _ _ r Hout).
      exists (k, k * step), (r :: o). split; [exact Hin |].
      split; [exact Ho | left; reflexivity].
    + apply (Hspec r). left; reflexivity.
Qed.

(** A window inside the recording yields a row for each channel of the
    table. *)
Lemma window_rows_complete (ws : Z) (cols : list string) (subj : string)
    (subject_data : list RawRow) (k start_idx : Z) (out : list FeatureRow)
    (c : string) :
  10 <= ws -> 0 <= start_idx ->
  start_idx + ws <= Z.of_nat (length subject_data) ->
  window_rows ws cols subj subject_data k start_idx = Ret out ->
  In c EEG_CHANNELS -> In c cols ->
  exists r, In r out /\ channel r = c /\ window_idx r = k.
Proof.
  intros Hws Hstart Hend Hout Hc1 Hc2. unfold window_rows in Hout.
  apply bind_Ret_inv in Hout as (w0 & Hw0 & Hout).
  apply bind_Ret_inv in Hout as (w1 & Hw1 & Hout).
  set (slice := py_slice subject_data start_idx (start_idx + ws)) in *.
  assert (Hlen : Z.of_nat (length slice) = ws).
  { unfold slice. rewrite py_slice_length by lia. ring. }
  destruct (channel_rows_cases cols subj k w0 w1 slice c)
    as [[Hskip Hnil] | (_ & _ & fs & _ & Hone)].
  - exfalso. destruct Hskip as [Habs | Hshort].
    + apply existsb_eqb_In in Hc2. congruence.
    + rewrite length_map in Hshort. lia.
  - exists {| channel := c; features := fs; subject := subj;
              window_idx := k; window_start := w0; window_end := w1 |}.
    split; [| split; reflexivity].
    apply (for_extend_In _ _ _ _ Hout).
    exists c. eexists. split; [exact Hc1 |]. split; [exact Hone |].
    left; reflexivity.
Qed.

(** Every window of a subject and every channel of the table has a row. *)
Lemma subject_rows_complete (ws step : Z) (raw_df : DataFrame) (subj : string)
    (out : list FeatureRow) (k : Z) (c : string) :
  10 <= ws -> 0 < step ->
  subject_rows ws step raw_df subj = Ret out ->
  let N := Z.of_nat (length (subject_data_of raw_df subj)) in
  0 <= k < (if ws <=? N then (N - ws) / step + 1 else 0) ->
  In c EEG_CHANNELS -> In c (columns raw_df) ->
  exists r, In r out /\ channel r = c /\ window_idx r = k.
Proof.
  intros Hws Hstep Hout N Hk Hc1 Hc2.
  unfold subject_rows in Hout. fold N in Hout.
  rewrite (window_starts_of_values ws step N Hstep) in Hout.
  cbn [bind] in Hout.
  pose proof (enumerate_starts_complete step _ k Hk) as Hin.
  destruct (window_count_bounds ws step N k Hstep Hk) as [H0 H1].
  destruct (window_rows_spec ws (columns raw_df) subj
              (subject_data_of raw_df subj) k (k * step) ltac:(lia) H0 H1)
    as (o & Ho & _).
  destruct (window_rows_complete _ _ _ _ _ _ _ c Hws H0 H1 Ho Hc1 Hc2)
    as (r & Hr & Hch & Hidx).
  exists r. split; [| split; assumption].
  apply (for_extend_In _ _ _ r Hout).
  exists (k, k * step), o. split; [exact Hin |]. split; [exact Ho | exact Hr].
Qed.

Lemma subject_rows_returns (raw_df : DataFrame) (subj : string) :
  exists out, subject_rows window_samples step_samples raw_df subj = Ret out.
Proof.
  destruct (subject_rows_spec window_samples step_samples raw_df subj)
    as (starts & out & _ & Hout & _);
    [rewrite window_samples_value; lia | rewrite step_samples_value; lia |].
  exists out; exact Hout.
Qed.

(** The loop over the subjects never raises. *)
Lemma all_features_of_returns (raw_df : DataFrame) :
  exists all_features,
    all_features_of window_samples step_samples raw_df = Ret all_features.
Proof.
  apply for_extend_total. intros subj _. apply subject_rows_returns.
Qed.

(** [create_silver_features] with the configuration evaluated. *)
Lemma create_silver_features_eq (raw_df : DataFrame) :
  create_silver_features raw_df =
  bind (all_features_of window_samples step_samples raw_df) register_features.
Proof.
  unfold create_silver_features.
  rewrite window_samples_configured. cbn [bind].
  rewrite step_samples_configured. cbn [bind].
  rewrite window_samples_value, step_samples_value. reflexivity.
Qed.

(** The table [create_silver_features] returns is what the loop over the
    subjects collected, and it is not empty. *)
Lemma create_silver_features_Ret (raw_df : DataFrame)
    (silver : list FeatureRow) :
  create_silver_features raw_df = Ret silver <->
  all_features_of window_samples step_samples raw_df = Ret silver /\
  silver <> [].
Proof.
  rewrite create_silver_features_eq. split.
  - intros H. apply bind_Ret_inv in H as (all_features & Hall & H).
    destruct all_features as [| r l]; [discriminate H |].
    injection H as <-. split; [exact Hall | discriminate].
  - intros [Hall Hne]. rewrite Hall. cbn [bind].
    destruct silver as [| r l]; [contradiction | reflexivity].
Qed.

(** It raises when the loop collected no row, and only then. *)
Lemma create_silver_features_Raise (raw_df : DataFrame) (e : exn) :
  create_silver_features raw_df = Raise e <->
  all_features_of window_samples step_samples raw_df = Ret [] /\
  e = DuckDBError.
Proof.
  rewrite create_silver_features_eq.
  destruct (all_features_of_returns raw_df) as [all_features Hall].
  rewrite Hall. cbn [bind]. destruct all_features as [| r l]; cbn.
  - split.
    + intros H; injection H as <-. split; reflexivity.
    + intros [_ ->]. reflexivity.
  - split; [discriminate | intros [H _]; discriminate H].
Qed.

(** The rows of a subject collected by the loop over the subjects are what
    its iteration emitted; a subject outside the table has none. *)
Lemma all_features_of_subject (raw_df : DataFrame) (silver : list FeatureRow)
    (subj : string) :
  all_features_of window_samples step_samples raw_df = Ret silver ->
  exists out,
    subject_rows window_samples step_samples raw_df subj = Ret out /\
    filter (fun r => String.eqb (subject r) subj) silver = out.
Proof.
  intros Hsilver. unfold all_features_of in Hsilver.
  destruct (subject_rows_returns raw_df subj) as [out Hout].
  exists out. split; [exact Hout |].
  assert (Hstep : 0 < step_samples) by (rewrite step_samples_value; lia).
  assert (Hkey : forall y o b,
            subject_rows window_samples step_samples raw_df y = Ret o ->
            In b o -> subject b = y).
  { intros y o b Ho Hb.
    apply (proj1 (proj2 (subject_rows_shape _ _ _ _ _ Hstep Ho)) b Hb). }
  destruct (in_dec string_dec subj (unique (map raw_subject (rows raw_df))))
    as [Hin | Hnotin].
  - exact (for_extend_rows_of_key subject _ _ _ _ subj Hkey
             (unique_from_NoDup [] _) Hin Hsilver Hout).
  - assert (Hempty : subject_data_of raw_df subj = []).
    { unfold subject_data_of. apply filter_none. intros r Hr.
      apply String.eqb_neq. intros Heq. apply Hnotin.
      apply unique_from_spec. split; [| intros []].
      rewrite <- Heq. apply in_map; exact Hr. }
    assert (Hnil : out = []).
    { destruct out as [| b out]; [reflexivity |].
      destruct (proj1 (proj2 (subject_rows_shape _ _ _ _ _ Hstep Hout))
                  b (or_introl eq_refl)) as (_ & _ & _ & Hidx & _).
      rewrite Hempty in Hidx. change (Z.of_nat (length [])) with 0 in Hidx.
      rewrite window_samples_value in Hidx.
      change (500 <=? 0) with false in Hidx. lia. }
    subst out. apply filter_none. intros b Hb.
    apply String.eqb_neq. intros Heq. apply Hnotin.
    apply (for_extend_In _ _ _ b Hsilver) in Hb as (y & o & Hy & Ho & Hb).
    rewrite <- Heq, (Hkey y o b Ho Hb). exact Hy.
Qed.

Lemma silver_rows_of_subject (raw_df : DataFrame) (silver : list FeatureRow)
    (subj : string) :
  create_silver_features raw_df = Ret silver ->
  exists out,
    subject_rows window_samples step_samples raw_df subj = Ret out /\
    filter (fun r => String.eqb (subject r) subj) silver = out.
Proof.
  intros Hsilver. apply create_silver_features_Ret in Hsilver as [Hsilver _].
  apply all_features_of_subject; exact Hsilver.
Qed.

(** Where a row collected by the loop over the subjects comes from. *)
Lemma all_features_of_keys (raw_df : DataFrame) (silver : list FeatureRow)
    (r : FeatureRow) :
  all_features_of window_samples step_samples raw_df = Ret silver ->
  In r silver ->
  In (subject r) (map raw_subject (rows raw_df)) /\
  In (channel r) EEG_CHANNELS /\
  In (channel r) (columns raw_df) /\
  0 <= window_idx r /\
  window_idx r * step_samples + window_samples
    <= Z.of_nat (length (subject_data_of raw_df (subject r))).
Proof.
  intros Hsilver Hr. unfold all_features_of in Hsilver.
  assert (Hstep : 0 < step_samples) by (rewrite step_samples_value; lia).
  apply (for_extend_In _ _ _ r Hsilver) in Hr as (subj & out & Hsubj & Hout & Hr).
  destruct (proj1 (proj2 (subject_rows_shape _ _ _ _ _ Hstep Hout)) r Hr)
    as (Hc1 & Hc2 & Hs & Hidx & _).
  subst subj.
  split; [apply (unique_from_In [] _ _ Hsubj) |].
  split; [exact Hc1 |]. split; [exact Hc2 |]. split; [lia |].
  apply (window_count_bounds _ _ _ _ Hstep Hidx).
Qed.

(** A subject with a full window and a channel column make the loop over the
    subjects collect a row, so that the silver layer returns. *)
Lemma create_silver_features_some_window (raw_df : DataFrame) (subj c : string) :
  window_samples <= Z.of_nat (length (subject_data_of raw_df subj)) ->
  In c EEG_CHANNELS -> In c (columns raw_df) ->
  exists silver, create_silver_features raw_df = Ret silver.
Proof.
  intros HN Hc1 Hc2.
  assert (Hws : 10 <= window_samples) by (rewrite window_samples_value; lia).
  assert (Hstep : 0 < step_samples) by (rewrite step_samples_value; lia).
  destruct (all_features_of_returns raw_df) as [silver Hsilver].
  exists silver. apply create_silver_features_Ret. split; [exact Hsilver |].
  destruct (subject_rows_returns raw_df subj) as [out Hout].
  assert (Hk : 0 <= 0 <
            (if window_samples <=? Z.of_nat (length (subject_data_of raw_df subj))
             then (Z.of_nat (length (subject_data_of raw_df subj))
                   - window_samples) / step_samples + 1
             else 0)).
  { destruct (Z.leb_spec window_samples
                (Z.of_nat (length (subject_data_of raw_df subj)))); [| lia].
    assert (0 <= (Z.of_nat (length (subject_data_of raw_df subj))
                  - window_samples) / step_samples)
      by (apply Z.div_pos; lia).
    lia. }
  destruct (subject_rows_complete _ _ _ _ _ 0 c Hws Hstep Hout Hk Hc1 Hc2)
    as (r & Hr & _).
  assert (Hin : In r silver).
  { apply (for_extend_In _ _ _ r Hsilver). exists subj, out.
    split; [| split; [exact Hout | exact Hr]].
    apply unique_from_spec. split; [| intros []].
    destruct (subject_data_of raw_df subj) as [| x l] eqn:Hdata.
    - rewrite window_samples_value in HN. simpl in HN. lia.
    - assert (Hx : In x (subject_data_of raw_df subj))
        by (rewrite Hdata; left; reflexivity).
      apply filter_In in Hx as [Hx Heq]. apply String.eqb_eq in Heq.
      rewrite <- Heq. apply in_map; exact Hx. }
  intros Hnil. rewrite Hnil in Hin. destruct Hin.
Qed.

End SilverFacts.

(* ===================================================================== *)
(** ** Window counts (C1) and the step (C2) *)
(* ===================================================================== *)

(** C1, as the code has it.  With the configured 250 Hz, 2.0 s and 0.5
    overlap the window has 500 samples and the step 250.  The loop over a
    subject's [N] rows runs without raising and processes [floor((N -
    window_samples) / step_samples) + 1] windows when [N >=
    window_samples]: the window indices of its rows are below that count,
    and every window below it has its row for every channel of the table,
    so that the subject has as many rows as windows times channels.  When
    [N < window_samples] there is no window and no row.  After the loops
    the function raises, at the registration of the feature table, exactly
    when no subject has a full window on any channel; a table it returns
    holds the rows of the loop for each subject. *)
Theorem window_count_per_subject {numlib : NumLib}
    (raw_df : DataFrame) (subj : string) :
  let N := Z.of_nat (length (subject_data_of raw_df subj)) in
  let count := if window_samples <=? N
               then (N - window_samples) / step_samples + 1 else 0 in
  let channels := filter (fun c => existsb (String.eqb c) (columns raw_df))
                         EEG_CHANNELS in
  window_samples_of WINDOW_SIZE SAMPLING_RATE = Ret 500 /\
  step_samples_of 500 WINDOW_OVERLAP = Ret 250 /\
  window_samples = 500 /\ step_samples = 250 /\
  (exists starts out,
     window_starts N = Ret starts /\
     Z.of_nat (length starts) = count /\
     subject_rows window_samples step_samples raw_df subj = Ret out /\
     Z.of_nat (length out) = count * Z.of_nat (length channels) /\
     (forall r, In r out -> 0 <= window_idx r < count) /\
     (forall k c, 0 <= k < count -> In c channels ->
        exists r, In r out /\ window_idx r = k /\ channel r = c) /\
     (window_samples <= N ->
      count = (N - window_samples) / step_samples + 1) /\
     (N < window_samples -> count = 0 /\ starts = [] /\ out = []) /\
     (forall silver, create_silver_features raw_df = Ret silver ->
        filter (fun r => String.eqb (subject r) subj) silver = out)) /\
  (create_silver_features raw_df = Raise DuckDBError <->
   forall s c, In c channels ->
     Z.of_nat (length (subject_data_of raw_df s)) < window_samples).
Proof.
  intros N count channels.
  split; [exact window_samples_configured |].
  split; [exact step_samples_configured |].
  split; [exact window_samples_value |].
  split; [exact step_samples_value |].
  assert (Hws : 10 <= window_samples) by (rewrite window_samples_value; lia).
  assert (Hstep : 0 < step_samples) by (rewrite step_samples_value; lia).
  split.
  - destruct (subject_rows_spec window_samples step_samples raw_df subj)
      as (starts & out & Hstarts & Hout & _); [lia | exact Hstep |].
    fold N in Hstarts.
    destruct (window_starts_of_count window_samples step_samples N Hstep)
      as (starts' & Hstarts' & Hlen & _).
    rewrite Hstarts in Hstarts'. injection Hstarts' as <-.
    fold count in Hlen.
    destruct (subject_rows_shape _ _ _ _ _ Hstep Hout) as (Hrows & Hkeys & _).
    fold N count channels in Hrows, Hkeys.
    exists starts, out.
    split; [exact Hstarts |]. split; [exact Hlen |]. split; [exact Hout |].
    split; [exact (Hrows Hws) |].
    split; [intros r Hr; apply (Hkeys r Hr) |].
    split; [| split; [| split]].
    + intros k c Hk Hc. apply filter_In in Hc as [Hc1 Hc2].
      apply existsb_eqb_In in Hc2.
      destruct (subject_rows_complete _ _ _ _ _ k c Hws Hstep Hout Hk Hc1 Hc2)
        as (r & Hr & Hch & Hidx).
      exists r. auto.
    + intros Hge. unfold count.
      destruct (Z.leb_spec window_samples N); [reflexivity | lia].
    + intros Hlt.
      assert (Hcount : count = 0).
      { unfold count.
        destruct (Z.leb_spec window_samples N); [lia | reflexivity]. }
      split; [exact Hcount |]. split.
      * destruct starts; [reflexivity | simpl in Hlen; lia].
      * destruct out as [| r out]; [reflexivity |].
        specialize (Hkeys r (or_introl eq_refl)). lia.
    + intros silver Hsilver.
      destruct (silver_rows_of_subject raw_df silver subj Hsilver)
        as (out' & Hout' & Hfilter).
      rewrite Hout in Hout'. injection Hout' as <-. exact Hfilter.
  - split.
    + intros Hraise s c Hc.
      apply filter_In in Hc as [Hc1 Hc2]. apply existsb_eqb_In in Hc2.
      destruct (Z.lt_ge_cases (Z.of_nat (length (subject_data_of raw_df s)))
                  window_samples) as [Hlt | Hge]; [exact Hlt |].
      destruct (create_silver_features_some_window raw_df s c Hge Hc1 Hc2)
        as [silver Habs].
      rewrite Hraise in Habs. discriminate Habs.
    + intros Hshort. apply create_silver_features_Raise.
      split; [| reflexivity].
      destruct (all_features_of_returns raw_df) as [all_features Hall].
      rewrite Hall. f_equal.
      destruct all_features as [| r l]; [reflexivity |].
      destruct (all_features_of_keys raw_df (r :: l) r Hall (or_introl eq_refl))
        as (_ & Hc1 & Hc2 & Hidx & Hfit).
      assert (Hc : In (channel r) channels).
      { apply filter_In. split; [exact Hc1 |].
        apply existsb_eqb_In; exact Hc2. }
      specialize (Hshort (subject r) (channel r) Hc). nia.
Qed.

(** C1 fails as stated when no recording reaches a window: after a single
    recording of 100 samples the loop has produced no window and no row,
    and the function raises at the registration of the empty feature
    table. *)
Lemma short_recording_raises :
  exists raw_df,
    load_raw_eeg_data short_files = Ret raw_df /\
    Z.of_nat (length (subject_data_of raw_df "s00")) = 100 /\
    100 < window_samples /\
    subject_rows (numlib := toy_numlib) window_samples step_samples raw_df "s00"
      = Ret [] /\
    create_silver_features (numlib := toy_numlib) raw_df = Raise DuckDBError.
Proof.
  eexists. split; [vm_compute; reflexivity |].
  split; [vm_compute; reflexivity |].
  split; [vm_compute; reflexivity |].
  split; vm_compute; reflexivity.
Qed.

(** The two recordings of the specification's scenarios: 1250 samples give
    4 windows, 100 samples give none. *)
Lemma window_starts_1250 : window_starts 1250 = Ret [0; 250; 500; 750].
Proof.
  unfold window_starts. rewrite window_samples_value, step_samples_value.
  reflexivity.
Qed.

Lemma window_starts_100 : window_starts 100 = Ret [].
Proof.
  unfold window_starts. rewrite window_samples_value, step_samples_value.
  reflexivity.
Qed.

(** C2, as the code has it.  [step_samples] is [int(window_samples * (1 -
    overlap))], the product being taken in float64, with no clamp.  When
    that float64 product is finite and at least 1 the step is at least 1,
    and the enumeration of the windows of a recording of any length then
    returns, with the count of C1.  When the product is below 1, and not
    negative, the step is 0 and [range] raises [ValueError]. *)
Theorem step_samples_positive (ws : Z) (overlap : float) (p : float) (n : Z) :
  step_product ws overlap = Ret p ->
  (PrimFloat.leb 1 p = true -> PrimFloat.ltb p infinity = true ->
   exists step,
     step_samples_of ws overlap = Ret step /\
     1 <= step /\
     exists starts,
       window_starts_of ws step n = Ret starts /\
       Z.of_nat (length starts) =
         (if ws <=? n then (n - ws) / step + 1 else 0)) /\
  (PrimFloat.leb 0 p = true -> PrimFloat.ltb p 1 = true ->
   step_samples_of ws overlap = Ret 0 /\
   window_starts_of ws 0 n = Raise ValueError).
Proof.
  intros Hp. split.
  - intros Hle Hfin.
    destruct (py_int_ge_1 p Hle Hfin) as (step & Hint & Hstep).
    exists step. split; [| split; [exact Hstep |]].
    + unfold step_samples_of. rewrite Hp. exact Hint.
    + destruct (window_starts_of_count ws step n)
        as (starts & Hstarts & Hlen & _); [lia |].
      exists starts; split; assumption.
  - intros Hle Hlt. split; [| reflexivity].
    unfold step_samples_of. rewrite Hp. exact (py_int_lt_1 p Hle Hlt).
Qed.

Lemma step_samples_positive_default :
  step_product 500 0.5 = Ret 250%float /\
  (PrimFloat.leb 1 250 = true -> PrimFloat.ltb 250 infinity = true ->
   exists step,
     step_samples_of 500 0.5 = Ret step /\
     1 <= step /\
     exists starts,
       window_starts_of 500 step 1250 = Ret starts /\
       Z.of_nat (length starts) =
         (if 500 <=? 1250 then (1250 - 500) / step + 1 else 0)) /\
  (PrimFloat.leb 0 250 = true -> PrimFloat.ltb 250 1 = true ->
   step_samples_of 500 0.5 = Ret 0 /\
   window_starts_of 500 0 1250 = Raise ValueError).
Proof.
  assert (Hp : step_product 500 0.5 = Ret 250%float)
    by (vm_compute; reflexivity).
  split; [exact Hp |].
  exact (step_samples_positive 500 0.5 250 1250 Hp).
Defined.

(** C2 fails as stated: a window of one sample with overlap 0.5 has step 0,
    and [range] then raises instead of enumerating.  So does a window of 10
    samples with the overlap 0.9, although [10 * (1 - 0.9)] is 1 exactly:
    the float64 product is [0.9999999999999998]. *)
Lemma step_samples_unclamped :
  1 <= 1 /\
  PrimFloat.leb 0 0.5 = true /\ PrimFloat.ltb 0.5 1 = true /\
  step_samples_of 1 0.5 = Ret 0 /\
  window_starts_of 1 0 100 = Raise ValueError /\
  step_product 10 0x1.ccccccccccccdp-1 = Ret 0x1.ffffffffffffep-1%float /\
  step_samples_of 10 0x1.ccccccccccccdp-1 = Ret 0 /\
  window_starts_of 10 0 100 = Raise ValueError.
Proof.
  repeat split; try reflexivity; vm_compute; reflexivity.
Qed.

(* ===================================================================== *)
(** ** The minimum-sample check of the channel loop (C9) *)
(* ===================================================================== *)

(** C9.  In every window the loop over the channels returns without raising;
    a channel of the table whose slice has fewer than 10 samples contributes
    no row, and every channel whose slice has at least 10 samples contributes
    exactly one row, holding the features of that slice. *)
Theorem short_channel_skipped {numlib : NumLib} (cols : list string)
    (subj : string) (k : Z) (w0 w1 : Q) (window_slice : list RawRow) :
  exists out,
    for_extend (channel_rows cols subj k w0 w1 window_slice) EEG_CHANNELS
      = Ret out /\
    forall ch, In ch EEG_CHANNELS -> In ch cols ->
      let channel_data := map (fun r => cell r ch) window_slice in
      (Z.of_nat (length channel_data) < 10 ->
         forall r, In r out -> channel r <> ch) /\
      (10 <= Z.of_nat (length channel_data) ->
         exists fs,
           extract_window_features channel_data SAMPLING_RATE = Ret fs /\
           filter (fun r => String.eqb (channel r) ch) out =
             [ {| channel := ch; features := fs; subject := subj;
                  window_idx := k; window_start := w0; window_end := w1 |} ]).
Proof.
  destruct (channel_loop_returns cols subj k w0 w1 window_slice EEG_CHANNELS)
    as [out Hout].
  exists out; split; [exact Hout |].
  intros ch Hch Hcol channel_data.
  assert (Hkey : forall y o b,
             channel_rows cols subj k w0 w1 window_slice y = Ret o ->
             In b o -> channel b = y).
  { intros y o b Ho Hb.
    apply (channel_rows_keys _ _ _ _ _ _ _ _ _ Ho Hb). }
  assert (Hpresent : existsb (String.eqb ch) cols = true).
  { apply existsb_exists. exists ch. split; [exact Hcol | apply String.eqb_refl]. }
  subst channel_data.
  destruct (channel_rows_cases cols subj k w0 w1 window_slice ch)
    as [[Hskip Hnil] | (_ & Hge & fs & Hfs & Hone)].
  - assert (Hlt : Z.of_nat (length (map (fun r => cell r ch) window_slice)) < 10).
    { destruct Hskip as [Habs | Hlt]; [| exact Hlt].
      rewrite Hpresent in Habs. discriminate Habs. }
    split; [| lia].
    intros _ r Hr Heq.
    pose proof (for_extend_rows_of_key channel _ _ _ _ ch
                  Hkey EEG_CHANNELS_NoDup Hch Hout Hnil) as Hfilter.
    assert (Hin : In r (filter (fun b => String.eqb (channel b) ch) out)).
    { apply filter_In. split; [exact Hr | apply String.eqb_eq; exact Heq]. }
    rewrite Hfilter in Hin. destruct Hin.
  - split; [lia |].
    intros _. exists fs. split; [exact Hfs |].
    exact (for_extend_rows_of_key channel _ _ _ _ ch
             Hkey EEG_CHANNELS_NoDup Hch Hout Hone).
Qed.

(* ===================================================================== *)
(** ** The loader and the window boundaries (C8) *)
(* ===================================================================== *)

Lemma for_each_Forall2 {A B : Type} (f : A -> exc B) (xs : list A)
    (rs : list B) :
  for_each f xs = Ret rs -> Forall2 (fun x r => f x = Ret r) xs rs.
Proof.
  revert rs; induction xs as [| x xs IH]; simpl; intros rs H.
  - injection H as <-. constructor.
  - apply bind_Ret_inv in H as (r & Hr & H).
    apply bind_Ret_inv in H as (rs' & Hrs' & H).
    injection H as <-. constructor; [exact Hr | apply IH; exact Hrs'].
Qed.

Lemma enumerate_from_nth_error {A : Type} (l : list A) (k : Z) (i : nat) :
  nth_error (enumerate_from k l) i =
  option_map (fun x => (k + Z.of_nat i, x)) (nth_error l i).
Proof.
  revert k i; induction l as [| y l IH]; intros k [| i]; simpl;
    try reflexivity.
  - rewrite Z.add_0_r. reflexivity.
  - rewrite IH. destruct (nth_error l i); simpl; [| reflexivity].
    do 2 f_equal. lia.
Qed.

(** What a file that is read without raising looks like. *)
Lemma read_csv_Ret (f : CsvFile) (df : list (list npfloat)) :
  read_csv f = Ret df ->
  df = lines f /\ lines f <> [] /\
  Forall (fun l => (length l <= n_cols f)%nat) (lines f).
Proof.
  unfold read_csv. destruct (lines f) as [| l ls] eqn:Hlines; [discriminate |].
  destruct (existsb _ _) eqn:Hwide; [discriminate |].
  intros H; injection H as <-.
  split; [reflexivity | split; [discriminate |]].
  apply Forall_forall. intros x Hx.
  destruct (Nat.ltb_spec (n_cols f) (length x)) as [Hlt | Hge]; [| exact Hge].
  assert (Habs : existsb (fun l0 => (n_cols f <? length l0)%nat) (l :: ls)
                 = true).
  { apply existsb_exists. exists x. split; [exact Hx |].
    apply Nat.ltb_lt; exact Hlt. }
  rewrite Habs in Hwide. discriminate Hwide.
Qed.

Lemma read_subject_Ret (f : CsvFile) (rs : list RawRow) :
  read_subject f = Ret rs ->
  (lines f <> [] /\ (n_cols f <= length EEG_CHANNELS)%nat /\
   Forall (fun l => (length l <= n_cols f)%nat) (lines f)) /\
  rs = map (fun il =>
              {| raw_cells := combine (firstn (n_cols f) EEG_CHANNELS) (snd il);
                 raw_subject := stem f;
                 raw_sample_idx := fst il;
                 raw_time_sec := inject_Z (fst il) / inject_Z SAMPLING_RATE |})
           (enumerate_from 0 (lines f)).
Proof.
  unfold read_subject. intros H.
  apply bind_Ret_inv in H as (df & Hdf & H).
  apply read_csv_Ret in Hdf as (-> & Hne & Hwide).
  destruct (Nat.ltb_spec (length EEG_CHANNELS) (n_cols f)) as [Hlt | Hge];
    [discriminate H |].
  injection H as <-. repeat split; assumption.
Qed.

Lemma read_subject_length (f : CsvFile) (rs : list RawRow) :
  read_subject f = Ret rs -> length rs = length (lines f).
Proof.
  intros H. apply read_subject_Ret in H as (_ & ->).
  rewrite length_map, enumerate_from_length. reflexivity.
Qed.

(** A file without lines, or with more columns than there are channel
    names, is not read. *)
Lemma read_subject_Raise (f : CsvFile) :
  lines f = [] \/ (length EEG_CHANNELS < n_cols f)%nat ->
  exists e, read_subject f = Raise e.
Proof.
  intros H. destruct (read_subject f) as [rs | e] eqn:Hrs;
    [| exists e; reflexivity].
  apply read_subject_Ret in Hrs as ((Hne & Hcols & _) & _).
  destruct H as [H | H]; [contradiction | lia].
Qed.

(** What the loader establishes for the rows of one file. *)
Lemma read_subject_rows (f : CsvFile) (rs : list RawRow) :
  read_subject f = Ret rs ->
  timed_from_zero rs /\ forall r, In r rs -> raw_subject r = stem f.
Proof.
  intros H. apply read_subject_Ret in H as (_ & ->). split.
  - intros i r. rewrite nth_error_map, enumerate_from_nth_error.
    destruct (nth_error (lines f) i); simpl; [| discriminate].
    intros H; injection H as <-. simpl. reflexivity.
  - intros r Hr. apply in_map_iff in Hr as (il & <- & _). reflexivity.
Qed.

(** What a load that returns has done. *)
Lemma load_raw_eeg_data_Ret (files : list CsvFile) (raw_df : DataFrame) :
  load_raw_eeg_data files = Ret raw_df ->
  firstn 5 files <> [] /\
  exists all_data,
    for_each read_subject (firstn 5 files) = Ret all_data /\
    raw_df =
      {| columns :=
           fold_left union_columns
             (map (fun f => firstn (n_cols f) EEG_CHANNELS) (firstn 5 files))
             [];
         rows := concat all_data |}.
Proof.
  unfold load_raw_eeg_data.
  destruct (firstn 5 files) as [| f fs]; [discriminate |].
  intros H. apply bind_Ret_inv in H as (first_df & _ & H).
  apply bind_Ret_inv in H as (all_data & Hall & H).
  injection H as <-. split; [discriminate |].
  exists all_data. split; [exact Hall | reflexivity].
Qed.

Lemma NoDup_firstn {A : Type} (n : nat) (l : list A) :
  NoDup l -> NoDup (firstn n l).
Proof.
  intros H. rewrite <- (firstn_skipn n l) in H.
  exact (NoDup_app_remove_r _ _ H).
Qed.

(** With distinct stems, the rows of a subject in the concatenated table are
    the rows of one file, in file order. *)
Lemma concat_subject_rows (fs : list CsvFile) (all_data : list (list RawRow))
    (subj : string) :
  Forall2 (fun f rs => read_subject f = Ret rs) fs all_data ->
  NoDup (map stem fs) ->
  timed_from_zero
    (filter (fun r => String.eqb (raw_subject r) subj) (concat all_data)) /\
  (~ In subj (map stem fs) ->
   filter (fun r => String.eqb (raw_subject r) subj) (concat all_data) = []).
Proof.
  induction 1 as [| f rs fs all_data Hrs Hall IH]; intros Hnd; simpl.
  - split; [intros [| i] r H; discriminate H | reflexivity].
  - inversion Hnd as [| ? ? Hnotin Hnd']; subst.
    destruct (IH Hnd') as [IHt IHnil].
    destruct (read_subject_rows f rs Hrs) as [Ht Hsubj].
    rewrite filter_app.
    destruct (string_dec (stem f) subj) as [Heq | Hne].
    + subst subj. rewrite filter_all, (IHnil Hnotin), app_nil_r.
      * split; [exact Ht | intros Habs; exfalso; apply Habs; left; reflexivity].
      * intros r Hr. apply String.eqb_eq. apply Hsubj; exact Hr.
    + rewrite filter_none.
      * simpl. split; [exact IHt |].
        intros Hn. apply IHnil. intros Hin. apply Hn. right; exact Hin.
      * intros r Hr. apply String.eqb_neq. rewrite (Hsubj r Hr). exact Hne.
Qed.

Lemma concat_subject_rows_eq (fs : list CsvFile)
    (all_data : list (list RawRow)) (f : CsvFile) (rs : list RawRow) :
  Forall2 (fun f rs => read_subject f = Ret rs) fs all_data ->
  NoDup (map stem fs) ->
  In f fs -> read_subject f = Ret rs ->
  filter (fun r => String.eqb (raw_subject r) (stem f)) (concat all_data) = rs.
Proof.
  induction 1 as [| g rg fs all_data Hg Hall IH]; intros Hnd Hin Hrs;
    [destruct Hin |].
  simpl. rewrite filter_app.
  inversion Hnd as [| ? ? Hnotin Hnd']; subst.
  destruct (read_subject_rows g rg Hg) as [_ Hsubj].
  destruct Hin as [-> | Hin].
  - rewrite Hg in Hrs. injection Hrs as <-.
    rewrite filter_all.
    + rewrite (proj2 (concat_subject_rows fs all_data (stem f) Hall Hnd')
                 Hnotin).
      apply app_nil_r.
    + intros r Hr. apply String.eqb_eq. apply Hsubj; exact Hr.
  - rewrite filter_none; [apply IH; assumption |].
    intros r Hr. apply String.eqb_neq. rewrite (Hsubj r Hr).
    intros Heq. apply Hnotin. rewrite Heq. apply in_map; exact Hin.
Qed.

Lemma load_raw_eeg_data_subject (files : list CsvFile) (raw_df : DataFrame)
    (f : CsvFile) :
  NoDup (map stem files) ->
  load_raw_eeg_data files = Ret raw_df ->
  In f (firstn 5 files) ->
  read_subject f = Ret (subject_data_of raw_df (stem f)).
Proof.
  intros Hnd Hload Hin.
  assert (Hnd5 : NoDup (map stem (firstn 5 files))).
  { rewrite <- firstn_map. apply NoDup_firstn; exact Hnd. }
  apply load_raw_eeg_data_Ret in Hload as (_ & all_data & Hall & ->).
  unfold subject_data_of. cbn [rows].
  apply for_each_Forall2 in Hall.
  destruct (read_subject f) as [rs | e] eqn:Hrs.
  - rewrite (concat_subject_rows_eq _ _ f rs Hall Hnd5 Hin Hrs). reflexivity.
  - exfalso. clear -Hall Hin Hrs.
    induction Hall as [| g rg gs all Hg Hall IH]; [destruct Hin |].
    destruct Hin as [-> | Hin]; [congruence | exact (IH Hin)].
Qed.

(** With distinct stems, the rows of a subject in the table are those of the
    one file of that stem, or there are none. *)
Lemma load_raw_eeg_data_subject_cases (files : list CsvFile)
    (raw_df : DataFrame) (subj : string) :
  NoDup (map stem files) ->
  load_raw_eeg_data files = Ret raw_df ->
  subject_data_of raw_df subj = [] \/
  exists f, In f (firstn 5 files) /\ stem f = subj /\
            read_subject f = Ret (subject_data_of raw_df subj).
Proof.
  intros Hnd Hload.
  destruct (in_dec string_dec subj (map stem (firstn 5 files))) as [Hin | Hout].
  - right. apply in_map_iff in Hin as (f & <- & Hf).
    exists f. split; [exact Hf | split; [reflexivity |]].
    exact (load_raw_eeg_data_subject files raw_df f Hnd Hload Hf).
  - left.
    assert (Hnd5 : NoDup (map stem (firstn 5 files))).
    { rewrite <- firstn_map. apply NoDup_firstn; exact Hnd. }
    apply load_raw_eeg_data_Ret in Hload as (_ & all_data & Hall & ->).
    unfold subject_data_of. cbn [rows].
    apply for_each_Forall2 in Hall.
    exact (proj2 (concat_subject_rows _ _ subj Hall Hnd5) Hout).
Qed.

(** The [i]-th row of a subject in such a table is sample [i] of its
    recording. *)
Lemma load_raw_eeg_data_sample_idx (files : list CsvFile)
    (raw_df : DataFrame) (subj : string) (i : nat) (r : RawRow) :
  NoDup (map stem files) ->
  load_raw_eeg_data files = Ret raw_df ->
  nth_error (subject_data_of raw_df subj) i = Some r ->
  raw_sample_idx r = Z.of_nat i.
Proof.
  intros Hnd Hload Hr.
  destruct (load_raw_eeg_data_subject_cases files raw_df subj Hnd Hload)
    as [Hnil | (f & _ & _ & Hrs)].
  - rewrite Hnil in Hr. destruct i; discriminate Hr.
  - revert Hr Hrs. generalize (subject_data_of raw_df subj) as rs.
    intros rs Hr Hrs. apply read_subject_Ret in Hrs as (_ & ->).
    rewrite nth_error_map, enumerate_from_nth_error in Hr.
    destruct (nth_error (lines f) i); [| discriminate Hr].
    simpl in Hr. injection Hr as <-. reflexivity.
Qed.

(** C8.  For every window length and step, over the table the loader builds
    from files of distinct stems: in every feature table the silver layer
    returns, [window_start] and [window_end] of a row are the times of two
    samples of its subject that lie [window_samples - 1] samples apart, the
    first and the last sample of the window.  Rows of the same subject and
    window index carry the same [window_start] and the same [window_end],
    whatever their channel. *)
Theorem window_bounds_constant {numlib : NumLib} (ws step : Z)
    (files : list CsvFile) (raw_df : DataFrame) (silver : list FeatureRow) :
  1 <= ws -> 1 <= step ->
  NoDup (map stem files) ->
  load_raw_eeg_data files = Ret raw_df ->
  create_silver_features_of ws step raw_df = Ret silver ->
  (forall r, In r silver ->
     exists a b,
       In a (subject_data_of raw_df (subject r)) /\
       In b (subject_data_of raw_df (subject r)) /\
       window_start r = raw_time_sec a /\
       window_end r = raw_time_sec b /\
       raw_sample_idx b - raw_sample_idx a = ws - 1) /\
  (forall r1 r2, In r1 silver -> In r2 silver ->
     subject r1 = subject r2 -> window_idx r1 = window_idx r2 ->
     window_start r1 = window_start r2 /\ window_end r1 = window_end r2).
Proof.
  intros Hws Hstep1 Hnd Hload Hsilver.
  assert (Hstep : 0 < step) by lia.
  unfold create_silver_features_of in Hsilver.
  apply bind_Ret_inv in Hsilver as (all_features & Hall & Hreg).
  assert (Heq : all_features = silver).
  { destruct all_features; [discriminate Hreg | injection Hreg as <-; reflexivity]. }
  subst all_features. clear Hreg. unfold all_features_of in Hall.
  split.
  - intros r Hr.
    apply (for_extend_In _ _ _ r Hall) in Hr as (subj & out & _ & Hout & Hr).
    destruct (subject_rows_spec ws step raw_df subj Hws Hstep)
      as (starts & out' & _ & Hout' & Hspec).
    rewrite Hout in Hout'. injection Hout' as <-.
    destruct (Hspec r Hr) as (Hsub & s & _ & Hs & H0 & H1).
    rewrite nth_error_map in H0, H1. rewrite Hsub.
    destruct (nth_error (subject_data_of raw_df subj) (Z.to_nat s))
      as [a |] eqn:Ha; [| discriminate].
    destruct (nth_error (subject_data_of raw_df subj)
                        (Z.to_nat (s + ws - 1)))
      as [b |] eqn:Hb; [| discriminate].
    simpl in H0, H1. injection H0 as H0. injection H1 as H1.
    exists a, b.
    split; [eapply nth_error_In; exact Ha |].
    split; [eapply nth_error_In; exact Hb |].
    split; [symmetry; exact H0 |]. split; [symmetry; exact H1 |].
    rewrite (load_raw_eeg_data_sample_idx files raw_df subj _ a Hnd Hload Ha).
    rewrite (load_raw_eeg_data_sample_idx files raw_df subj _ b Hnd Hload Hb).
    lia.
  - intros r1 r2 Hr1 Hr2 Hsub Hidx.
    apply (for_extend_In _ _ _ r1 Hall) in Hr1 as (s1 & o1 & _ & Ho1 & Hr1).
    apply (for_extend_In _ _ _ r2 Hall) in Hr2 as (s2 & o2 & _ & Ho2 & Hr2).
    destruct (subject_rows_spec ws step raw_df s1 Hws Hstep)
      as (starts1 & o1' & Hst1 & Ho1' & Hspec1).
    destruct (subject_rows_spec ws step raw_df s2 Hws Hstep)
      as (starts2 & o2' & Hst2 & Ho2' & Hspec2).
    rewrite Ho1 in Ho1'. injection Ho1' as <-.
    rewrite Ho2 in Ho2'. injection Ho2' as <-.
    destruct (Hspec1 r1 Hr1) as (Hs1 & a1 & Hin1 & _ & Ha0 & Ha1).
    destruct (Hspec2 r2 Hr2) as (Hs2 & a2 & Hin2 & _ & Hb0 & Hb1).
    assert (Hsame : s2 = s1) by congruence.
    clear Hs1 Hs2. subst s2.
    rewrite Hst1 in Hst2. injection Hst2 as <-.
    rewrite Hidx in Hin1.
    pose proof (enumerate_from_functional _ _ _ _ _ Hin1 Hin2). subst a2.
    rewrite Ha0 in Hb0. rewrite Ha1 in Hb1.
    injection Hb0 as ->. injection Hb1 as ->. split; reflexivity.
Qed.

(* ===================================================================== *)
(** ** The [n_windows] column of the two marts (C3) *)
(* ===================================================================== *)

Lemma insert_by_In {A : Type} (leb : A -> A -> bool) (a x : A) (l : list A) :
  In x (insert_by leb a l) <-> x = a \/ In x l.
Proof.
  induction l as [| b l IH]; simpl.
  - intuition congruence.
  - destruct (leb a b); simpl; [intuition congruence |].
    rewrite IH. intuition congruence.
Qed.

Lemma sort_by_In {A : Type} (leb : A -> A -> bool) (x : A) (l : list A) :
  In x (sort_by leb l) <-> In x l.
Proof.
  induction l as [| a l IH]; simpl; [reflexivity |].
  rewrite insert_by_In, IH. intuition congruence.
Qed.

Lemma count_distinct_le (l : list Z) :
  count_distinct l <= Z.of_nat (length l).
Proof.
  unfold count_distinct. apply inj_le.
  apply NoDup_incl_length; [apply NoDup_nodup |].
  intros x Hx. apply nodup_In in Hx. exact Hx.
Qed.

Lemma insert_by_Permutation {A : Type} (leb : A -> A -> bool) (a : A)
    (l : list A) :
  Permutation (a :: l) (insert_by leb a l).
Proof.
  induction l as [| b l IH]; simpl; [apply Permutation_refl |].
  destruct (leb a b); [apply Permutation_refl |].
  eapply Permutation_trans; [apply perm_swap |].
  apply perm_skip. exact IH.
Qed.

Lemma sort_by_Permutation {A : Type} (leb : A -> A -> bool) (l : list A) :
  Permutation l (sort_by leb l).
Proof.
  induction l as [| a l IH]; simpl; [apply Permutation_refl |].
  eapply Permutation_trans; [| apply insert_by_Permutation].
  apply perm_skip. exact IH.
Qed.

(** GROUP BY followed by ORDER BY leaves one row per key. *)
Lemma grouped_one_row_per_key {A B : Type} (key_in : A -> string)
    (key_out : B -> string) (agg : string -> B) (leb : B -> B -> bool)
    (input : list A) :
  (forall k, key_out (agg k) = k) ->
  one_row_per_key key_out (map key_in input)
    (sort_by leb (map agg (unique (map key_in input)))).
Proof.
  intros Hkey.
  assert (Hmap : map key_out (map agg (unique (map key_in input)))
                 = unique (map key_in input)).
  { rewrite map_map. rewrite <- (map_id (unique _)) at 2.
    apply map_ext. exact Hkey. }
  pose proof (Permutation_map key_out
                (sort_by_Permutation leb
                   (map agg (unique (map key_in input))))) as Hperm.
  rewrite Hmap in Hperm. split.
  - eapply Permutation_NoDup; [exact Hperm | apply unique_from_NoDup].
  - intros k. split.
    + intros Hk. eapply Permutation_in; [exact Hperm |].
      apply unique_from_spec. split; [exact Hk | intros []].
    + intros Hk. apply Permutation_sym in Hperm.
      apply (Permutation_in _ Hperm) in Hk.
      apply unique_from_spec in Hk. tauto.
Qed.

(** C3, as the code has it.  Each mart has one row per key value.  In the
    channel mart [n_windows] is the number of feature rows of the channel
    (COUNT).  In the subject mart [n_windows] is the number of distinct
    window indices among the feature rows of the subject (COUNT DISTINCT),
    which is at most their number. *)
Theorem n_windows_counts {numlib : NumLib} (silver : list FeatureRow) :
  one_row_per_key ws_channel (map channel silver)
    (gold_workload_stats silver) /\
  (forall a, In a (gold_workload_stats silver) ->
     ws_n_windows a =
       Z.of_nat (length (filter (fun r => String.eqb (channel r) (ws_channel a))
                                silver))) /\
  one_row_per_key ss_subject (map subject silver)
    (gold_subject_stats silver) /\
  (forall a, In a (gold_subject_stats silver) ->
     let g := filter (fun r => String.eqb (subject r) (ss_subject a)) silver in
     ss_n_windows a = Z.of_nat (length (nodup Z.eq_dec (map window_idx g))) /\
     ss_n_windows a <= Z.of_nat (length g)).
Proof.
  split; [| split; [| split]].
  - apply grouped_one_row_per_key. reflexivity.
  - intros a Ha. unfold gold_workload_stats in Ha.
    apply sort_by_In, in_map_iff in Ha as (c & <- & _). reflexivity.
  - apply grouped_one_row_per_key. reflexivity.
  - intros a Ha g. unfold gold_subject_stats in Ha.
    apply sort_by_In, in_map_iff in Ha as (s & <- & _).
    subst g. cbn [ss_n_windows ss_subject subject_stats_of].
    split; [reflexivity |].
    rewrite <- (length_map window_idx). apply count_distinct_le.
Qed.

(** C3 fails as stated for the subject mart: the two rows of one window of
    one subject (two channels) give [n_windows = 1], not 2. *)
Lemma subject_n_windows_counts_windows :
  exists a,
    In a (gold_subject_stats (numlib := toy_numlib) one_window_two_channels) /\
    ss_n_windows a = 1 /\
    Z.of_nat (length (filter (fun r => String.eqb (subject r) (ss_subject a))
                             one_window_two_channels)) = 2.
Proof.
  eexists. split; [left; reflexivity |]. split; reflexivity.
Qed.

(* ===================================================================== *)
(** ** The sentinel of the scaling exponent (C4) *)
(* ===================================================================== *)

(** C4.  [compute_dfa] always returns a value and never raises.  The value
    is 0 when the segment has fewer than 16 samples, when the loop over the
    scales raises, when it leaves fewer than 2 fluctuation values, and when
    the final fit raises; in the remaining case it is the slope of the fit
    of [log10(flucts)] against [log10(scales[:len(flucts)])]. *)
Theorem compute_dfa_sentinel {numlib : NumLib} (data : list npfloat) :
  let N := Z.of_nat (length data) in
  let y := np_cumsum (map (fun x => fsub x (np_mean data)) data) in
  let scales := dfa_scales N in
  (exists alpha, compute_dfa data = Ret alpha) /\
  (N < 16 -> compute_dfa data = Ret (Fin 0)) /\
  (16 <= N ->
   match dfa_flucts y N scales with
   | Raise _ => compute_dfa data = Ret (Fin 0)
   | Ret flucts =>
       if Z.of_nat (length flucts) <? 2 then compute_dfa data = Ret (Fin 0)
       else
         match np_polyfit1
                 (map (fun s => np_log10 (of_int s))
                      (firstn (length flucts) scales))
                 (map np_log10 flucts) with
         | Raise _ => compute_dfa data = Ret (Fin 0)
         | Ret fit => compute_dfa data = Ret (fst fit)
         end
   end).
Proof.
  intros N y scales.
  split; [apply compute_dfa_returns | split].
  - intros Hshort. unfold compute_dfa, compute_dfa_body. fold N.
    destruct (Z.ltb_spec N 16) as [_ | Hge]; [reflexivity | lia].
  - intros Hlong. unfold compute_dfa, compute_dfa_body. fold N y scales.
    destruct (Z.ltb_spec N 16) as [Hlt | _]; [lia |].
    destruct (dfa_flucts y N scales) as [flucts | e]; simpl; [| reflexivity].
    destruct (Z.of_nat (length flucts) <? 2); [reflexivity |].
    destruct (np_polyfit1 _ _) as [fit | e]; reflexivity.
Qed.

(* ===================================================================== *)
(** ** Spectral entropy (C5) *)
(* ===================================================================== *)

Section EntropyFacts.
Local Open Scope R_scope.

Lemma Rltb_true (a b : R) : Rltb a b = true <-> a < b.
Proof.
  unfold Rltb. destruct (Rlt_dec a b); split; intros H;
    try reflexivity; try assumption; try discriminate; contradiction.
Qed.

Lemma Rltb_false (a b : R) : Rltb a b = false <-> b <= a.
Proof.
  unfold Rltb. destruct (Rlt_dec a b); split; intros H;
    try reflexivity; try discriminate; lra.
Qed.

Lemma Reqb_true (a b : R) : Reqb a b = true <-> a = b.
Proof.
  unfold Reqb. destruct (Req_dec_T a b); split; intros H;
    try reflexivity; try assumption; try discriminate; contradiction.
Qed.

Lemma fold_fadd_NaN (l : list npfloat) : fold_left fadd l NaN = NaN.
Proof. induction l as [| x l IH]; simpl; [reflexivity | exact IH]. Qed.

Lemma fold_fadd_PInf (l : list npfloat) :
  Forall (fun p => fltb p (Fin 0) = false) l ->
  fold_left fadd l PInf = PInf \/ fold_left fadd l PInf = NaN.
Proof.
  induction 1 as [| x l Hx Hl IH]; simpl; [left; reflexivity |].
  destruct x; simpl in *; try exact IH; try discriminate Hx.
  right; apply fold_fadd_NaN.
Qed.

(** A finite sum of values none of which is negative bounds each of them. *)
Lemma fold_fadd_nonneg (l : list npfloat) (a : R) :
  0 <= a ->
  Forall (fun p => fltb p (Fin 0) = false) l ->
  match fold_left fadd l (Fin a) with
  | NInf => False
  | Fin s => a <= s /\ forall x, In x l -> exists r, x = Fin r /\ 0 <= r <= s
  | NaN | PInf => True
  end.
Proof.
  intros Ha Hl. revert a Ha.
  induction Hl as [| x l Hx Hl IH]; intros a Ha; simpl.
  - split; [lra | intros x []].
  - destruct x as [| | | r]; simpl in *.
    + rewrite fold_fadd_NaN. exact I.
    + destruct (fold_fadd_PInf l Hl) as [-> | ->]; exact I.
    + discriminate Hx.
    + apply Rltb_false in Hx.
      specialize (IH (a + r) ltac:(lra)).
      destruct (fold_left fadd l (Fin (a + r))) as [| | | s]; try exact IH.
      destruct IH as [Hs Hin]. split; [lra |].
      intros x [<- | Hxl].
      * exists r. split; [reflexivity | lra].
      * exact (Hin x Hxl).
Qed.

(** What survives the filter [psd_norm > 0] is a proportion in (0, 1]. *)
Lemma kept_proportion (psd : list npfloat) (p : npfloat) :
  Forall (fun p => fltb p (Fin 0) = false) psd ->
  In p psd ->
  fltb (Fin 0) (fdiv p (np_sum psd)) = true ->
  exists q, fdiv p (np_sum psd) = Fin q /\ 0 < q <= 1.
Proof.
  intros Hpsd Hp Hkept.
  pose proof (fold_fadd_nonneg psd 0 (Rle_refl 0) Hpsd) as Hsum.
  pose proof (proj1 (Forall_forall _ _) Hpsd p Hp) as Hnn.
  unfold np_sum in *.
  destruct (fold_left fadd psd (Fin 0)) as [| | | s].
  - destruct p; discriminate Hkept.
  - destruct p; simpl in Hkept; try discriminate Hkept.
    apply Rltb_true in Hkept. lra.
  - destruct Hsum.
  - destruct Hsum as [Hs Hin]. destruct (Hin p Hp) as (r & -> & Hr).
    simpl in *. destruct (Reqb s 0) eqn:Hs0.
    + apply Reqb_true in Hs0. subst s.
      assert (r = 0) by lra. subst r.
      destruct (Reqb 0 0) eqn:H00; [discriminate Hkept |].
      exfalso. assert (Reqb 0 0 = true) by (apply Reqb_true; reflexivity).
      congruence.
    + assert (Hspos : 0 < s).
      { destruct (Req_dec s 0) as [E | E]; [| lra].
        apply Reqb_true in E. congruence. }
      simpl in Hkept. apply Rltb_true in Hkept.
      exists (r / s). split; [reflexivity |]. split; [exact Hkept |].
      apply (Rmult_le_reg_r s); [exact Hspos |].
      unfold Rdiv. rewrite Rmult_assoc, Rinv_l by lra. lra.
Qed.

Lemma ln_nonpos (q : R) : 0 < q <= 1 -> ln q <= 0.
Proof.
  intros [Hq [Hlt | ->]]; [| rewrite ln_1; lra].
  pose proof (ln_increasing q 1 Hq Hlt) as H. rewrite ln_1 in H. lra.
Qed.

Lemma ln_2_pos : 0 < ln 2.
Proof.
  pose proof (ln_increasing 1 2 ltac:(lra) ltac:(lra)) as H.
  rewrite ln_1 in H. exact H.
Qed.

Lemma entropy_term (q : R) :
  0 < q <= 1 ->
  exists t, fmul (Fin q) (np_log2 (Fin q)) = Fin t /\ t <= 0.
Proof.
  intros Hq. unfold np_log2, log_base.
  destruct (Rltb 0 q) eqn:H0q.
  2:{ apply Rltb_false in H0q. lra. }
  simpl. eexists; split; [reflexivity |].
  pose proof (ln_nonpos q Hq) as Hln. pose proof ln_2_pos as H2.
  assert (Hdiv : ln q / ln 2 <= 0).
  { unfold Rdiv. rewrite <- (Rmult_0_l (/ ln 2)).
    apply Rmult_le_compat_r; [| exact Hln].
    apply Rlt_le, Rinv_0_lt_compat; exact H2. }
  nra.
Qed.

Lemma fold_fadd_nonpos (l : list npfloat) (a : R) :
  a <= 0 ->
  Forall (fun x => exists t, x = Fin t /\ t <= 0) l ->
  exists s, fold_left fadd l (Fin a) = Fin s /\ s <= 0.
Proof.
  intros Ha Hl. revert a Ha.
  induction Hl as [| x l (t & -> & Ht) Hl IH]; intros a Ha; simpl.
  - exists a; split; [reflexivity | exact Ha].
  - apply IH. lra.
Qed.

(** The entropy of a spectrum without negative values is a non-negative
    real; it is 0 when no proportion survives the filter. *)
Lemma spectral_entropy_of_psd_nonneg (psd : list npfloat) :
  Forall (fun p => fltb p (Fin 0) = false) psd ->
  exists h, spectral_entropy_of_psd psd = Fin h /\ 0 <= h.
Proof.
  intros Hpsd. unfold spectral_entropy_of_psd.
  destruct (fold_fadd_nonpos
              (map (fun p => fmul p (np_log2 p))
                   (filter (fun p => fltb (Fin 0) p)
                           (map (fun p => fdiv p (np_sum psd)) psd)))
              0 (Rle_refl 0)) as (s & Hs & Hneg).
  { apply Forall_forall. intros x Hx.
    apply in_map_iff in Hx as (n & <- & Hn).
    apply filter_In in Hn as [Hn Hkept].
    apply in_map_iff in Hn as (p & <- & Hp).
    destruct (kept_proportion psd p Hpsd Hp Hkept) as (q & -> & Hq).
    apply entropy_term; exact Hq. }
  unfold np_sum at 1. rewrite Hs. simpl.
  exists (- s). split; [reflexivity | lra].
Qed.

Lemma spectral_entropy_of_zero_psd (psd : list npfloat) :
  Forall (fun p => fltb p (Fin 0) = false) psd ->
  np_sum psd = Fin 0 ->
  spectral_entropy_of_psd psd = Fin 0.
Proof.
  intros Hpsd Hzero. unfold spectral_entropy_of_psd.
  rewrite filter_none.
  - simpl. f_equal. lra.
  - intros n Hn. apply in_map_iff in Hn as (p & <- & Hp).
    destruct (fltb (Fin 0) (fdiv p (np_sum psd))) eqn:Hkept; [| reflexivity].
    pose proof (fold_fadd_nonneg psd 0 (Rle_refl 0) Hpsd) as Hsum.
    fold (np_sum psd) in Hsum. rewrite Hzero in *.
    destruct Hsum as [_ Hin]. destruct (Hin p Hp) as (r & -> & Hr).
    assert (r = 0) by lra. subst r. simpl in Hkept.
    rewrite (proj2 (Reqb_true 0 0) eq_refl) in Hkept. discriminate Hkept.
Qed.

End EntropyFacts.

(** C5.  Given that the spectrum estimate holds no negative value, the
    spectral entropy is a non-negative real number, never NaN, and it is 0
    when the spectrum sums to zero. *)
Theorem spectral_entropy_guarded {numlib : NumLib} (data : list npfloat)
    (fs : Z) :
  let psd := snd (sp_welch data fs (Z.min 256 (Z.of_nat (length data)))) in
  Forall (fun p => fltb p (Fin 0) = false) psd ->
  (np_sum psd = Fin 0 -> compute_spectral_entropy data fs = Fin 0) /\
  (exists h, compute_spectral_entropy data fs = Fin h /\ (0 <= h)%R).
Proof.
  intros psd Hpsd. unfold compute_spectral_entropy. subst psd.
  destruct (sp_welch data fs (Z.min 256 (Z.of_nat (length data))))
    as [freqs psd]. simpl in *. split.
  - apply spectral_entropy_of_zero_psd; exact Hpsd.
  - apply spectral_entropy_of_psd_nonneg; exact Hpsd.
Qed.

Lemma spectral_entropy_guarded_example :
  let data := [Fin 1; Fin (-2); Fin 3] in
  let psd :=
    snd (sp_welch (NumLib := toy_numlib) data 250
           (Z.min 256 (Z.of_nat (length data)))) in
  Forall (fun p => fltb p (Fin 0) = false) psd /\
  (np_sum psd = Fin 0 ->
   compute_spectral_entropy (numlib := toy_numlib) data 250 = Fin 0) /\
  (exists h,
     compute_spectral_entropy (numlib := toy_numlib) data 250 = Fin h /\
     (0 <= h)%R).
Proof.
  cbv zeta.
  assert (Hpsd : Forall (fun p => fltb p (Fin 0) = false)
                   (snd (sp_welch (NumLib := toy_numlib)
                           [Fin 1; Fin (-2); Fin 3] 250
                           (Z.min 256 (Z.of_nat
                              (length [Fin 1; Fin (-2); Fin 3])))))).
  { simpl. repeat constructor; apply Rltb_false; lra. }
  split; [exact Hpsd |].
  exact (spectral_entropy_guarded (numlib := toy_numlib)
           [Fin 1; Fin (-2); Fin 3] 250 Hpsd).
Defined.

(* ===================================================================== *)
(** ** The scales of the fluctuation analysis (C6) *)
(* ===================================================================== *)

Section ScaleFacts.
Local Open Scope R_scope.

Lemma np_linspace_8 (L : R) :
  np_linspace 1 L 8 =
  let step := (L - 1) / 7 in
  [0 * step + 1; 1 * step + 1; 2 * step + 1; 3 * step + 1;
   4 * step + 1; 5 * step + 1; 6 * step + 1; L].
Proof.
  unfold np_linspace. cbn [seq map Nat.eqb Nat.sub].
  rewrite ?INR_IZR_INZ. reflexivity.
Qed.

Lemma ln_10_pos : 0 < ln 10.
Proof.
  pose proof (ln_increasing 1 10 ltac:(lra) ltac:(lra)) as H.
  rewrite ln_1 in H. exact H.
Qed.

Lemma Rpower_10_log10R (x : R) : 0 < x -> Rpower 10 (log10R x) = x.
Proof.
  intros Hx. unfold Rpower, log10R.
  replace (ln x / ln 10 * ln 10) with (ln x).
  - apply exp_ln; exact Hx.
  - field. pose proof ln_10_pos. lra.
Qed.

Lemma log10R_ge_1 (x : R) : 10 <= x -> 1 <= log10R x.
Proof.
  intros Hx. unfold log10R. pose proof ln_10_pos as H10.
  assert (Hln : ln 10 <= ln x).
  { destruct Hx as [Hlt | <-]; [| lra].
    apply Rlt_le, ln_increasing; lra. }
  apply (Rmult_le_reg_r (ln 10)); [exact H10 |].
  unfold Rdiv. rewrite Rmult_assoc, Rinv_l by lra. lra.
Qed.

Lemma astype_int_bounds (r : R) (a b : Z) :
  0 <= r -> IZR a <= r <= IZR b -> (a <= astype_int r <= b)%Z.
Proof.
  intros Hr [Ha Hb]. unfold astype_int.
  destruct (Rle_dec 0 r) as [_ | Hn]; [| contradiction].
  destruct (base_Int_part r) as [Hle Hgt]. split.
  - assert (H : IZR (a - 1) < IZR (Int_part r)).
    { rewrite minus_IZR. lra. }
    apply lt_IZR in H. lia.
  - apply le_IZR. lra.
Qed.

Lemma astype_int_IZR (z : Z) : (0 <= z)%Z -> astype_int (IZR z) = z.
Proof.
  intros Hz.
  assert (H : (z <= astype_int (IZR z) <= z)%Z).
  { apply astype_int_bounds; [apply IZR_le in Hz; exact Hz | lra]. }
  lia.
Qed.

(** The eight values before truncation: a geometric progression from 10 to
    [N // 4]. *)
Lemma dfa_scale_values (N : Z) :
  (4 <= N)%Z ->
  let M := IZR (N / 4) in
  let vs := np_logspace 1 (log10R M) 8 in
  dfa_scales N = map astype_int vs /\
  length vs = 8%nat /\
  nth 0 vs 0 = 10 /\
  nth 7 vs 0 = M /\
  forall i, (i < 7)%nat ->
    nth (S i) vs 0 = nth i vs 0 * Rpower (M / 10) (/ 7).
Proof.
  intros HN M vs.
  assert (HM : 1 <= M).
  { unfold M. apply IZR_le. apply Z.div_le_lower_bound; lia. }
  split; [reflexivity |]. split; [reflexivity |].
  assert (Hratio : Rpower (M / 10) (/ 7) = Rpower 10 ((log10R M - 1) / 7)).
  { unfold Rpower, log10R. f_equal.
    unfold Rdiv at 1. rewrite ln_mult, ln_Rinv by (try apply Rinv_0_lt_compat; lra).
    field. pose proof ln_10_pos. lra. }
  rewrite Hratio. unfold vs, np_logspace. rewrite np_linspace_8.
  cbv zeta. cbn [map nth].
  split; [| split].
  - replace (0 * ((log10R M - 1) / 7) + 1) with 1 by lra.
    apply Rpower_1; lra.
  - apply Rpower_10_log10R; lra.
  - intros i Hi.
    do 7 (destruct i as [| i];
          [cbn [nth]; rewrite <- Rpower_plus; f_equal; lra |]).
    lia.
Qed.

Lemma dfa_scales_bounds (N s : Z) :
  (40 <= N)%Z -> In s (dfa_scales N) -> (10 <= s <= N / 4)%Z.
Proof.
  intros HN Hs.
  assert (HM : 10 <= IZR (N / 4)).
  { apply IZR_le. apply Z.div_le_lower_bound; lia. }
  pose proof (log10R_ge_1 _ HM) as HL.
  unfold dfa_scales, np_logspace in Hs. rewrite np_linspace_8 in Hs.
  cbv zeta in Hs. apply in_map_iff in Hs as (v & <- & Hv).
  apply in_map_iff in Hv as (e & <- & He).
  assert (Hrange : 1 <= e <= log10R (IZR (N / 4))).
  { cbn [In] in He.
    repeat (destruct He as [<- | He]; [lra |]). destruct He. }
  assert (Hlo : 10 <= Rpower 10 e).
  { rewrite <- (Rpower_1 10) at 1 by lra. apply Rle_Rpower; lra. }
  assert (Hhi : Rpower 10 e <= IZR (N / 4)).
  { rewrite <- (Rpower_10_log10R (IZR (N / 4))) at 1 by lra.
    apply Rle_Rpower; lra. }
  apply astype_int_bounds; lra.
Qed.




End ScaleFacts.

Lemma first_scale_is_10 (N : Z) : 4 <= N -> In 10 (dfa_scales N).
Proof.
  intros HN.
  destruct (dfa_scale_values N HN) as (Hmap & Hlen & H0 & _).
  rewrite Hmap. rewrite <- (astype_int_IZR 10) by lia.
  rewrite <- H0. apply in_map. apply nth_In. rewrite Hlen. lia.
Qed.




(* ===================================================================== *)
(** ** The segments of one scale (C7) *)
(* ===================================================================== *)

Lemma firstn_plus {A : Type} (a b : nat) (l : list A) :
  firstn (a + b) l = firstn a l ++ firstn b (skipn a l).
Proof.
  revert l; induction a as [| a IH]; intros l; [reflexivity |].
  destruct l as [| x l]; simpl.
  - rewrite firstn_nil. reflexivity.
  - rewrite IH. reflexivity.
Qed.

(** Consecutive slices of length [k] tile a prefix of the list. *)
Lemma slices_tile {A : Type} (y : list A) (k n : nat) :
  concat (map (fun i => firstn k (skipn (i * k) y)) (seq 0 n))
  = firstn (n * k) y.
Proof.
  induction n as [| n IH]; [reflexivity |].
  rewrite seq_S, map_app, concat_app, IH. simpl.
  rewrite app_nil_r, <- firstn_plus. f_equal. lia.
Qed.

Lemma py_slice_segment {A : Type} (y : list A) (scale : Z) (i : nat) :
  0 <= scale ->
  py_slice y (Z.of_nat i * scale) ((Z.of_nat i + 1) * scale)
  = firstn (Z.to_nat scale) (skipn (i * Z.to_nat scale) y).
Proof.
  intros Hs. unfold py_slice. f_equal; [f_equal; lia | f_equal; nia].
Qed.

Lemma for_each_length {A B : Type} (f : A -> exc B) (xs : list A)
    (rs : list B) :
  for_each f xs = Ret rs -> length rs = length xs.
Proof.
  intros H. apply for_each_Forall2 in H.
  symmetry. eapply Forall2_length; exact H.
Qed.

(** The segments of a scale [2 <= scale <= N]: [N // scale] full segments
    that tile the first [scale * (N // scale)] samples. *)
Lemma dfa_segments_tile {A : Type} (y : list A) (scale : Z) :
  let N := Z.of_nat (length y) in
  2 <= scale -> scale <= N ->
  let segs := dfa_segments y scale (np_floordiv N scale) in
  Z.of_nat (length segs) = N / scale /\
  Forall (fun seg => Z.of_nat (length seg) = scale) segs /\
  concat segs = firstn (Z.to_nat (scale * (N / scale))) y.
Proof.
  intros N Hscale HN segs.
  assert (Hdiv : np_floordiv N scale = N / scale).
  { unfold np_floordiv. destruct (Z.eqb_spec scale 0); [lia | reflexivity]. }
  assert (Hn : 0 <= N / scale) by (apply Z.div_pos; lia).
  assert (Hfit : scale * (N / scale) <= N)
    by (apply Z.mul_div_le; lia).
  set (n := Z.to_nat (N / scale)).
  set (k := Z.to_nat scale).
  assert (Hall : map (fun i => py_slice y (i * scale) ((i + 1) * scale))
                     (range_n (N / scale))
                 = map (fun i => firstn k (skipn (i * k) y)) (seq 0 n)).
  { rewrite range_n_seq, map_map. apply map_ext. intros i.
    apply py_slice_segment. lia. }
  assert (Hlens : Forall (fun seg : list A => Z.of_nat (length seg) = scale)
                    (map (fun i => firstn k (skipn (i * k) y)) (seq 0 n))).
  { apply Forall_forall. intros seg Hseg.
    apply in_map_iff in Hseg as (i & <- & Hi). apply in_seq in Hi.
    rewrite length_firstn, length_skipn.
    assert ((i + 1) * k <= length y)%nat by (unfold N in *; nia).
    nia. }
  assert (Hsegs : segs = map (fun i => firstn k (skipn (i * k) y)) (seq 0 n)).
  { unfold segs, dfa_segments. rewrite Hdiv, Hall. apply filter_all.
    intros seg Hseg.
    pose proof (proj1 (Forall_forall _ _) Hlens seg Hseg) as Hlen.
    cbv beta in Hlen. rewrite Hlen.
    destruct (Z.ltb_spec scale 2); [lia | reflexivity]. }
  rewrite Hsegs. split; [| split].
  - rewrite length_map, length_seq. unfold n. lia.
  - exact Hlens.
  - rewrite slices_tile. f_equal. unfold n, k. nia.
Qed.

(** C7, as the code has it.  At a scale [2 <= scale <= N] the profile is cut
    into [N // scale] consecutive segments of exactly [scale] samples, which
    tile its first [scale * (N // scale)] samples: the trailing [N mod scale]
    samples are in no segment, however many they are.  The residual of a
    segment is taken against the degree-one fit of the segment, and the
    fluctuation of the scale is the mean of the segments' RMS residuals. *)
Theorem scale_fluctuation {numlib : NumLib} (y : list npfloat) (scale : Z) :
  let N := Z.of_nat (length y) in
  2 <= scale -> scale <= N ->
  let segs := dfa_segments y scale (np_floordiv N scale) in
  Z.of_nat (length segs) = N / scale /\
  Forall (fun seg => Z.of_nat (length seg) = scale) segs /\
  concat segs = firstn (Z.to_nat (scale * (N / scale))) y /\
  (forall seg fit,
     np_polyfit1 (np_arange (length seg)) seg = Ret fit ->
     detrended_rms seg =
       Ret (np_sqrt (np_mean
              (map (fun st => fmul (fsub (fst st) (snd st))
                                   (fsub (fst st) (snd st)))
                   (combine seg
                      (np_polyval1 fit (np_arange (length seg)))))))) /\
  (forall F, for_each detrended_rms segs = Ret F ->
     scale_fluct y N scale = Ret [np_mean F]).
Proof.
  intros N Hscale HN segs.
  destruct (dfa_segments_tile y scale Hscale HN) as (Hcount & Hlens & Htile).
  fold N segs in Hcount, Hlens, Htile.
  split; [exact Hcount |]. split; [exact Hlens |]. split; [exact Htile |].
  split.
  - intros seg fit Hfit. unfold detrended_rms. rewrite Hfit. reflexivity.
  - intros F HF. unfold scale_fluct. fold segs.
    assert (Hone : 1 <= N / scale)
      by (apply Z.div_le_lower_bound; lia).
    assert (Hdiv : np_floordiv N scale = N / scale).
    { unfold np_floordiv. destruct (Z.eqb_spec scale 0); [lia | reflexivity]. }
    unfold segs in HF |- *. rewrite Hdiv in HF |- *.
    destruct (Z.ltb_spec (N / scale) 1) as [Hlt | _]; [lia |].
    rewrite HF. simpl.
    apply for_each_length in HF.
    destruct F as [| f F]; [| reflexivity].
    unfold segs in Hcount. rewrite Hdiv in Hcount.
    simpl in HF. rewrite <- HF in Hcount. simpl in Hcount. lia.
Qed.

Lemma scale_fluctuation_example :
  let y := profile_25 in
  let scale := 10 in
  let N := Z.of_nat (length y) in
  let segs := dfa_segments y scale (np_floordiv N scale) in
  2 <= scale /\ scale <= N /\
  Z.of_nat (length segs) = N / scale /\
  Forall (fun seg => Z.of_nat (length seg) = scale) segs /\
  concat segs = firstn (Z.to_nat (scale * (N / scale))) y /\
  (forall seg fit,
     np_polyfit1 (NumLib := toy_numlib) (np_arange (length seg)) seg = Ret fit ->
     detrended_rms (numlib := toy_numlib) seg =
       Ret (np_sqrt (np_mean
              (map (fun st => fmul (fsub (fst st) (snd st))
                                   (fsub (fst st) (snd st)))
                   (combine seg
                      (np_polyval1 fit (np_arange (length seg)))))))) /\
  (forall F, for_each (detrended_rms (numlib := toy_numlib)) segs = Ret F ->
     scale_fluct (numlib := toy_numlib) y N scale = Ret [np_mean F]).
Proof.
  cbv zeta.
  assert (H2 : 2 <= 10) by lia.
  assert (HN : 10 <= Z.of_nat (length profile_25)) by (vm_compute; discriminate).
  split; [exact H2 |]. split; [exact HN |].
  exact (scale_fluctuation (numlib := toy_numlib) profile_25 10 H2 HN).
Defined.

(** C7 fails as stated: at scale 10, a scale of a segment of 25 samples, the
    segments hold 20 samples; the remainder of 5 is not kept as a segment. *)
Lemma trailing_remainder_dropped :
  In 10 (dfa_scales 25) /\
  length profile_25 = 25%nat /\
  2 <= 25 mod 10 /\
  length (dfa_segments profile_25 10 (np_floordiv 25 10)) = 2%nat /\
  length (concat (dfa_segments profile_25 10 (np_floordiv 25 10))) = 20%nat.
Proof.
  split; [apply first_scale_is_10; lia |].
  split; [reflexivity |]. split; [vm_compute; discriminate |].
  split; reflexivity.
Qed.

(** At [N = 40] the progression is constant: truncation leaves a single
    distinct scale. *)
Lemma dfa_scales_40 : dfa_scales 40 = repeat 10 8.
Proof.
  unfold dfa_scales, np_logspace. rewrite np_linspace_8. cbv zeta.
  change (40 / 4) with 10.
  assert (HL : log10R 10 = 1%R).
  { unfold log10R. field. pose proof ln_10_pos. lra. }
  rewrite HL. cbn [map repeat].
  replace ((1 - 1) / 7)%R with 0%R by lra.
  repeat match goal with
         | |- context [Rpower 10 ?e] =>
             lazymatch e with
             | 1%R => fail
             | _ => replace e with 1%R by lra
             end
         end.
  rewrite Rpower_1 by lra.
  rewrite (astype_int_IZR 10) by lia. reflexivity.
Qed.

(* ===================================================================== *)
(** * Further properties of the code *)
(* ===================================================================== *)

(** ** The layout of the windows *)

(** X1.  For a positive step the [k]-th window starts at sample [k * step];
    every window lies inside the recording, and one more window would not:
    the final partial window is dropped, not padded. *)
Theorem window_starts_layout (ws step n : Z) :
  0 < step ->
  let count := if ws <=? n then (n - ws) / step + 1 else 0 in
  window_starts_of ws step n = Ret (map (fun k => k * step) (range_n count)) /\
  (forall k, 0 <= k < count -> 0 <= k * step /\ k * step + ws <= n) /\
  (ws <= n -> n < count * step + ws).
Proof.
  intros Hstep count. split; [apply window_starts_of_values; exact Hstep |].
  unfold count. destruct (Z.leb_spec ws n) as [Hle | Hgt].
  - pose proof (Z.mul_div_le (n - ws) step Hstep) as Hlow.
    pose proof (Z.mul_succ_div_gt (n - ws) step Hstep) as Hhigh.
    split.
    + intros k Hk. apply window_count_bounds; [exact Hstep |].
      destruct (Z.leb_spec ws n); [exact Hk | lia].
    + intros _. nia.
  - split; [intros k Hk; lia | intros H; lia].
Qed.

Lemma window_starts_layout_default :
  0 < 250 /\
  window_starts_of 500 250 1300 =
    Ret (map (fun k => k * 250)
             (range_n (if 500 <=? 1300 then (1300 - 500) / 250 + 1 else 0))) /\
  (forall k, 0 <= k < (if 500 <=? 1300 then (1300 - 500) / 250 + 1 else 0) ->
     0 <= k * 250 /\ k * 250 + 500 <= 1300) /\
  (500 <= 1300 ->
   1300 < (if 500 <=? 1300 then (1300 - 500) / 250 + 1 else 0) * 250 + 500).
Proof.
  assert (H : 0 < 250) by lia.
  split; [exact H | exact (window_starts_layout 500 250 1300 H)].
Defined.

(** ** The rows of the silver table *)

(** X2.  The silver layer raises exactly when the loops have produced no
    feature row (DuckDB refuses the registration of the empty frame): when
    no subject of the table has a full window of samples, or the table has
    no channel column.  The table it returns otherwise is not empty, and a
    feature row is only ever emitted for a subject of the table, a channel
    of [EEG_CHANNELS] that is a column of the table, and a window that lies
    inside that subject's recording. *)
Theorem silver_rows_keys {numlib : NumLib} (raw_df : DataFrame) :
  match create_silver_features raw_df with
  | Ret silver =>
      silver <> [] /\
      forall r, In r silver ->
        In (subject r) (map raw_subject (rows raw_df)) /\
        In (channel r) EEG_CHANNELS /\
        In (channel r) (columns raw_df) /\
        0 <= window_idx r /\
        window_idx r * step_samples + window_samples
          <= Z.of_nat (length (subject_data_of raw_df (subject r)))
  | Raise e =>
      e = DuckDBError /\
      forall subj c,
        In c EEG_CHANNELS -> In c (columns raw_df) ->
        Z.of_nat (length (subject_data_of raw_df subj)) < window_samples
  end.
Proof.
  destruct (create_silver_features raw_df) as [silver | e] eqn:Hsilver.
  - apply create_silver_features_Ret in Hsilver as [Hsilver Hne].
    split; [exact Hne |].
    intros r Hr. exact (all_features_of_keys raw_df silver r Hsilver Hr).
  - split; [apply (create_silver_features_Raise raw_df e); exact Hsilver |].
    intros subj c Hc1 Hc2.
    destruct (Z.lt_ge_cases (Z.of_nat (length (subject_data_of raw_df subj)))
                window_samples) as [Hlt | Hge]; [exact Hlt |].
    destruct (create_silver_features_some_window raw_df subj c Hge Hc1 Hc2)
      as [silver Habs].
    rewrite Hsilver in Habs. discriminate Habs.
Qed.

(** X3.  In every table the silver layer returns, each subject has one row
    per window and per channel of the table: [count * channels] rows, where
    [count] is the number of its windows (none for a recording shorter than
    a window, and none for a subject that is not in the table). *)
Theorem silver_rows_per_subject {numlib : NumLib} (raw_df : DataFrame)
    (silver : list FeatureRow) :
  create_silver_features raw_df = Ret silver ->
  forall subj,
    let N := Z.of_nat (length (subject_data_of raw_df subj)) in
    Z.of_nat (length (filter (fun r => String.eqb (subject r) subj) silver)) =
    (if window_samples <=? N
     then (N - window_samples) / step_samples + 1 else 0)
    * Z.of_nat (length (filter (fun c => existsb (String.eqb c)
                                                 (columns raw_df))
                               EEG_CHANNELS)).
Proof.
  intros Hsilver subj N.
  destruct (silver_rows_of_subject raw_df silver subj Hsilver)
    as (out & Hout & ->).
  assert (Hstep : 0 < step_samples) by (rewrite step_samples_value; lia).
  apply (proj1 (subject_rows_shape _ _ _ _ _ Hstep Hout)).
  rewrite window_samples_value. lia.
Qed.

(** X4.  Composing the two layers on a table the silver layer returns: the
    subject mart has a row exactly for the subjects with at least one
    window, and its [n_windows] is the number of windows of the subject,
    provided the table has a channel column. *)
Theorem subject_mart_window_counts {numlib : NumLib} (raw_df : DataFrame)
    (silver : list FeatureRow) :
  (exists c, In c EEG_CHANNELS /\ In c (columns raw_df)) ->
  create_silver_features raw_df = Ret silver ->
  forall subj,
    let N := Z.of_nat (length (subject_data_of raw_df subj)) in
    if window_samples <=? N
    then exists a, In a (gold_subject_stats silver) /\
                   ss_subject a = subj /\
                   ss_n_windows a = (N - window_samples) / step_samples + 1
    else forall a, In a (gold_subject_stats silver) -> ss_subject a <> subj.
Proof.
  intros Hchan Hsilver subj N.
  destruct (silver_rows_of_subject raw_df silver subj Hsilver)
    as (out & Hout & Hfilter).
  assert (Hstep : 0 < step_samples) by (rewrite step_samples_value; lia).
  assert (Hws : 10 <= window_samples) by (rewrite window_samples_value; lia).
  destruct (subject_rows_shape _ _ _ _ _ Hstep Hout) as (_ & Hkeys & Hall).
  fold N in Hkeys, Hall. specialize (Hall Hws Hchan).
  destruct (Z.leb_spec window_samples N) as [Hle | Hgt].
  - set (count := (N - window_samples) / step_samples + 1) in *.
    assert (Hcount : 1 <= count).
    { unfold count.
      assert (0 <= (N - window_samples) / step_samples)
        by (apply Z.div_pos; lia). lia. }
    destruct (Hall 0 ltac:(lia)) as (r0 & Hr0 & _).
    assert (Hr0s : In r0 silver).
    { rewrite <- Hfilter in Hr0. apply filter_In in Hr0. tauto. }
    assert (Hsub0 : subject r0 = subj) by (apply (Hkeys r0 Hr0)).
    exists (subject_stats_of silver subj). split; [| split].
    + unfold gold_subject_stats. apply sort_by_In. apply in_map.
      apply unique_from_spec. split; [| intros []].
      rewrite <- Hsub0. apply in_map; exact Hr0s.
    + reflexivity.
    + cbn [ss_n_windows subject_stats_of]. rewrite Hfilter.
      unfold count_distinct.
      assert (Hperm : Permutation (nodup Z.eq_dec (map window_idx out))
                                  (range_n count)).
      { apply NoDup_Permutation.
        - apply NoDup_nodup.
        - apply range_n_NoDup.
        - intros k. rewrite nodup_In, range_n_In, in_map_iff. split.
          + intros (r & <- & Hr). apply (Hkeys r Hr).
          + intros Hk. destruct (Hall k Hk) as (r & Hr & Hidx).
            exists r. split; assumption. }
      rewrite (Permutation_length Hperm), range_n_seq, length_map, length_seq.
      lia.
  - intros a Ha Heq. unfold gold_subject_stats in Ha.
    apply sort_by_In, in_map_iff in Ha as (s & <- & Hs).
    cbn [ss_subject subject_stats_of] in Heq. subst s.
    apply unique_from_spec in Hs as [Hs _].
    apply in_map_iff in Hs as (r & Hsub & Hr).
    assert (Hrout : In r out).
    { rewrite <- Hfilter. apply filter_In. split; [exact Hr |].
      apply String.eqb_eq; exact Hsub. }
    destruct (Hkeys r Hrout) as (_ & _ & _ & Hidx & _). lia.
Qed.

(** ** The loader *)

Lemma for_each_read_subject (fs : list CsvFile)
    (all_data : list (list RawRow)) :
  for_each read_subject fs = Ret all_data ->
  Forall (fun f => lines f <> [] /\ (n_cols f <= length EEG_CHANNELS)%nat /\
                   Forall (fun l => (length l <= n_cols f)%nat) (lines f)) fs /\
  length (concat all_data) = list_sum (map (fun f => length (lines f)) fs).
Proof.
  intros H. apply for_each_Forall2 in H.
  induction H as [| f rs fs all_data Hrs Hall [IH1 IH2]]; simpl.
  - split; [constructor | reflexivity].
  - split.
    + constructor; [| exact IH1].
      apply (read_subject_Ret f rs Hrs).
    + rewrite length_app, IH2, (read_subject_length f rs Hrs). reflexivity.
Qed.

(** A loop over files of which one is not read raises. *)
Lemma for_each_read_subject_Raise (fs : list CsvFile) (f : CsvFile) :
  In f fs -> (exists e, read_subject f = Raise e) ->
  exists e, for_each read_subject fs = Raise e.
Proof.
  intros Hin [e He].
  destruct (for_each read_subject fs) as [all_data | e'] eqn:Hall;
    [| exists e'; reflexivity].
  exfalso. apply for_each_Forall2 in Hall. clear -Hall Hin He.
  induction Hall as [| g rg gs all Hg Hall IH]; [destruct Hin |].
  destruct Hin as [-> | Hin]; [congruence | exact (IH Hin)].
Qed.

(** X5.  The loader reads the first five files only, and raises
    [FileNotFoundError] when there is none.  When it returns, every file it
    has read has at least one line, at most 19 columns and no line of more
    fields than its first, and the table holds one row per line read.  A
    file without lines among those read makes it raise, and so does a file
    of more columns than there are channel names. *)
Theorem load_raw_eeg_data_outcome (files : list CsvFile) :
  load_raw_eeg_data files = load_raw_eeg_data (firstn 5 files) /\
  (files = [] -> load_raw_eeg_data files = Raise FileNotFoundError) /\
  (forall raw_df, load_raw_eeg_data files = Ret raw_df ->
     files <> [] /\
     Forall (fun f => lines f <> [] /\ (n_cols f <= 19)%nat /\
                      Forall (fun l => (length l <= n_cols f)%nat) (lines f))
            (firstn 5 files) /\
     length (rows raw_df) =
       list_sum (map (fun f => length (lines f)) (firstn 5 files))) /\
  (forall f, In f (firstn 5 files) ->
     lines f = [] \/ (19 < n_cols f)%nat ->
     exists e, load_raw_eeg_data files = Raise e).
Proof.
  split; [| split; [| split]].
  - unfold load_raw_eeg_data. rewrite firstn_firstn. reflexivity.
  - intros ->. reflexivity.
  - intros raw_df Hload.
    apply load_raw_eeg_data_Ret in Hload as (Hne & all_data & Hall & ->).
    split; [intros ->; apply Hne; reflexivity |].
    cbn [rows]. exact (for_each_read_subject _ _ Hall).
  - intros f Hin Hbad.
    destruct (load_raw_eeg_data files) as [raw_df | e] eqn:Hload;
      [| exists e; reflexivity].
    exfalso.
    apply load_raw_eeg_data_Ret in Hload as (_ & all_data & Hall & _).
    destruct (for_each_read_subject_Raise _ f Hin (read_subject_Raise f Hbad))
      as [e He].
    rewrite Hall in He. discriminate He.
Qed.

Lemma load_raw_eeg_data_n_cols (files : list CsvFile) (raw_df : DataFrame) :
  load_raw_eeg_data files = Ret raw_df ->
  Forall (fun f => (n_cols f <= 19)%nat) (firstn 5 files).
Proof.
  intros Hload.
  apply load_raw_eeg_data_Ret in Hload as (_ & all_data & Hall & _).
  eapply Forall_impl; [| exact (proj1 (for_each_read_subject _ _ Hall))].
  intros f (_ & H & _). exact H.
Qed.

(** X6.  When the stems of the files are distinct, the rows of a subject in
    the table are exactly the rows read from its file, in file order: the
    [i]-th has [sample_idx = i] and [time_sec = i / 250], and there are as
    many as the file has lines. *)
Theorem load_raw_eeg_data_subject_rows (files : list CsvFile)
    (raw_df : DataFrame) (f : CsvFile) :
  NoDup (map stem files) ->
  load_raw_eeg_data files = Ret raw_df ->
  In f (firstn 5 files) ->
  read_subject f = Ret (subject_data_of raw_df (stem f)) /\
  length (subject_data_of raw_df (stem f)) = length (lines f) /\
  forall i r, nth_error (subject_data_of raw_df (stem f)) i = Some r ->
    raw_subject r = stem f /\
    raw_sample_idx r = Z.of_nat i /\
    raw_time_sec r = (inject_Z (Z.of_nat i) / inject_Z SAMPLING_RATE)%Q.
Proof.
  intros Hnd Hload Hin.
  pose proof (load_raw_eeg_data_subject files raw_df f Hnd Hload Hin) as Hrs.
  split; [exact Hrs | split; [exact (read_subject_length f _ Hrs) |]].
  intros i r Hr.
  destruct (read_subject_rows f _ Hrs) as [Ht Hsubj].
  split; [apply Hsubj; eapply nth_error_In; exact Hr |].
  split; [| exact (Ht i r Hr)].
  revert Hr. generalize (subject_data_of raw_df (stem f)) as rs, Hrs.
  intros rs Hrs' Hr. apply read_subject_Ret in Hrs' as (_ & ->).
  rewrite nth_error_map, enumerate_from_nth_error in Hr.
  destruct (nth_error (lines f) i); [| discriminate Hr].
  simpl in Hr. injection Hr as <-. reflexivity.
Qed.

(** ** The columns of the table *)

Lemma NoDup_app_disjoint {A : Type} (l l' : list A) (x : A) :
  NoDup (l ++ l') -> In x l -> ~ In x l'.
Proof.
  induction l as [| y l IH]; simpl; intros Hnd Hx Hx'; [destruct Hx |].
  inversion Hnd as [| ? ? Hnotin Hnd']; subst.
  destruct Hx as [-> | Hx].
  - apply Hnotin. apply in_or_app. right; exact Hx'.
  - exact (IH Hnd' Hx Hx').
Qed.

Lemma firstn_incl_NoDup (E : list string) (a : nat) (c : string) :
  NoDup E -> In c (skipn a E) -> ~ In c (firstn a E).
Proof.
  intros Hnd Hskip Hfirst.
  rewrite <- (firstn_skipn a E) in Hnd.
  exact (NoDup_app_disjoint _ _ c Hnd Hfirst Hskip).
Qed.

Lemma union_columns_prefixes (E : list string) (a b : nat) :
  NoDup E ->
  union_columns (firstn a E) (firstn b E) = firstn (Nat.max a b) E.
Proof.
  intros Hnd. unfold union_columns.
  destruct (Nat.le_gt_cases b a) as [Hle | Hgt].
  - rewrite Nat.max_l by exact Hle. rewrite filter_none; [apply app_nil_r |].
    intros c Hc. apply negb_false_iff, existsb_eqb_In.
    replace b with (Nat.min b a) in Hc by lia.
    rewrite <- firstn_firstn in Hc.
    rewrite <- (firstn_skipn b (firstn a E)). apply in_or_app. left; exact Hc.
  - rewrite Nat.max_r by lia.
    replace b with (a + (b - a))%nat by lia.
    rewrite firstn_plus, filter_app, filter_none, filter_all.
    + reflexivity.
    + intros c Hc. apply negb_true_iff.
      destruct (existsb (String.eqb c) (firstn a E)) eqn:Hex; [| reflexivity].
      apply existsb_eqb_In in Hex. exfalso.
      apply (firstn_incl_NoDup E a c Hnd); [| exact Hex].
      rewrite <- (firstn_skipn (b - a) (skipn a E)).
      apply in_or_app. left; exact Hc.
    + intros c Hc. apply negb_false_iff, existsb_eqb_In. exact Hc.
Qed.

Lemma fold_union_columns_prefixes (E : list string) (ns : list nat) (a : nat) :
  NoDup E ->
  fold_left union_columns (map (fun n => firstn n E) ns) (firstn a E)
  = firstn (fold_left Nat.max ns a) E.
Proof.
  intros Hnd. revert a; induction ns as [| n ns IH]; intros a; simpl;
    [reflexivity |].
  rewrite union_columns_prefixes by exact Hnd. apply IH.
Qed.

Lemma filter_prefix (E : list string) (m : nat) :
  NoDup E ->
  filter (fun c => existsb (String.eqb c) (firstn m E)) E = firstn m E.
Proof.
  intros Hnd.
  set (p := fun c => existsb (String.eqb c) (firstn m E)).
  rewrite <- (firstn_skipn m E) at 1.
  rewrite filter_app, filter_all, filter_none; [apply app_nil_r | |]; unfold p.
  - intros c Hc. destruct (existsb _ _) eqn:Hex; [| reflexivity].
    apply existsb_eqb_In in Hex. exfalso.
    exact (firstn_incl_NoDup E m c Hnd Hc Hex).
  - intros c Hc. apply existsb_eqb_In. exact Hc.
Qed.

Lemma load_raw_eeg_data_columns (files : list CsvFile) (raw_df : DataFrame) :
  load_raw_eeg_data files = Ret raw_df ->
  columns raw_df =
  firstn (fold_left Nat.max (map n_cols (firstn 5 files)) 0%nat) EEG_CHANNELS.
Proof.
  intros H. apply load_raw_eeg_data_Ret in H as (_ & all_data & _ & ->).
  cbn [columns].
  rewrite <- (fold_union_columns_prefixes EEG_CHANNELS _ 0 EEG_CHANNELS_NoDup).
  rewrite map_map. reflexivity.
Qed.

Lemma fold_max_le (ns : list nat) (a b : nat) :
  (a <= b)%nat -> Forall (fun n => n <= b)%nat ns ->
  (fold_left Nat.max ns a <= b)%nat.
Proof.
  intros Ha Hns. revert a Ha.
  induction Hns as [| n ns Hn Hns IH]; intros a Ha; simpl; [exact Ha |].
  apply IH. lia.
Qed.

(** X7.  The channel columns of the table are the first [m] names of
    [EEG_CHANNELS], [m] being the largest column count among the files
    read; channels beyond it never reach a feature table the silver layer
    returns. *)
Theorem table_columns_prefix {numlib : NumLib} (files : list CsvFile)
    (raw_df : DataFrame) (silver : list FeatureRow) :
  load_raw_eeg_data files = Ret raw_df ->
  create_silver_features raw_df = Ret silver ->
  let m := fold_left Nat.max (map n_cols (firstn 5 files)) 0%nat in
  (m <= 19)%nat /\
  columns raw_df = firstn m EEG_CHANNELS /\
  forall r, In r silver -> In (channel r) (firstn m EEG_CHANNELS).
Proof.
  intros Hload Hsilver m.
  pose proof (load_raw_eeg_data_columns files raw_df Hload) as Hcols.
  fold m in Hcols. split; [| split; [exact Hcols |]].
  - unfold m. apply fold_max_le; [lia |].
    apply Forall_forall. intros n Hn.
    apply in_map_iff in Hn as (g & <- & Hg).
    exact (proj1 (Forall_forall _ _)
             (load_raw_eeg_data_n_cols files raw_df Hload) g Hg).
  - intros r Hr.
    apply create_silver_features_Ret in Hsilver as [Hsilver _].
    rewrite <- Hcols.
    apply (all_features_of_keys raw_df silver r Hsilver Hr).
Qed.

(** X8.  End to end, in a feature table the silver layer returns, a file of
    [n] lines with a stem of its own has one feature row per window of [n]
    samples and per channel column: [(floor((n - 500) / 250) + 1) * m] rows
    when [n >= 500], and none otherwise. *)
Theorem pipeline_rows_per_file {numlib : NumLib} (files : list CsvFile)
    (raw_df : DataFrame) (silver : list FeatureRow) :
  NoDup (map stem files) ->
  load_raw_eeg_data files = Ret raw_df ->
  create_silver_features raw_df = Ret silver ->
  forall f, In f (firstn 5 files) ->
    let n := Z.of_nat (length (lines f)) in
    let m := fold_left Nat.max (map n_cols (firstn 5 files)) 0%nat in
    Z.of_nat (length (filter (fun r => String.eqb (subject r) (stem f))
                             silver)) =
    (if 500 <=? n then (n - 500) / 250 + 1 else 0) * Z.of_nat m.
Proof.
  intros Hnd Hload Hsilver f Hf n m.
  destruct (silver_rows_of_subject raw_df silver (stem f) Hsilver)
    as (out & Hout & ->).
  assert (Hstep : 0 < step_samples) by (rewrite step_samples_value; lia).
  pose proof (proj1 (subject_rows_shape _ _ _ _ _ Hstep Hout)) as Hlen.
  cbv zeta in Hlen.
  rewrite window_samples_value, step_samples_value in Hlen.
  rewrite Hlen by lia. clear Hlen.
  rewrite (read_subject_length f _
             (load_raw_eeg_data_subject files raw_df f Hnd Hload Hf)).
  fold n.
  rewrite (load_raw_eeg_data_columns files raw_df Hload). fold m.
  rewrite (filter_prefix EEG_CHANNELS m EEG_CHANNELS_NoDup).
  rewrite length_firstn.
  assert (Hm : (m <= 19)%nat).
  { unfold m. apply fold_max_le; [lia |].
    apply Forall_forall. intros k Hk.
    apply in_map_iff in Hk as (g & <- & Hg).
    exact (proj1 (Forall_forall _ _)
             (load_raw_eeg_data_n_cols files raw_df Hload) g Hg). }
  change (length EEG_CHANNELS) with 19%nat. f_equal. lia.
Qed.

(** X9.  Over the table the loader builds from files of distinct stems, in a
    feature table the silver layer returns the window of index [k] spans
    samples [k * step_samples] to [k * step_samples + window_samples - 1] of
    its subject: [window_start] and [window_end] are the [time_sec] of these
    two samples, the first and the last of the window. *)
Theorem window_times {numlib : NumLib} (files : list CsvFile)
    (raw_df : DataFrame) (silver : list FeatureRow) :
  NoDup (map stem files) ->
  load_raw_eeg_data files = Ret raw_df ->
  create_silver_features raw_df = Ret silver ->
  forall r, In r silver ->
    exists a b,
      nth_error (subject_data_of raw_df (subject r))
                (Z.to_nat (window_idx r * step_samples)) = Some a /\
      nth_error (subject_data_of raw_df (subject r))
                (Z.to_nat (window_idx r * step_samples + window_samples - 1))
        = Some b /\
      raw_sample_idx a = window_idx r * step_samples /\
      raw_sample_idx b = window_idx r * step_samples + window_samples - 1 /\
      window_start r = raw_time_sec a /\
      window_end r = raw_time_sec b.
Proof.
  intros Hnd Hload Hsilver r Hr.
  apply create_silver_features_Ret in Hsilver as [Hsilver _].
  unfold all_features_of in Hsilver.
  assert (Hws : 1 <= window_samples) by (rewrite window_samples_value; lia).
  assert (Hstep : 0 < step_samples) by (rewrite step_samples_value; lia).
  apply (for_extend_In _ _ _ r Hsilver) in Hr as (subj & out & _ & Hout & Hr).
  destruct (subject_rows_spec window_samples step_samples raw_df subj
              Hws Hstep) as (starts & out' & Hstarts & Hout' & Hspec).
  rewrite Hout in Hout'. injection Hout' as <-.
  destruct (Hspec r Hr) as (Hsub & s & Hin & Hs & H0 & H1).
  rewrite (window_starts_of_values _ _ _ Hstep) in Hstarts.
  injection Hstarts as <-.
  apply enumerate_starts_In in Hin as [Hidx ->].
  rewrite nth_error_map in H0, H1. rewrite Hsub.
  destruct (nth_error (subject_data_of raw_df subj)
                      (Z.to_nat (window_idx r * step_samples)))
    as [a |] eqn:Ha; [| discriminate].
  destruct (nth_error (subject_data_of raw_df subj)
              (Z.to_nat (window_idx r * step_samples + window_samples - 1)))
    as [b |] eqn:Hb; [| discriminate].
  simpl in H0, H1. injection H0 as H0. injection H1 as H1.
  exists a, b. split; [reflexivity |]. split; [reflexivity |].
  rewrite (load_raw_eeg_data_sample_idx files raw_df subj _ a Hnd Hload Ha).
  rewrite (load_raw_eeg_data_sample_idx files raw_df subj _ b Hnd Hload Hb).
  split; [lia |]. split; [lia |]. split; symmetry; assumption.
Qed.

(** ** GROUP BY partitions the rows *)

Lemma zsum_Permutation (l l' : list Z) :
  Permutation l l' -> fold_right Z.add 0 l = fold_right Z.add 0 l'.
Proof.
  induction 1; simpl; lia.
Qed.

Lemma count_key_once (keys : list string) (k : string) :
  NoDup keys -> In k keys ->
  fold_right Z.add 0
    (map (fun k' => if String.eqb k k' then 1 else 0) keys) = 1.
Proof.
  induction 1 as [| k0 keys Hnotin Hnd IH]; intros Hin; [destruct Hin |].
  simpl. destruct (String.eqb_spec k k0) as [-> | Hne].
  - assert (Hzero : fold_right Z.add 0
              (map (fun k' => if String.eqb k0 k' then 1 else 0) keys) = 0).
    { clear IH Hin Hnd. induction keys as [| k1 keys IH]; [reflexivity |].
      simpl. destruct (String.eqb_spec k0 k1) as [-> | _].
      - exfalso. apply Hnotin. left; reflexivity.
      - rewrite IH; [reflexivity |]. intros H. apply Hnotin. right; exact H. }
    lia.
  - destruct Hin as [-> | Hin]; [contradiction |]. rewrite (IH Hin). lia.
Qed.

(** The groups of a list by key have as many rows as the list. *)
Lemma groups_partition {A : Type} (key : A -> string) (keys : list string)
    (l : list A) :
  NoDup keys -> (forall x, In x l -> In (key x) keys) ->
  fold_right Z.add 0
    (map (fun k => Z.of_nat (length (filter (fun x => String.eqb (key x) k) l)))
         keys)
  = Z.of_nat (length l).
Proof.
  intros Hnd. induction l as [| x l IH]; intros Hkeys.
  - clear. induction keys as [| k keys IHk]; [reflexivity |].
    simpl in *. exact IHk.
  - specialize (IH (fun y Hy => Hkeys y (or_intror Hy))).
    pose proof (count_key_once keys (key x) Hnd (Hkeys x (or_introl eq_refl)))
      as Hone.
    cbn [length]. rewrite Nat2Z.inj_succ, <- IH. unfold Z.succ.
    rewrite <- Hone. clear.
    induction keys as [| k keys IHk]; [reflexivity |].
    cbn [map fold_right]. rewrite IHk. cbn [filter].
    destruct (String.eqb (key x) k); cbn [length]; lia.
Qed.

(** X10.  The channel mart partitions the feature table: its [n_windows]
    values add up to the number of feature rows. *)
Theorem workload_mart_partitions {numlib : NumLib} (silver : list FeatureRow) :
  fold_right Z.add 0 (map ws_n_windows (gold_workload_stats silver))
  = Z.of_nat (length silver).
Proof.
  unfold gold_workload_stats.
  rewrite <- (zsum_Permutation _ _
                (Permutation_map ws_n_windows
                   (sort_by_Permutation
                      (fun a b => sql_desc (ws_avg_beta a) (ws_avg_beta b))
                      (map (workload_stats_of silver)
                           (unique (map channel silver)))))).
  rewrite map_map. cbn [ws_n_windows workload_stats_of].
  apply groups_partition; [apply unique_from_NoDup |].
  intros r Hr. apply unique_from_spec. split; [| intros []].
  apply in_map; exact Hr.
Qed.

(** ** Band power *)

Lemma mask_map_filter {A : Type} (p : A -> bool) (l : list A) :
  mask l (map p l) = filter p l.
Proof.
  induction l as [| x l IH]; simpl; [reflexivity |].
  destruct (p x); rewrite IH; reflexivity.
Qed.

Lemma np_trapz_short (y x : list npfloat) :
  (length x <= 1)%nat -> np_trapz y x = Fin 0.
Proof.
  intros Hx. destruct y as [| y0 [| y1 y]]; try reflexivity.
  destruct x as [| x0 [| x1 x]]; try reflexivity. simpl in Hx. lia.
Qed.

(** X11.  A band that holds at most one frequency bin of the spectrum has
    power 0: the trapezoidal rule needs two points. *)
Theorem bandpower_needs_two_bins {numlib : NumLib} (data : list npfloat)
    (fs : Z) (band : Q * Q) :
  let freqs := fst (sp_welch data fs (Z.min 256 (Z.of_nat (length data)))) in
  (length (filter (fun f => fleb (of_Q (fst band)) f && fleb f (of_Q (snd band)))
                  freqs) <= 1)%nat ->
  compute_bandpower data fs band = Fin 0.
Proof.
  intros freqs Hbins. unfold compute_bandpower. subst freqs.
  destruct (sp_welch data fs (Z.min 256 (Z.of_nat (length data))))
    as [freqs psd]. cbn [fst] in Hbins.
  apply np_trapz_short. rewrite mask_map_filter. exact Hbins.
Qed.

Lemma bandpower_needs_two_bins_example :
  (length (filter (fun f => fleb (of_Q (fst (band_of "alpha"))) f
                            && fleb f (of_Q (snd (band_of "alpha"))))
                  (fst (sp_welch (NumLib := toy_numlib) [Fin 1] 250
                          (Z.min 256 (Z.of_nat (length [Fin 1]))))))
   <= 1)%nat /\
  compute_bandpower (numlib := toy_numlib) [Fin 1] 250 (band_of "alpha")
    = Fin 0.
Proof.
  assert (H : (length (filter
                  (fun f => fleb (of_Q (fst (band_of "alpha"))) f
                            && fleb f (of_Q (snd (band_of "alpha"))))
                  (fst (sp_welch (NumLib := toy_numlib) [Fin 1] 250
                          (Z.min 256 (Z.of_nat (length [Fin 1]))))))
               <= 1)%nat).
  { eapply Nat.le_trans; [apply filter_length_le |]. simpl. lia. }
  split; [exact H |].
  exact (bandpower_needs_two_bins (numlib := toy_numlib) [Fin 1] 250
           (band_of "alpha") H).
Defined.

(** ** The variance of a window *)

Section SquareFacts.
Local Open Scope R_scope.

Lemma square_not_negative (x : npfloat) : fltb (fmul x x) (Fin 0) = false.
Proof.
  destruct x as [| | | a]; simpl; try reflexivity.
  apply Rltb_false. nra.
Qed.

Lemma np_mean_not_negative (l : list npfloat) :
  Forall (fun p => fltb p (Fin 0) = false) l ->
  fltb (np_mean l) (Fin 0) = false.
Proof.
  intros Hl. pose proof (fold_fadd_nonneg l 0 (Rle_refl 0) Hl) as H.
  unfold np_mean, np_sum, of_int.
  assert (Hn : 0 <= IZR (Z.of_nat (length l))) by (apply IZR_le; lia).
  destruct (fold_left fadd l (Fin 0)) as [| | | s]; simpl; try reflexivity.
  - destruct (Rltb (IZR (Z.of_nat (length l))) 0) eqn:Hneg; [| reflexivity].
    apply Rltb_true in Hneg. lra.
  - destruct H.
  - destruct H as [Hs _].
    destruct (Reqb (IZR (Z.of_nat (length l))) 0) eqn:Hz.
    + destruct (Reqb s 0) eqn:Hs0; [reflexivity |].
      destruct (Rltb 0 s) eqn:Hpos; [reflexivity |].
      apply Rltb_false in Hpos.
      assert (Heq : s = 0) by lra.
      apply Reqb_true in Heq. congruence.
    + simpl. apply Rltb_false.
      assert (Hpos : 0 < IZR (Z.of_nat (length l))).
      { destruct Hn as [Hlt | Heq]; [exact Hlt |].
        symmetry in Heq. apply Reqb_true in Heq. congruence. }
      unfold Rdiv. apply Rmult_le_pos; [exact Hs |].
      apply Rlt_le, Rinv_0_lt_compat; exact Hpos.
Qed.

End SquareFacts.

Lemma squares_not_negative (g : npfloat -> npfloat) (l : list npfloat) :
  Forall (fun p => fltb p (Fin 0) = false) (map (fun x => fmul (g x) (g x)) l).
Proof.
  apply Forall_forall. intros p Hp. apply in_map_iff in Hp as (x & <- & _).
  apply square_not_negative.
Qed.

(** X12.  Feature extraction raises [ValueError] on an empty window (the
    minimum of an empty array) and returns on every window of at least 10
    samples, the only ones the pipeline passes to it; the variance it
    reports is never negative (it may be NaN or infinite when the samples
    are). *)
Theorem variance_not_negative {numlib : NumLib}
    (window_data : list npfloat) (fs : Z) :
  (window_data = [] ->
   extract_window_features window_data fs = Raise ValueError) /\
  (10 <= Z.of_nat (length window_data) ->
   exists f,
     extract_window_features window_data fs = Ret f /\
     fltb (var_val f) (Fin 0) = false).
Proof.
  split.
  - intros ->. reflexivity.
  - intros Hlen.
    destruct (extract_window_features_returns window_data fs) as [f Hf].
    { intros ->. simpl in Hlen. lia. }
    exists f. split; [exact Hf |].
    unfold extract_window_features in Hf.
    apply bind_Ret_inv in Hf as (lo & _ & Hf).
    apply bind_Ret_inv in Hf as (hi & _ & Hf).
    apply bind_Ret_inv in Hf as (alpha & _ & Hf).
    injection Hf as <-. cbn [var_val].
    unfold np_var. apply np_mean_not_negative.
    apply (squares_not_negative (fun x => fsub x (np_mean window_data))).
Qed.

(** ** The loop over scales *)

Lemma np_cumsum_length (l : list npfloat) :
  length (np_cumsum l) = length l.
Proof.
  unfold np_cumsum. generalize (Fin 0) as acc.
  induction l as [| x l IH]; intros acc; simpl;
    [reflexivity | rewrite IH; reflexivity].
Qed.

Section ScaleLoop.
Context {numlib : NumLib}.

(** X13.  A scale of at most 1, or larger than the profile, contributes no
    fluctuation value and raises nothing: a zero scale is no division
    error, and segments of a single sample are skipped. *)
Theorem scale_fluct_degenerate (y : list npfloat) (scale : Z) :
  scale <= 1 \/ Z.of_nat (length y) < scale ->
  scale_fluct y (Z.of_nat (length y)) scale = Ret [].
Proof.
  intros Hscale. unfold scale_fluct.
  set (N := Z.of_nat (length y)).
  assert (HN : 0 <= N) by (unfold N; lia).
  destruct (Z.ltb_spec (np_floordiv N scale) 1) as [_ | Hge]; [reflexivity |].
  assert (Hone : scale = 1).
  { unfold np_floordiv in Hge.
    destruct (Z.eqb_spec scale 0) as [-> | Hnz]; [lia |].
    destruct Hscale as [Hle | Hgt].
    - destruct (Z.eq_dec scale 1) as [-> | Hne]; [reflexivity |].
      assert (Hneg : scale < 0) by lia.
      pose proof (Z.div_mod N scale Hnz) as Hdm.
      pose proof (Z.mod_neg_bound N scale Hneg) as Hmod.
      nia.
    - rewrite Z.div_small in Hge by lia. lia. }
  subst scale. unfold dfa_segments. rewrite filter_none; [reflexivity |].
  intros seg Hseg. apply in_map_iff in Hseg as (i & <- & _).
  apply negb_false_iff. apply Z.ltb_lt.
  unfold py_slice. rewrite length_firstn.
  replace (Z.to_nat ((i + 1) * 1 - i * 1)) with 1%nat by lia. lia.
Qed.

(** At a scale between 2 and the length of the profile the iteration either
    raises or appends exactly one fluctuation value. *)
Lemma scale_fluct_one_value (y : list npfloat) (scale : Z) :
  2 <= scale -> scale <= Z.of_nat (length y) ->
  match scale_fluct y (Z.of_nat (length y)) scale with
  | Raise _ => True
  | Ret fl => length fl = 1%nat
  end.
Proof.
  intros Hscale HN.
  destruct (dfa_segments_tile y scale Hscale HN) as (Hcount & _ & _).
  unfold scale_fluct.
  assert (Hone : 1 <= Z.of_nat (length y) / scale)
    by (apply Z.div_le_lower_bound; lia).
  assert (Hdiv : np_floordiv (Z.of_nat (length y)) scale
                 = Z.of_nat (length y) / scale).
  { unfold np_floordiv. destruct (Z.eqb_spec scale 0); [lia | reflexivity]. }
  rewrite Hdiv in *.
  destruct (Z.ltb_spec (Z.of_nat (length y) / scale) 1) as [Hlt | _]; [lia |].
  destruct (for_each detrended_rms
              (dfa_segments y scale (Z.of_nat (length y) / scale)))
    as [F | e] eqn:HF; cbn [bind]; [| exact I].
  apply for_each_length in HF.
  destruct F as [| f F]; [| reflexivity].
  simpl in HF. rewrite <- HF in Hcount. simpl in Hcount. lia.
Qed.

(** X14.  For a segment of at least 40 samples (every window of the pipeline
    has 500) the loop over the scales either raises or yields one
    fluctuation value for each of the 8 scales, so the too-few-scales
    sentinel is never taken: [compute_dfa] returns 0 only because a fit
    raised, and otherwise the slope fitted over all 8 scales. *)
Theorem dfa_uses_all_scales (data : list npfloat) :
  let N := Z.of_nat (length data) in
  let y := np_cumsum (map (fun x => fsub x (np_mean data)) data) in
  let scales := dfa_scales N in
  40 <= N ->
  match dfa_flucts y N scales with
  | Raise _ => compute_dfa data = Ret (Fin 0)
  | Ret flucts =>
      length flucts = 8%nat /\
      match np_polyfit1 (map (fun s => np_log10 (of_int s)) scales)
                        (map np_log10 flucts) with
      | Raise _ => compute_dfa data = Ret (Fin 0)
      | Ret fit => compute_dfa data = Ret (fst fit)
      end
  end.
Proof.
  intros N y scales HN.
  assert (Hy : Z.of_nat (length y) = N).
  { unfold y. rewrite np_cumsum_length, length_map. reflexivity. }
  assert (Hscales : length scales = 8%nat) by reflexivity.
  unfold compute_dfa, compute_dfa_body. fold N y scales.
  destruct (Z.ltb_spec N 16) as [Hlt | _]; [lia |].
  destruct (dfa_flucts y N scales) as [flucts | e] eqn:Hfl; cbn [bind py_try];
    [| reflexivity].
  assert (Hlen : length flucts = 8%nat).
  { unfold dfa_flucts in Hfl.
    assert (Hbody : forall s fl, In s scales ->
              scale_fluct y N s = Ret fl -> length fl = 1%nat).
    { intros s fl Hs Hfls.
      pose proof (dfa_scales_bounds N s HN Hs) as Hb.
      assert (Hle : s <= N).
      { pose proof (Z.mul_div_le N 4 ltac:(lia)). lia. }
      rewrite <- Hy in Hfls, Hle.
      pose proof (scale_fluct_one_value y s ltac:(lia) Hle) as H1.
      rewrite Hfls in H1. exact H1. }
    rewrite (for_extend_length _ _ _ _ Hbody Hfl). lia. }
  split; [exact Hlen |].
  rewrite Hlen. cbn [Z.of_nat Pos.of_succ_nat Pos.succ Z.ltb Z.compare
                       Pos.compare Pos.compare_cont].
  replace (firstn 8 scales) with scales
    by (symmetry; apply firstn_all2; rewrite Hscales; lia).
  destruct (np_polyfit1 _ _) as [fit | e]; reflexivity.
Qed.

End ScaleLoop.

Lemma scale_fluct_degenerate_example :
  (1 <= 1 \/ Z.of_nat (length profile_25) < 1) /\
  scale_fluct (numlib := toy_numlib) profile_25 (Z.of_nat (length profile_25)) 1 = Ret [].
Proof.
  assert (H : 1 <= 1 \/ Z.of_nat (length profile_25) < 1) by (left; lia).
  split; [exact H | exact (scale_fluct_degenerate (numlib := toy_numlib) profile_25 1 H)].
Defined.

Lemma dfa_uses_all_scales_example :
  40 <= Z.of_nat (length (repeat (Fin 1) 40)) /\
  match dfa_flucts (numlib := toy_numlib)
          (np_cumsum (map (fun x => fsub x (np_mean (repeat (Fin 1) 40)))
                          (repeat (Fin 1) 40)))
          (Z.of_nat (length (repeat (Fin 1) 40)))
          (dfa_scales (Z.of_nat (length (repeat (Fin 1) 40)))) with
  | Raise _ => compute_dfa (numlib := toy_numlib) (repeat (Fin 1) 40) = Ret (Fin 0)
  | Ret flucts =>
      length flucts = 8%nat /\
      match np_polyfit1 (NumLib := toy_numlib)
              (map (fun s => np_log10 (of_int s))
                   (dfa_scales (Z.of_nat (length (repeat (Fin 1) 40)))))
              (map np_log10 flucts) with
      | Raise _ => compute_dfa (numlib := toy_numlib) (repeat (Fin 1) 40) = Ret (Fin 0)
      | Ret fit => compute_dfa (numlib := toy_numlib) (repeat (Fin 1) 40) = Ret (fst fit)
      end
  end.
Proof.
  assert (H : 40 <= Z.of_nat (length (repeat (Fin 1) 40)))
    by (rewrite repeat_length; lia).
  split; [exact H | exact (dfa_uses_all_scales (numlib := toy_numlib) (repeat (Fin 1) 40) H)].
Defined.

(** ** Where the features of a row come from *)

Section FeatureSource.
Context {numlib : NumLib}.

Lemma channel_loop_features (cols : list string) (subj : string) (k : Z)
    (w0 w1 : Q) (slice : list RawRow) (chs : list string)
    (out : list FeatureRow) (r : FeatureRow) :
  for_extend (channel_rows cols subj k w0 w1 slice) chs = Ret out ->
  In r out ->
  extract_window_features (map (fun row => cell row (channel r)) slice)
                          SAMPLING_RATE = Ret (features r).
Proof.
  intros Hout Hr.
  apply (for_extend_In _ _ _ r Hout) in Hr as (ch & rs & _ & Hrs & Hr).
  destruct (channel_rows_cases cols subj k w0 w1 slice ch)
    as [[_ Hnil] | (_ & _ & fs & Hfs & Hone)].
  - rewrite Hnil in Hrs. injection Hrs as <-. destruct Hr.
  - rewrite Hone in Hrs. injection Hrs as <-.
    destruct Hr as [<- | []]. exact Hfs.
Qed.

Lemma window_rows_features (ws : Z) (cols : list string) (subj : string)
    (subject_data : list RawRow) (k start_idx : Z) (out : list FeatureRow)
    (r : FeatureRow) :
  window_rows ws cols subj subject_data k start_idx = Ret out ->
  In r out ->
  extract_window_features
    (map (fun row => cell row (channel r))
         (py_slice subject_data start_idx (start_idx + ws)))
    SAMPLING_RATE = Ret (features r).
Proof.
  intros Hout Hr. unfold window_rows in Hout.
  apply bind_Ret_inv in Hout as (w0 & _ & Hout).
  apply bind_Ret_inv in Hout as (w1 & _ & Hout).
  exact (channel_loop_features _ _ _ _ _ _ _ _ r Hout Hr).
Qed.

(** The samples a row of the silver table was computed from. *)
Lemma silver_row_source (raw_df : DataFrame) (silver : list FeatureRow)
    (r : FeatureRow) :
  create_silver_features raw_df = Ret silver -> In r silver ->
  let window_data :=
    map (fun row => cell row (channel r))
        (py_slice (subject_data_of raw_df (subject r))
                  (window_idx r * step_samples)
                  (window_idx r * step_samples + window_samples)) in
  Z.of_nat (length window_data) = window_samples /\
  extract_window_features window_data SAMPLING_RATE = Ret (features r).
Proof.
  intros Hsilver Hr window_data.
  apply create_silver_features_Ret in Hsilver as [Hsilver _].
  unfold all_features_of in Hsilver.
  assert (Hstep : 0 < step_samples) by (rewrite step_samples_value; lia).
  apply (for_extend_In _ _ _ r Hsilver) in Hr as (subj & out & _ & Hout & Hr).
  destruct (proj1 (proj2 (subject_rows_shape _ _ _ _ _ Hstep Hout)) r Hr)
    as (_ & _ & Hsub & Hidx & _).
  pose proof (window_count_bounds _ _ _ _ Hstep Hidx) as [H0 H1].
  unfold subject_rows in Hout.
  rewrite (window_starts_of_values _ _ _ Hstep) in Hout. cbn [bind] in Hout.
  apply (for_extend_In _ _ _ r Hout) in Hr as ([i s] & o & Hin & Ho & Hr).
  cbn [fst snd] in Ho.
  apply enumerate_starts_In in Hin as [_ ->].
  assert (Hi : window_idx r = i).
  { unfold window_rows in Ho.
    apply bind_Ret_inv in Ho as (w0 & _ & Ho).
    apply bind_Ret_inv in Ho as (w1 & _ & Ho).
    apply (channel_loop_channels _ _ _ _ _ _ _ _ r Ho Hr). }
  subst i. unfold window_data. rewrite Hsub. split.
  - rewrite length_map, py_slice_length; [ring | lia | | exact H1].
    rewrite window_samples_value. lia.
  - exact (window_rows_features _ _ _ _ _ _ _ r Ho Hr).
Qed.

(** X15.  Every row of a feature table the silver layer returns holds the
    features of exactly the [window_samples] samples of its channel that its
    window covers: samples [window_idx * step_samples] up to, and excluding,
    [window_idx * step_samples + window_samples] of its subject. *)
Theorem silver_features_source (raw_df : DataFrame)
    (silver : list FeatureRow) :
  create_silver_features raw_df = Ret silver ->
  forall r, In r silver ->
    let window_data :=
      map (fun row => cell row (channel r))
          (py_slice (subject_data_of raw_df (subject r))
                    (window_idx r * step_samples)
                    (window_idx r * step_samples + window_samples)) in
    Z.of_nat (length window_data) = window_samples /\
    extract_window_features window_data SAMPLING_RATE = Ret (features r).
Proof.
  intros Hsilver r Hr. exact (silver_row_source raw_df silver r Hsilver Hr).
Qed.

(** X16.  When the spectrum estimate never holds a negative value, every row
    of a feature table the silver layer returns has a variance that is not
    negative and a spectral entropy that is a non-negative real number. *)
Theorem silver_value_ranges (raw_df : DataFrame) (silver : list FeatureRow) :
  (forall data fs nperseg,
     Forall (fun p => fltb p (Fin 0) = false)
            (snd (sp_welch data fs nperseg))) ->
  create_silver_features raw_df = Ret silver ->
  forall r, In r silver ->
    fltb (var_val (features r)) (Fin 0) = false /\
    exists h, spectral_entropy (features r) = Fin h /\ (0 <= h)%R.
Proof.
  intros Hwelch Hsilver r Hr.
  destruct (silver_row_source raw_df silver r Hsilver Hr) as [_ Hfs].
  revert Hfs. generalize (map (fun row => cell row (channel r))
        (py_slice (subject_data_of raw_df (subject r))
                  (window_idx r * step_samples)
                  (window_idx r * step_samples + window_samples))) as wd.
  intros wd Hfs. unfold extract_window_features in Hfs.
  apply bind_Ret_inv in Hfs as (lo & _ & Hfs).
  apply bind_Ret_inv in Hfs as (hi & _ & Hfs).
  apply bind_Ret_inv in Hfs as (alpha & _ & Hfs).
  injection Hfs as <-. cbn [var_val spectral_entropy].
  split.
  - unfold np_var. apply np_mean_not_negative.
    apply (squares_not_negative (fun x => fsub x (np_mean wd))).
  - unfold compute_spectral_entropy.
    pose proof (Hwelch wd SAMPLING_RATE (Z.min 256 (Z.of_nat (length wd))))
      as Hpsd.
    destruct (sp_welch wd SAMPLING_RATE (Z.min 256 (Z.of_nat (length wd))))
      as [freqs psd]. cbn [snd] in Hpsd.
    apply spectral_entropy_of_psd_nonneg; exact Hpsd.
Qed.

End FeatureSource.

(** ** The range of the spectral entropy *)

Section EntropyRange.
Local Open Scope R_scope.















End EntropyRange.


(** ** Example inputs *)

Lemma example_files_NoDup : NoDup (map stem example_files).
Proof.
  simpl. repeat (constructor; [simpl; intuition discriminate |]). constructor.
Qed.

Lemma example_files_load :
  exists raw_df, load_raw_eeg_data example_files = Ret raw_df.
Proof.
  destruct (load_raw_eeg_data example_files) as [raw_df | e] eqn:Hload;
    [exists raw_df; reflexivity | vm_compute in Hload; discriminate Hload].
Qed.

(** Subject s00 of the example table has 750 samples, a full window: the
    silver layer returns on it. *)
Lemma example_table_silver :
  exists silver,
    create_silver_features (numlib := toy_numlib) example_table = Ret silver.
Proof.
  apply (create_silver_features_some_window (numlib := toy_numlib)
           example_table "s00" "Fp1").
  - rewrite window_samples_value. unfold subject_data_of, example_table.
    cbn [rows]. rewrite filter_all.
    + rewrite length_map, range_n_seq, length_map, length_seq. lia.
    + intros r Hr. apply in_map_iff in Hr as (i & <- & _). reflexivity.
  - left; reflexivity.
  - left; reflexivity.
Qed.

(** So does the table loaded from the example files. *)
Lemma example_files_silver :
  exists raw_df silver,
    load_raw_eeg_data example_files = Ret raw_df /\
    create_silver_features (numlib := toy_numlib) raw_df = Ret silver.
Proof.
  destruct example_files_load as [raw_df Hload].
  exists raw_df.
  set (f := {| stem := "s00"; lines := repeat [Fin 1; Fin 0] 750 |}).
  assert (Hin : In f (firstn 5 example_files)) by (left; reflexivity).
  pose proof (load_raw_eeg_data_subject example_files raw_df f
                example_files_NoDup Hload Hin) as Hrs.
  apply read_subject_length in Hrs.
  pose proof (load_raw_eeg_data_columns example_files raw_df Hload) as Hcols.
  destruct (create_silver_features_some_window (numlib := toy_numlib)
              raw_df "s00" "Fp1") as [silver Hsilver].
  - rewrite window_samples_value.
    change (stem f) with "s00"%string in Hrs. rewrite Hrs.
    unfold f. cbn [lines]. rewrite repeat_length. lia.
  - left; reflexivity.
  - rewrite Hcols. left; reflexivity.
  - exists silver. split; [exact Hload | exact Hsilver].
Qed.

Lemma window_bounds_constant_example :
  exists raw_df silver,
    1 <= 500 /\ 1 <= 250 /\
    NoDup (map stem example_files) /\
    load_raw_eeg_data example_files = Ret raw_df /\
    create_silver_features_of (numlib := toy_numlib) 500 250 raw_df
      = Ret silver /\
    (forall r, In r silver ->
       exists a b,
         In a (subject_data_of raw_df (subject r)) /\
         In b (subject_data_of raw_df (subject r)) /\
         window_start r = raw_time_sec a /\
         window_end r = raw_time_sec b /\
         raw_sample_idx b - raw_sample_idx a = 500 - 1) /\
    (forall r1 r2, In r1 silver -> In r2 silver ->
       subject r1 = subject r2 -> window_idx r1 = window_idx r2 ->
       window_start r1 = window_start r2 /\ window_end r1 = window_end r2).
Proof.
  destruct example_files_silver as (raw_df & silver & Hload & Hsilver).
  exists raw_df, silver.
  assert (Hws : 1 <= 500) by lia.
  assert (Hstep : 1 <= 250) by lia.
  assert (Hof : create_silver_features_of (numlib := toy_numlib) 500 250 raw_df
                = Ret silver).
  { rewrite create_silver_features_eq in Hsilver.
    rewrite window_samples_value, step_samples_value in Hsilver.
    exact Hsilver. }
  split; [exact Hws |]. split; [exact Hstep |].
  split; [exact example_files_NoDup |]. split; [exact Hload |].
  split; [exact Hof |].
  exact (window_bounds_constant (numlib := toy_numlib) 500 250 example_files
           raw_df silver Hws Hstep example_files_NoDup Hload Hof).
Defined.

Lemma silver_rows_per_subject_example :
  exists silver,
    create_silver_features (numlib := toy_numlib) example_table = Ret silver /\
    forall subj,
      let N := Z.of_nat (length (subject_data_of example_table subj)) in
      Z.of_nat (length (filter (fun r => String.eqb (subject r) subj) silver)) =
      (if window_samples <=? N
       then (N - window_samples) / step_samples + 1 else 0)
      * Z.of_nat (length (filter (fun c => existsb (String.eqb c)
                                                   (columns example_table))
                                 EEG_CHANNELS)).
Proof.
  destruct example_table_silver as [silver Hsilver].
  exists silver. split; [exact Hsilver |].
  exact (silver_rows_per_subject (numlib := toy_numlib) example_table silver
           Hsilver).
Defined.

Lemma subject_mart_window_counts_example :
  exists silver,
    (exists c, In c EEG_CHANNELS /\ In c (columns example_table)) /\
    create_silver_features (numlib := toy_numlib) example_table = Ret silver /\
    forall subj,
      let N := Z.of_nat (length (subject_data_of example_table subj)) in
      if window_samples <=? N
      then exists a, In a (gold_subject_stats (numlib := toy_numlib) silver) /\
                     ss_subject a = subj /\
                     ss_n_windows a = (N - window_samples) / step_samples + 1
      else forall a, In a (gold_subject_stats (numlib := toy_numlib) silver) ->
                     ss_subject a <> subj.
Proof.
  assert (H : exists c, In c EEG_CHANNELS /\ In c (columns example_table)).
  { exists "Fp1"%string. split; [left; reflexivity | left; reflexivity]. }
  destruct example_table_silver as [silver Hsilver].
  exists silver. split; [exact H |]. split; [exact Hsilver |].
  exact (subject_mart_window_counts (numlib := toy_numlib) example_table silver
           H Hsilver).
Defined.

Lemma load_raw_eeg_data_subject_rows_example :
  exists raw_df f,
    NoDup (map stem example_files) /\
    load_raw_eeg_data example_files = Ret raw_df /\
    In f (firstn 5 example_files) /\
    read_subject f = Ret (subject_data_of raw_df (stem f)) /\
    length (subject_data_of raw_df (stem f)) = length (lines f) /\
    forall i r, nth_error (subject_data_of raw_df (stem f)) i = Some r ->
      raw_subject r = stem f /\
      raw_sample_idx r = Z.of_nat i /\
      raw_time_sec r = (inject_Z (Z.of_nat i) / inject_Z SAMPLING_RATE)%Q.
Proof.
  destruct (load_raw_eeg_data example_files) as [raw_df | e] eqn:Hload;
    [| vm_compute in Hload; discriminate Hload].
  exists raw_df.
  exists {| stem := "s00"; lines := repeat [Fin 1; Fin 0] 750 |}.
  assert (Hin : In {| stem := "s00"; lines := repeat [Fin 1; Fin 0] 750 |}
                   (firstn 5 example_files)) by (left; reflexivity).
  split; [exact example_files_NoDup |]. split; [reflexivity |].
  split; [exact Hin |].
  exact (load_raw_eeg_data_subject_rows example_files raw_df _
           example_files_NoDup Hload Hin).
Defined.

Lemma table_columns_prefix_example :
  exists raw_df silver,
    load_raw_eeg_data example_files = Ret raw_df /\
    create_silver_features (numlib := toy_numlib) raw_df = Ret silver /\
    (fold_left Nat.max (map n_cols (firstn 5 example_files)) 0 <= 19)%nat /\
    columns raw_df =
      firstn (fold_left Nat.max (map n_cols (firstn 5 example_files)) 0%nat)
             EEG_CHANNELS /\
    forall r, In r silver ->
      In (channel r)
         (firstn (fold_left Nat.max (map n_cols (firstn 5 example_files))
                            0%nat)
                 EEG_CHANNELS).
Proof.
  destruct example_files_silver as (raw_df & silver & Hload & Hsilver).
  exists raw_df, silver. split; [exact Hload |]. split; [exact Hsilver |].
  exact (table_columns_prefix (numlib := toy_numlib) example_files raw_df
           silver Hload Hsilver).
Defined.

Lemma pipeline_rows_per_file_example :
  exists raw_df silver,
    NoDup (map stem example_files) /\
    load_raw_eeg_data example_files = Ret raw_df /\
    create_silver_features (numlib := toy_numlib) raw_df = Ret silver /\
    forall f, In f (firstn 5 example_files) ->
      let n := Z.of_nat (length (lines f)) in
      let m := fold_left Nat.max (map n_cols (firstn 5 example_files)) 0%nat in
      Z.of_nat (length (filter (fun r => String.eqb (subject r) (stem f))
                               silver)) =
      (if 500 <=? n then (n - 500) / 250 + 1 else 0) * Z.of_nat m.
Proof.
  destruct example_files_silver as (raw_df & silver & Hload & Hsilver).
  exists raw_df, silver. split; [exact example_files_NoDup |].
  split; [exact Hload |]. split; [exact Hsilver |].
  exact (pipeline_rows_per_file (numlib := toy_numlib) example_files raw_df
           silver example_files_NoDup Hload Hsilver).
Defined.

Lemma window_times_example :
  exists raw_df silver,
    NoDup (map stem example_files) /\
    load_raw_eeg_data example_files = Ret raw_df /\
    create_silver_features (numlib := toy_numlib) raw_df = Ret silver /\
    forall r, In r silver ->
      exists a b,
        nth_error (subject_data_of raw_df (subject r))
                  (Z.to_nat (window_idx r * step_samples)) = Some a /\
        nth_error (subject_data_of raw_df (subject r))
                  (Z.to_nat (window_idx r * step_samples + window_samples - 1))
          = Some b /\
        raw_sample_idx a = window_idx r * step_samples /\
        raw_sample_idx b = window_idx r * step_samples + window_samples - 1 /\
        window_start r = raw_time_sec a /\
        window_end r = raw_time_sec b.
Proof.
  destruct example_files_silver as (raw_df & silver & Hload & Hsilver).
  exists raw_df, silver. split; [exact example_files_NoDup |].
  split; [exact Hload |]. split; [exact Hsilver |].
  exact (window_times (numlib := toy_numlib) example_files raw_df silver
           example_files_NoDup Hload Hsilver).
Defined.

Lemma silver_features_source_example :
  exists silver,
    create_silver_features (numlib := toy_numlib) example_table = Ret silver /\
    forall r, In r silver ->
      let window_data :=
        map (fun row => cell row (channel r))
            (py_slice (subject_data_of example_table (subject r))
                      (window_idx r * step_samples)
                      (window_idx r * step_samples + window_samples)) in
      Z.of_nat (length window_data) = window_samples /\
      extract_window_features (numlib := toy_numlib) window_data SAMPLING_RATE
        = Ret (features r).
Proof.
  destruct example_table_silver as [silver Hsilver].
  exists silver. split; [exact Hsilver |].
  exact (silver_features_source (numlib := toy_numlib) example_table silver
           Hsilver).
Defined.

Lemma silver_value_ranges_example :
  exists silver,
    (forall data fs nperseg,
       Forall (fun p => fltb p (Fin 0) = false)
              (snd (sp_welch (NumLib := toy_numlib) data fs nperseg))) /\
    create_silver_features (numlib := toy_numlib) example_table = Ret silver /\
    forall r, In r silver ->
      fltb (var_val (features r)) (Fin 0) = false /\
      exists h, spectral_entropy (features r) = Fin h /\ (0 <= h)%R.
Proof.
  assert (H : forall data fs nperseg,
             Forall (fun p => fltb p (Fin 0) = false)
                    (snd (sp_welch (NumLib := toy_numlib) data fs nperseg))).
  { intros data fs nperseg. cbn [sp_welch toy_numlib snd].
    apply (squares_not_negative (fun x => x)). }
  destruct example_table_silver as [silver Hsilver].
  exists silver. split; [exact H |]. split; [exact Hsilver |].
  exact (silver_value_ranges (numlib := toy_numlib) example_table silver
           H Hsilver).
Defined.

